(** * GoresetIT: the reset workflow, embedded and verified

    A shallow embedding of [functions.go], [structs.go], [main.go] and the
    prompt helpers of the UI file.  External commands, the file system, the
    terminal prompts and the two provider APIs are an environment of
    history-dependent oracles; every call is recorded, with its result, as
    an event of the run. *)

From Stdlib Require Import String Ascii List ZArith Bool Lia DecimalString.
Import ListNotations.
Local Open Scope list_scope.
Local Open Scope string_scope.

Set Implicit Arguments.

(** ** Go's [strings] package, as far as the program uses it *)

Module Strings.

Definition LF : string := String "010"%char EmptyString.

(** [strings.Contains(s, substr)]: [substr] occurs somewhere in [s]. *)
Fixpoint Contains (s substr : string) : bool :=
  String.prefix substr s ||
  match s with
  | EmptyString => false
  | String _ s' => Contains s' substr
  end.

(** [strings.Join(elems, sep)]. *)
Definition Join (elems : list string) (sep : string) : string :=
  String.concat sep elems.

(** [strings.Split(s, sep)] for a non-empty separator: [skip] counts the
    bytes of a separator that was just recognised and are still to be
    dropped, [cur] is the piece being read. *)
Fixpoint split_from (sep : string) (skip : nat) (cur s : string) : list string :=
  match s with
  | EmptyString => [cur]
  | String c s' =>
      match skip with
      | S k => split_from sep k cur s'
      | O =>
          if String.prefix sep s
          then cur :: split_from sep (String.length sep - 1) EmptyString s'
          else split_from sep 0 (cur ++ String c EmptyString) s'
      end
  end.

Definition Split (s sep : string) : list string := split_from sep 0 EmptyString s.

(** The six ASCII bytes of [asciiSpace]: tab, LF, VT, FF, CR, space. *)
Definition asciiSpace (c : ascii) : bool :=
  let n := nat_of_ascii c in
  ((9 <=? n) && (n <=? 13) || (n =? 32))%nat.

(** Width in bytes of the white-space rune a string starts with, 0 when it
    does not start with one.  Beyond ASCII, [unicode.IsSpace] holds of
    U+0085, U+00A0, U+1680, U+2000..U+200A, U+2028, U+2029, U+202F, U+205F
    and U+3000; the cases below are their UTF-8 encodings. *)
Definition leadingSpace (s : string) : nat :=
  match s with
  | EmptyString => 0
  | String c s1 =>
      if asciiSpace c then 1 else
      match nat_of_ascii c, s1 with
      | 194, String d _ =>
          let n := nat_of_ascii d in
          if ((n =? 133) || (n =? 160))%nat then 2 else 0
      | 225, String d (String e _) =>
          if ((nat_of_ascii d =? 154) && (nat_of_ascii e =? 128))%nat then 3 else 0
      | 226, String d (String e _) =>
          let n := nat_of_ascii d in
          let m := nat_of_ascii e in
          if ((n =? 128) && (((128 <=? m) && (m <=? 138)) || (m =? 168) || (m =? 169) || (m =? 175)))%nat
          then 3
          else if ((n =? 129) && (m =? 159))%nat then 3 else 0
      | 227, String d (String e _) =>
          if ((nat_of_ascii d =? 128) && (nat_of_ascii e =? 128))%nat then 3 else 0
      | _, _ => 0
      end
  end.

Fixpoint drop (n : nat) (s : string) : string :=
  match n, s with
  | S k, String _ s' => drop k s'
  | _, _ => s
  end.

(** Strip leading white-space runes; [fuel] bounds the number of runes. *)
Fixpoint trimLeft (fuel : nat) (s : string) : string :=
  match fuel with
  | O => s
  | S k =>
      match leadingSpace s with
      | O => s
      | w => trimLeft k (drop w s)
      end
  end.

(** Width of the white-space rune a string ends with, 0 when there is none:
    a white-space encoding of width [w] sits exactly on the last [w] bytes. *)
Definition trailingSpace (s : string) : nat :=
  let n := String.length s in
  let ends (w : nat) := ((w <=? n) && (leadingSpace (drop (n - w) s) =? w))%nat in
  if ends 1 then 1 else if ends 2 then 2 else if ends 3 then 3 else 0.

Fixpoint trimRight (fuel : nat) (s : string) : string :=
  match fuel with
  | O => s
  | S k =>
      match trailingSpace s with
      | O => s
      | w => trimRight k (String.substring 0 (String.length s - w) s)
      end
  end.

(** [strings.TrimSpace(s)]: leading white space goes first, then trailing. *)
Definition TrimSpace (s : string) : string :=
  let l := trimLeft (String.length s) s in
  trimRight (String.length l) l.

End Strings.

(** ** structs.go *)

(** [type GitProvider int], with [GitHub = iota] and [GitLab] after it. *)
Definition GitProvider := Z.
Definition GitHub : GitProvider := 0%Z.
Definition GitLab : GitProvider := 1%Z.

Record RepoInfo := {
  Provider : GitProvider;
  FullPath : string;
  RepoName : string;
  Token : string;
  GitLabURL : string;
  DryRun : bool
}.

Module Flags.
Record CommandLineFlags := {
  RepoPath : string;
  Token : string;
  Provider : string;
  GitLabURL : string;
  DryRun : bool;
  NoInteractive : bool;
  CommitMsg : string
}.
End Flags.

(** ** Errors *)

(** A Go [error] value: [None] is [nil], [Some m] an error whose message is [m]. *)
Definition error := option string.

Record CommandError := {
  Command : string;
  Output : string;
  Err : string
}.

(** [func (e *CommandError) Error() string]. *)
Definition CommandError_Error (e : CommandError) : string :=
  if negb (String.eqb (Output e) "")
  then "Command '" ++ Command e ++ "' failed: " ++ Err e ++ Strings.LF ++ "Output: " ++ Output e
  else "Command '" ++ Command e ++ "' failed: " ++ Err e.

(** [%d] of an integer. *)
Definition fmt_d (n : Z) : string := NilZero.string_of_int (Z.to_int n).

(** ** Provider records *)

(** [github.RepositoryRelease]: the three fields the program reads are
    pointers, [None] is the nil pointer. *)
Record RepositoryRelease := {
  ID : option Z;
  Name : option string;
  TagName : option string
}.

(** [gitlab.Release]: plain string fields. *)
Record Release := {
  GLName : string;
  GLTagName : string
}.

(** ** Events of a run *)

(** The styles of the UI file that the program prints with. *)
Inductive Style := success | info | warning | errorStyle | logoStyle.

(** An argument of a printed line. *)
Inductive Arg :=
| AStr (s : string)
| AInt (n : Z)
| AStrs (l : list string).

(** The model a prompt starts its terminal program with. *)
Inductive TeaModel :=
| InitialCommitModel
| ConfirmModel (Question : string).

(** Outcome of the program run by a prompt ([tea.Program.Run]): an error, or
    the final model. *)
Inductive TeaResult :=
| TeaErr (e : string)
| TeaCommit (done : bool) (value : string)
| TeaConfirm (answer : bool)
| TeaOther.

(** A call into the environment with its result, or a printed line. *)
Inductive Event :=
| EvRemoveAll (path : string) (res : error)
| EvMkdirAll (path : string) (res : error)
| EvChdir (path : string) (res : error)
  (* exec git args, CombinedOutput *)
| EvGit (args : list string) (output : string) (res : error)
  (* exec git args, Output *)
| EvGitOutput (args : list string) (output : string) (res : error)
  (* fmt.Print of a command's output *)
| EvStdout (s : string)
  (* a styled line: the style, the format and its arguments *)
| EvPrint (st : Style) (format : string) (args : list Arg)
| EvUsage
| EvTea (model : TeaModel) (res : TeaResult)
| EvGitHubList (owner repo : string) (res : list RepositoryRelease + string)
| EvGitHubDelete (owner repo : string) (id : Z) (res : error)
| EvGitLabClient (token baseURL : string) (res : error)
| EvGitLabList (fullPath : string) (res : list Release + (option Z * string))
| EvGitLabDelete (fullPath tagName : string) (res : option (option Z * string)).

Definition Trace := list Event.

(** ** The environment

    Every oracle sees the history of the run so far, so the same call may
    answer differently at different times. *)
Record Env := {
  (* filepath.Join(os.TempDir(), "git-tmp") *)
  tmpPath : string;
  fs_RemoveAll : Trace -> string -> error;
  fs_MkdirAll : Trace -> string -> error;
  fs_Chdir : Trace -> string -> error;
  git_CombinedOutput : Trace -> list string -> string * error;
  git_Output : Trace -> list string -> string * error;
  tea_Run : Trace -> TeaModel -> TeaResult;
  github_ListReleases : Trace -> string -> string -> list RepositoryRelease + string;
  github_DeleteRelease : Trace -> string -> string -> Z -> error;
  gitlab_NewClient : Trace -> string -> string -> error;
  (* a failure carries the response's status code, when there is a response *)
  gitlab_ListReleases : Trace -> string -> list Release + (option Z * string);
  gitlab_DeleteRelease : Trace -> string -> string -> option (option Z * string)
}.

(** ** The monad: read the history, write new events, return or panic *)

Inductive Result (A : Type) :=
| Val (a : A)
| Panic (msg : string).
Arguments Panic {A} msg.

(** A computation maps the history of the run to its result and the events
    it adds to the run. *)
Definition M (A : Type) := Trace -> Result A * Trace.

Definition ret {A} (a : A) : M A := fun _ => (Val a, []).

Definition bind {A B} (m : M A) (f : A -> M B) : M B :=
  fun tr =>
    match m tr with
    | (Val a, n1) => let (r, n2) := f a (tr ++ n1)%list in (r, (n1 ++ n2)%list)
    | (Panic msg, n1) => (Panic msg, n1)
    end.

Definition emit (e : Event) : M unit := fun _ => (Val tt, [e]).

Definition panic {A} (msg : string) : M A := fun _ => (Panic msg, []).

(** [defer d] before [body]: [d] runs when [body] is left, also by a panic;
    its own result is dropped. *)
Definition defer {A B} (d : M B) (body : M A) : M A :=
  fun tr =>
    let (r, n1) := body tr in
    let (_, n2) := d (tr ++ n1)%list in
    (r, (n1 ++ n2)%list).

Declare Scope go_scope.
Delimit Scope go_scope with go.
Notation "x <- c ;; k" := (bind c (fun x => k))
  (at level 61, c at next level, right associativity) : go_scope.
Notation "' pat <- c ;; k" := (bind c (fun x => match x with pat => k end))
  (at level 61, pat pattern, c at next level, right associativity) : go_scope.
Notation "c ;; k" := (bind c (fun _ => k))
  (at level 61, right associativity) : go_scope.
Local Open Scope go_scope.

(** [for _, x := range l { body x }] with a body that never returns early. *)
Fixpoint forEach {A} (l : list A) (body : A -> M unit) : M unit :=
  match l with
  | [] => ret tt
  | x :: rest => body x ;; forEach rest body
  end.

(** [*p]. *)
Definition deref {A} (p : option A) : M A :=
  match p with
  | Some a => ret a
  | None => panic "invalid memory address or nil pointer dereference"
  end.

(** ** functions.go *)

Section Program.

Variable env : Env.

(** *** Calls into the environment *)

Definition os_RemoveAll (path : string) : M error :=
  fun tr => let r := fs_RemoveAll env tr path in (Val r, [EvRemoveAll path r]).

Definition os_MkdirAll (path : string) : M error :=
  fun tr => let r := fs_MkdirAll env tr path in (Val r, [EvMkdirAll path r]).

Definition os_Chdir (path : string) : M error :=
  fun tr => let r := fs_Chdir env tr path in (Val r, [EvChdir path r]).

Definition exec_CombinedOutput (args : list string) : M (string * error) :=
  fun tr => let r := git_CombinedOutput env tr args in (Val r, [EvGit args (fst r) (snd r)]).

Definition exec_Output (args : list string) : M (string * error) :=
  fun tr => let r := git_Output env tr args in (Val r, [EvGitOutput args (fst r) (snd r)]).

Definition Repositories_ListReleases (owner repo : string)
  : M (list RepositoryRelease + string) :=
  fun tr => let r := github_ListReleases env tr owner repo in (Val r, [EvGitHubList owner repo r]).

Definition Repositories_DeleteRelease (owner repo : string) (id : Z) : M error :=
  fun tr => let r := github_DeleteRelease env tr owner repo id in
            (Val r, [EvGitHubDelete owner repo id r]).

Definition newGitLabClient (token baseURL : string) : M error :=
  fun tr => let r := gitlab_NewClient env tr token baseURL in
            (Val r, [EvGitLabClient token baseURL r]).

Definition Releases_ListReleases (fullPath : string)
  : M (list Release + (option Z * string)) :=
  fun tr => let r := gitlab_ListReleases env tr fullPath in (Val r, [EvGitLabList fullPath r]).

Definition Releases_DeleteRelease (fullPath tagName : string)
  : M (option (option Z * string)) :=
  fun tr => let r := gitlab_DeleteRelease env tr fullPath tagName in
            (Val r, [EvGitLabDelete fullPath tagName r]).

(** [newTeaProgram(model).Run()]. *)
Definition Run (model : TeaModel) : M TeaResult :=
  fun tr => let r := tea_Run env tr model in (Val r, [EvTea model r]).

(** [fmt.Println(style.Render(format, args...))] and
    [fmt.Printf(style.Render(format), args...)]: the line is recorded as
    its style, its format as written in the source, and its arguments. *)
Definition println (st : Style) (format : string) (args : list Arg) : M unit :=
  emit (EvPrint st format args).

(** *** RunGitCommandWithOutput *)

Definition RunGitCommandWithOutput (args : list string) : M (option CommandError) :=
  '(output, err) <- exec_CombinedOutput args ;;
  match err with
  | Some e =>
      ret (Some {| Command := "git " ++ Strings.Join args " "; Output := output; Err := e |})
  | None =>
      (if (0 <? String.length output)%nat then emit (EvStdout output) else ret tt) ;;
      ret None
  end.

(** *** GetGitTags *)

(** Lines 175-179: from the command's output to the tags. *)
Definition tagsOfOutput (output : string) : list string :=
  let tags := Strings.Split (Strings.TrimSpace output) Strings.LF in
  if ((List.length tags =? 1)%nat && String.eqb (nth 0 tags "") "")%bool
  then []
  else tags.

Definition GetGitTags : M (list string * option CommandError) :=
  '(output, err) <- exec_Output ["tag"] ;;
  match err with
  | Some e => ret ([], Some {| Command := "git tag"; Output := output; Err := e |})
  | None => ret (tagsOfOutput output, None)
  end.

(** *** DeleteGitHubReleases *)

Definition DeleteGitHubReleases (repoInfo : RepoInfo) : M error :=
  r <- Repositories_ListReleases (FullPath repoInfo) (RepoName repoInfo) ;;
  match r with
  | inr e => ret (Some ("failed to list releases: " ++ e))
  | inl releases =>
      if (List.length releases =? 0)%nat
      then println info "No releases found to delete" [] ;; ret None
      else
        println info "Found %d releases" [AInt (Z.of_nat (List.length releases))] ;;
        (if DryRun repoInfo
         then
           println info "\nThe following releases would be deleted:" [] ;;
           forEach releases (fun release =>
             id <- deref (ID release) ;;
             name <- deref (Name release) ;;
             tag <- deref (TagName release) ;;
             println info "- Release %d: %s (tag: %s)\n" [AInt id; AStr name; AStr tag])
         else
           forEach releases (fun release =>
             id <- deref (ID release) ;;
             err <- Repositories_DeleteRelease (FullPath repoInfo) (RepoName repoInfo) id ;;
             match err with
             | Some e =>
                 println warning "Warning: Failed to delete release %d: %v" [AInt id; AStr e]
             | None =>
                 name <- deref (Name release) ;;
                 println success "Deleted release %d: %s" [AInt id; AStr name]
             end)) ;;
        ret None
  end.

(** *** DeleteGitLabReleases *)

Definition DeleteGitLabReleases (repoInfo : RepoInfo) : M error :=
  err <- newGitLabClient (Token repoInfo) (GitLabURL repoInfo) ;;
  match err with
  | Some e => ret (Some ("failed to create GitLab client: " ++ e))
  | None =>
      let fullPath := FullPath repoInfo ++ "/" ++ RepoName repoInfo in
      r <- Releases_ListReleases fullPath ;;
      match r with
      | inr (Some status, e) =>
          ret (Some ("failed to list releases (status " ++ fmt_d status ++ "): " ++ e))
      | inr (None, e) => ret (Some ("failed to list releases: " ++ e))
      | inl releases =>
          if (List.length releases =? 0)%nat
          then println info "No releases found to delete" [] ;; ret None
          else
            println info "Found %d releases" [AInt (Z.of_nat (List.length releases))] ;;
            (if DryRun repoInfo
             then
               println info "\nThe following releases would be deleted:" [] ;;
               forEach releases (fun release =>
                 println info "- Release: %s (tag: %s)\n"
                   [AStr (GLName release); AStr (GLTagName release)])
             else
               forEach releases (fun release =>
                 r <- Releases_DeleteRelease fullPath (GLTagName release) ;;
                 match r with
                 | Some (Some status, e) =>
                     println warning "Warning: Failed to delete release %s (status %d): %v"
                       [AStr (GLTagName release); AInt status; AStr e]
                 | Some (None, e) =>
                     println warning "Warning: Failed to delete release %s: %v"
                       [AStr (GLTagName release); AStr e]
                 | None =>
                     println success "Deleted release: %s" [AStr (GLName release)]
                 end)) ;;
            ret None
      end
  end.

(** *** ResetRepo *)

(** Lines 75-81: the zero value of the string stays when the provider is
    neither constant. *)
Definition cloneURL (repoInfo : RepoInfo) : string :=
  if (Provider repoInfo =? GitHub)%Z
  then "https://github.com/" ++ FullPath repoInfo ++ "/" ++ RepoName repoInfo ++ ".git"
  else if (Provider repoInfo =? GitLab)%Z
  then GitLabURL repoInfo ++ "/" ++ FullPath repoInfo ++ "/" ++ RepoName repoInfo ++ ".git"
  else "".

Record gitOperation := { desc : string; args : list string }.

(** Lines 90-99. *)
Definition gitOperations (commitMessage : string) : list gitOperation :=
  [ {| desc := "Creating new orphan branch"; args := ["checkout"; "--orphan"; "temp_branch"] |};
    {| desc := "Staging all files"; args := ["add"; "-A"] |};
    {| desc := "Creating initial commit"; args := ["commit"; "-m"; commitMessage] |};
    {| desc := "Removing old main branch"; args := ["branch"; "-D"; "main"] |};
    {| desc := "Renaming branch to main"; args := ["branch"; "-m"; "main"] |} ].

(** Lines 101-108: the loop returns the error ResetRepo returns from inside
    it, [None] when it runs to its end. *)
Fixpoint runGitOperations (ops : list gitOperation) : M error :=
  match ops with
  | [] => ret None
  | op :: rest =>
      println info "Executing: git %s" [AStr (Strings.Join (args op) " ")] ;;
      err <- RunGitCommandWithOutput (args op) ;;
      match err with
      | Some e =>
          if negb (Strings.Contains (nth 0 (args op) "") "branch -D")
          then ret (Some ("failed to " ++ desc op ++ ": " ++ CommandError_Error e))
          else runGitOperations rest
      | None => runGitOperations rest
      end
  end.

(** Lines 116-126. *)
Definition localTagCleanup (tags : list string) : M unit :=
  if (0 <? List.length tags)%nat
  then
    println info "Found %d tags to delete" [AInt (Z.of_nat (List.length tags))] ;;
    forEach tags (fun tag =>
      println info "Removing local tag: %s" [AStr tag] ;;
      err <- RunGitCommandWithOutput ["tag"; "-d"; tag] ;;
      match err with
      | Some e =>
          println warning "Warning: Failed to delete local tag %s: %v"
            [AStr tag; AStr (CommandError_Error e)]
      | None => ret tt
      end)
  else println info "No local tags found" [].

(** Lines 130-134. *)
Definition dryRunCheckpoint (tags : list string) : M error :=
  (if (0 <? List.length tags)%nat
   then println info "\nWould delete %d remote tags: %v\n"
          [AInt (Z.of_nat (List.length tags)); AStrs tags]
   else ret tt) ;;
  println info "Would execute: git push -f origin main" [] ;;
  ret None.

(** Lines 138-146. *)
Definition remoteTagCleanup (tags : list string) : M unit :=
  if (0 <? List.length tags)%nat
  then
    forEach tags (fun tag =>
      err <- RunGitCommandWithOutput ["push"; "origin"; "--delete"; "refs/tags/" ++ tag] ;;
      match err with
      | Some e =>
          println warning "Warning: Failed to delete remote tag %s: %v"
            [AStr tag; AStr (CommandError_Error e)]
      | None => println success "Deleted remote tag: %s" [AStr tag]
      end)
  else ret tt.

(** Lines 154-161. *)
Definition releaseCleanup (repoInfo : RepoInfo) : M error :=
  if (Provider repoInfo =? GitHub)%Z then DeleteGitHubReleases repoInfo
  else if (Provider repoInfo =? GitLab)%Z then DeleteGitLabReleases repoInfo
  else ret (Some "unsupported git provider").

(** Lines 116-161, once the tags are known. *)
Definition afterTags (repoInfo : RepoInfo) (tags : list string) : M error :=
  localTagCleanup tags ;;
  if DryRun repoInfo
  then dryRunCheckpoint tags
  else
    remoteTagCleanup tags ;;
    err <- RunGitCommandWithOutput ["push"; "-f"; "origin"; "main"] ;;
    match err with
    | Some e => ret (Some ("failed to push changes: " ++ CommandError_Error e))
    | None => releaseCleanup repoInfo
    end.

(** Lines 69-161, under the deferred removal. *)
Definition inWorkspace (repoInfo : RepoInfo) (commitMessage : string) : M error :=
  err <- os_Chdir (tmpPath env) ;;
  match err with
  | Some e => ret (Some ("failed to change to temporary directory: " ++ e))
  | None =>
      println info "Cloning repository: git clone %s" [AStr (cloneURL repoInfo)] ;;
      err <- RunGitCommandWithOutput ["clone"; cloneURL repoInfo] ;;
      match err with
      | Some e => ret (Some ("failed to clone repository: " ++ CommandError_Error e))
      | None =>
          os_Chdir (RepoName repoInfo) ;;
          err <- runGitOperations (gitOperations commitMessage) ;;
          match err with
          | Some e => ret (Some e)
          | None =>
              '(tags, err) <- GetGitTags ;;
              match err with
              | Some e => ret (Some ("failed to list tags: " ++ CommandError_Error e))
              | None => afterTags repoInfo tags
              end
          end
      end
  end.

Definition ResetRepo (repoInfo : RepoInfo) (commitMessage : string) : M error :=
  err <- os_RemoveAll (tmpPath env) ;;
  match err with
  | Some e => ret (Some ("failed to remove existing temporary directory: " ++ e))
  | None =>
      err <- os_MkdirAll (tmpPath env) ;;
      match err with
      | Some e => ret (Some ("failed to create temporary directory: " ++ e))
      | None => defer (os_RemoveAll (tmpPath env)) (inWorkspace repoInfo commitMessage)
      end
  end.

End Program.

(** ** The prompts and main.go *)

Section Main.

Variable env : Env.

(** [strings.ToLower], of Go's library; nothing is assumed about it. *)
Variable ToLower : string -> string.

Definition defaultCommitMsg : string := "Initial commit".

(** The logo is recorded by its name, its text is not reproduced. *)
Definition ShowLogo : M unit := emit (EvPrint logoStyle "Logo" []).

Definition PromptCommitMessage : M (string * error) :=
  r <- Run env InitialCommitModel ;;
  match r with
  | TeaErr e => ret ("", Some e)
  | TeaCommit done value => if negb done then ret ("", None) else ret (value, None)
  | _ => ret ("", None)
  end.

Definition PromptConfirmation (dryRun : bool) : M (bool * error) :=
  let question :=
    if dryRun
    then "GoresetIT will simulate squashing all commits on main branch (DRY RUN).\n" ++
         "This operation will perform all local operations but won't push any changes.\n" ++
         "Are you sure you want to continue?"
    else "GoresetIT will squash all commits on main branch.\n" ++
         "THIS IS A DESTRUCTIVE OPERATION AND CANNOT BE UNDONE!\n" ++
         "Are you sure you want to continue?" in
  r <- Run env (ConfirmModel question) ;;
  match r with
  | TeaErr e => ret (false, Some e)
  | TeaConfirm answer => ret (answer, None)
  | _ => ret (false, None)
  end.

(** Where main stands before line 174: it has left through [os.Exit], or it
    is about to call [ResetRepo]. *)
Inductive Decision :=
| Exit (code : Z)
| Invoke (repoInfo : RepoInfo) (commitMessage : string).

(** Lines 126-172. *)
Definition chooseCommitMessage (flags : Flags.CommandLineFlags) (repoInfo : RepoInfo)
  : M Decision :=
  commitMessage <-
    (if negb (String.eqb (Flags.CommitMsg flags) "")
     then
       println info "Using provided commit message: '%s'\n" [AStr (Flags.CommitMsg flags)] ;;
       ret (Flags.CommitMsg flags)
     else if Flags.NoInteractive flags
     then
       println info "Using default commit message: '%s'\n" [AStr defaultCommitMsg] ;;
       ret defaultCommitMsg
     else ret "") ;;
  if negb (Flags.NoInteractive flags)
  then
    '(confirmed, err) <- PromptConfirmation (Flags.DryRun flags) ;;
    match err with
    | Some e => println errorStyle "Error during confirmation:" [AStr e] ;; ret (Exit 1)
    | None =>
        if negb confirmed
        then println info "Operation cancelled by user" [] ;; ret (Exit 0)
        else
          if String.eqb commitMessage ""
          then
            '(message, err) <- PromptCommitMessage ;;
            match err with
            | Some e => println errorStyle "Error getting commit message:" [AStr e] ;; ret (Exit 1)
            | None =>
                if String.eqb message ""
                then println info "Operation cancelled by user" [] ;; ret (Exit 0)
                else ret (Invoke repoInfo message)
            end
          else ret (Invoke repoInfo commitMessage)
    end
  else
    (if Flags.DryRun flags
     then println warning "DRY RUN: Will simulate squashing all commits on main branch" []
     else println warning
            "WARNING: Will squash all commits on main branch (no interactive confirmation requested)" []) ;;
    ret (Invoke repoInfo commitMessage).

(** Lines 89-172; [flags] is what [parseFlags] returned. *)
Definition beforeReset (flags : Flags.CommandLineFlags) : M Decision :=
  ShowLogo ;;
  if (String.eqb (Flags.RepoPath flags) "" || String.eqb (Flags.Token flags) "")%bool
  then
    println errorStyle "Error: Missing required arguments." [] ;;
    emit EvUsage ;;
    ret (Exit 1)
  else
    let parts := Strings.Split (Flags.RepoPath flags) "/" in
    if (List.length parts <? 2)%nat
    then
      println errorStyle
        "Error: Invalid repository format. Please use full path format (e.g., owner/repo or group/subgroup/repo)." [] ;;
      emit EvUsage ;;
      ret (Exit 1)
    else
      let repoName := nth (List.length parts - 1) parts "" in
      let fullPath := Strings.Join (firstn (List.length parts - 1) parts) "/" in
      let provider := ToLower (Flags.Provider flags) in
      if String.eqb provider "github"
      then
        chooseCommitMessage flags
          {| Provider := GitHub; FullPath := fullPath; RepoName := repoName;
             Token := Flags.Token flags; GitLabURL := ""; DryRun := Flags.DryRun flags |}
      else if String.eqb provider "gitlab"
      then
        chooseCommitMessage flags
          {| Provider := GitLab; FullPath := fullPath; RepoName := repoName;
             Token := Flags.Token flags; GitLabURL := Flags.GitLabURL flags;
             DryRun := Flags.DryRun flags |}
      else
        println errorStyle "Error: Invalid provider. Use 'github' or 'gitlab'." [] ;;
        ret (Exit 1).

(** [main], to the exit status of the process. *)
Definition main (flags : Flags.CommandLineFlags) : M Z :=
  d <- beforeReset flags ;;
  match d with
  | Exit code => ret code
  | Invoke repoInfo commitMessage =>
      err <- ResetRepo env repoInfo commitMessage ;;
      match err with
      | Some e => println errorStyle "Error:" [AStr e] ;; ret 1%Z
      | None =>
          (if Flags.DryRun flags
           then println info "\nDry run completed. No changes were pushed to remote." []
           else
             println success "\nRepository %s/%s has been reset with message: '%s'\n"
               [AStr (FullPath repoInfo); AStr (RepoName repoInfo); AStr commitMessage] ;;
             println success "All tags and releases have been deleted." []) ;;
          ret 0%Z
      end
  end.

End Main.

(** ** Concrete environments *)

Module Scenario.

Definition tagLines (tags : list string) : string :=
  String.concat "" (map (fun t => t ++ Strings.LF) tags).

(** A remote with the given tags and releases; [fails] says which git
    commands exit with status 1, [ghFails] and [glFails] which release
    deletions the provider refuses. *)
Definition world (tags : list string) (fails : list string -> bool)
    (gh : list RepositoryRelease + string) (ghFails : Z -> bool)
    (gl : list Release + (option Z * string)) (glFails : string -> bool) : Env :=
  {| tmpPath := "/tmp/git-tmp";
     fs_RemoveAll := fun _ _ => None;
     fs_MkdirAll := fun _ _ => None;
     fs_Chdir := fun _ _ => None;
     git_CombinedOutput := fun _ a =>
       if fails a then ("fatal", Some "exit status 1") else ("", None);
     git_Output := fun _ _ => (tagLines tags, None);
     tea_Run := fun _ m =>
       match m with
       | InitialCommitModel => TeaCommit true "fresh start"
       | ConfirmModel _ => TeaConfirm true
       end;
     github_ListReleases := fun _ _ _ => gh;
     github_DeleteRelease := fun _ _ _ id =>
       if ghFails id then Some "403 Forbidden" else None;
     gitlab_NewClient := fun _ _ _ => None;
     gitlab_ListReleases := fun _ _ => gl;
     gitlab_DeleteRelease := fun _ _ t =>
       if glFails t then Some (Some 403%Z, "403 Forbidden") else None |}.

Definition never {A} (_ : A) : bool := false.

Definition isCommand (cmd : list string) (a : list string) : bool :=
  if list_eq_dec string_dec cmd a then true else false.

Definition github (dryRun : bool) : RepoInfo :=
  {| Provider := GitHub; FullPath := "owner"; RepoName := "repo"; Token := "token";
     GitLabURL := ""; DryRun := dryRun |}.

Definition gitlab (dryRun : bool) : RepoInfo :=
  {| Provider := GitLab; FullPath := "team/sub"; RepoName := "proj"; Token := "token";
     GitLabURL := "https://gitlab.example.com"; DryRun := dryRun |}.

Definition release (id : Z) (tag : string) : RepositoryRelease :=
  {| ID := Some id; Name := Some tag; TagName := Some tag |}.

(** One tag, one release, and a clone that fails. *)
Definition cloneFails : Env :=
  world ["v1.0.0"] (isCommand ["clone"; "https://github.com/owner/repo.git"])
    (inl [release 1 "v1.0.0"]) never (inl []) never.

(** A repository whose primary branch is not called main: its deletion fails. *)
Definition noMainBranch : Env :=
  world ["v1.0.0"] (isCommand ["branch"; "-D"; "main"])
    (inl [release 1 "v1.0.0"]) never (inl []) never.

(** Two tags and one release. *)
Definition twoTags : Env :=
  world ["v1.0.0"; "v1.1.0"] never (inl [release 1 "v1.0.0"]) never
    (inl [ {| GLName := "first"; GLTagName := "v1.0.0" |} ]) never.

(** Three tags; the remote refuses to delete the second. *)
Definition secondTagStays : Env :=
  world ["v1"; "v2"; "v3"] (isCommand ["push"; "origin"; "--delete"; "refs/tags/v2"])
    (inl []) never (inl []) never.

(** Three releases on each provider; the second can not be deleted. *)
Definition secondReleaseStays : Env :=
  world [] never
    (inl [release 1 "v1"; release 2 "v2"; release 3 "v3"]) (Z.eqb 2)
    (inl [ {| GLName := "one"; GLTagName := "v1" |}; {| GLName := "two"; GLTagName := "v2" |};
           {| GLName := "three"; GLTagName := "v3" |} ]) (String.eqb "v2").

(** The provider can not list the releases. *)
Definition listFails : Env :=
  world [] never (inr "500 Internal Server Error") never
    (inr (Some 500%Z, "500 Internal Server Error")) never.

(** No tags and no releases. *)
Definition bare : Env :=
  world [] never (inl []) never (inl []) never.

(** The same environment with another end of the commit prompt. *)
Definition withPrompt (answer : TeaResult) (w : Env) : Env :=
  {| tmpPath := tmpPath w;
     fs_RemoveAll := fs_RemoveAll w;
     fs_MkdirAll := fs_MkdirAll w;
     fs_Chdir := fs_Chdir w;
     git_CombinedOutput := git_CombinedOutput w;
     git_Output := git_Output w;
     tea_Run := fun tr m =>
       match m with
       | InitialCommitModel => answer
       | ConfirmModel _ => tea_Run w tr m
       end;
     github_ListReleases := github_ListReleases w;
     github_DeleteRelease := github_DeleteRelease w;
     gitlab_NewClient := gitlab_NewClient w;
     gitlab_ListReleases := gitlab_ListReleases w;
     gitlab_DeleteRelease := gitlab_DeleteRelease w |}.

(** Lower case of the ASCII letters, the other bytes as they are. *)
Fixpoint asciiToLower (s : string) : string :=
  match s with
  | EmptyString => EmptyString
  | String c s' =>
      let n := nat_of_ascii c in
      String (if ((65 <=? n) && (n <=? 90))%nat then ascii_of_nat (n + 32) else c)
        (asciiToLower s')
  end.

(** goresetit -r owner/repo -t token -p GitHub, interactive. *)
Definition interactive : Flags.CommandLineFlags :=
  {| Flags.RepoPath := "owner/repo"; Flags.Token := "token"; Flags.Provider := "GitHub";
     Flags.GitLabURL := "https://gitlab.com"; Flags.DryRun := false;
     Flags.NoInteractive := false; Flags.CommitMsg := "" |}.

(** goresetit -r team/sub/proj -t token -p gitlab -g https://gitlab.example.com -d -n. *)
Definition batch : Flags.CommandLineFlags :=
  {| Flags.RepoPath := "team/sub/proj"; Flags.Token := "token"; Flags.Provider := "gitlab";
     Flags.GitLabURL := "https://gitlab.example.com"; Flags.DryRun := true;
     Flags.NoInteractive := true; Flags.CommitMsg := "" |}.

End Scenario.

(** ** Definitions for the properties *)

(** *** Properties of computations *)

(** Every event a computation adds satisfies [p], whatever the history. *)
Definition emits {A} (p : Event -> bool) (m : M A) : Prop :=
  forall tr, forallb p (snd (m tr)) = true.

(** The computation returns (it does not panic) and adds only [p] events. *)
Definition returns {A} (p : Event -> bool) (m : M A) : Prop :=
  forall tr, exists a n, m tr = (Val a, n) /\ forallb p n = true.

(** *** Git commands *)

(** Equality of argument vectors. *)
Fixpoint listEqb (a b : list string) : bool :=
  match a, b with
  | [], [] => true
  | x :: a', y :: b' => String.eqb x y && listEqb a' b'
  | _, _ => false
  end.

(** [git tag -d <tag>]. *)
Definition isLocalTagDelete (a : list string) : bool :=
  match a with
  | [x; y; _] => String.eqb x "tag" && String.eqb y "-d"
  | _ => false
  end.

(** [git push origin --delete <ref>]. *)
Definition isRemoteTagDelete (a : list string) : bool :=
  match a with
  | [x; y; z; _] => String.eqb x "push" && String.eqb y "origin" && String.eqb z "--delete"
  | _ => false
  end.

(** [git push -f origin main]. *)
Definition isForcePush (a : list string) : bool :=
  listEqb a ["push"; "-f"; "origin"; "main"].

(** *** The events a run of ResetRepo is made of *)

Section Alphabet.

Variable env : Env.
Variable repoInfo : RepoInfo.
Variable commitMessage : string.

(** The git commands a run may issue. *)
Definition gitAllowed (a : list string) : bool :=
  listEqb a ["clone"; cloneURL repoInfo]
  || existsb (fun op => listEqb a (args op)) (gitOperations commitMessage)
  || isLocalTagDelete a
  || negb (DryRun repoInfo) && (isRemoteTagDelete a || isForcePush a).

(** The events a run may consist of. *)
Definition allowed (e : Event) : bool :=
  match e with
  | EvRemoveAll path _ | EvMkdirAll path _ => String.eqb path (tmpPath env)
  | EvChdir path _ => String.eqb path (tmpPath env) || String.eqb path (RepoName repoInfo)
  | EvGit a _ _ => gitAllowed a
  | EvGitOutput a _ _ => listEqb a ["tag"]
  | EvStdout _ | EvPrint _ _ _ => true
  | EvUsage | EvTea _ _ => false
  | EvGitHubList o r _ | EvGitHubDelete o r _ _ =>
      negb (DryRun repoInfo) && (Provider repoInfo =? GitHub)%Z
      && String.eqb o (FullPath repoInfo) && String.eqb r (RepoName repoInfo)
  | EvGitLabClient _ _ _ =>
      negb (DryRun repoInfo) && (Provider repoInfo =? GitLab)%Z
  | EvGitLabList f _ | EvGitLabDelete f _ _ =>
      negb (DryRun repoInfo) && (Provider repoInfo =? GitLab)%Z
      && String.eqb f (FullPath repoInfo ++ "/" ++ RepoName repoInfo)
  end.

(** The events of lines 101-108. *)
Definition rewriteEvent (e : Event) : bool :=
  match e with
  | EvGit a _ _ => existsb (fun op => listEqb a (args op)) (gitOperations commitMessage)
  | EvStdout _ | EvPrint _ _ _ => true
  | _ => false
  end.

(** The events of lines 116-161. *)
Definition tagEvent (e : Event) : bool :=
  match e with
  | EvGit a _ _ =>
      isLocalTagDelete a || negb (DryRun repoInfo) && (isRemoteTagDelete a || isForcePush a)
  | EvStdout _ | EvPrint _ _ _ => true
  | EvGitHubList _ _ _ | EvGitHubDelete _ _ _ _ | EvGitLabClient _ _ _
  | EvGitLabList _ _ | EvGitLabDelete _ _ _ => allowed e
  | _ => false
  end.

End Alphabet.

(** *** The clone URL *)

(** A target as the data model wants it: one of the two providers, and
    neither the path nor the name empty. *)
Definition validTarget (repoInfo : RepoInfo) : Prop :=
  (Provider repoInfo = GitHub \/ Provider repoInfo = GitLab)
  /\ FullPath repoInfo <> "" /\ RepoName repoInfo <> "".

(** The URL in the specification's words: GitHub gives
    https://github.com/{owner}/{repo}.git, GitLab {baseURL}/{owner}/{repo}.git. *)
Definition specCloneURL (repoInfo : RepoInfo) : string :=
  let ownerRepo := FullPath repoInfo ++ "/" ++ RepoName repoInfo ++ ".git" in
  if Z.eq_dec (Provider repoInfo) GitHub
  then "https://github.com/" ++ ownerRepo
  else GitLabURL repoInfo ++ "/" ++ ownerRepo.

(** *** The exit paths of ResetRepo *)

(** What RunGitCommandWithOutput prints of a command that succeeded. *)
Definition stdoutOf (output : string) : Trace :=
  if (0 <? String.length output)%nat then [EvStdout output] else [].

(** The error RunGitCommandWithOutput returns for a command that failed. *)
Definition commandError (args : list string) (output e : string) : CommandError :=
  {| Command := "git " ++ Strings.Join args " "; Output := output; Err := e |}.

(** No condition on the events. *)
Definition anyEvent (_ : Event) : bool := true.

Section ExitPaths.

Variable env : Env.
Variable repoInfo : RepoInfo.
Variable commitMessage : string.

(** The run so far once the workspace exists. *)
Definition created : Trace :=
  [EvRemoveAll (tmpPath env) None; EvMkdirAll (tmpPath env) None].

(** The run so far when the clone starts. *)
Definition cloning : Trace :=
  (created ++
   [EvChdir (tmpPath env) None;
    EvPrint info "Cloning repository: git clone %s" [AStr (cloneURL repoInfo)]])%list.

(** The run so far after a clone that succeeded with output [o], and the
    change into the clone, of result [c]. *)
Definition cloned (o : string) (c : error) : Trace :=
  (cloning ++ EvGit ["clone"; cloneURL repoInfo] o None :: stdoutOf o
   ++ [EvChdir (RepoName repoInfo) c])%list.

(** Every way ResetRepo can be left, with what it returns and the whole run;
    [d] is the result of the deferred removal. *)
Inductive ExitPath : Result error -> Trace -> Prop :=
| RemoveFailed e :
    ExitPath (Val (Some ("failed to remove existing temporary directory: " ++ e)))
      [EvRemoveAll (tmpPath env) (Some e)]
| MkdirFailed e :
    ExitPath (Val (Some ("failed to create temporary directory: " ++ e)))
      [EvRemoveAll (tmpPath env) None; EvMkdirAll (tmpPath env) (Some e)]
| ChdirFailed e d :
    ExitPath (Val (Some ("failed to change to temporary directory: " ++ e)))
      (created ++ [EvChdir (tmpPath env) (Some e); EvRemoveAll (tmpPath env) d])%list
| CloneFailed o e d :
    ExitPath
      (Val (Some ("failed to clone repository: "
                  ++ CommandError_Error (commandError ["clone"; cloneURL repoInfo] o e))))
      (cloning ++ [EvGit ["clone"; cloneURL repoInfo] o (Some e);
                   EvRemoveAll (tmpPath env) d])%list
| RewriteFailed o c e ops d :
    runGitOperations env (gitOperations commitMessage) (cloned o c) = (Val (Some e), ops) ->
    ExitPath (Val (Some e)) (cloned o c ++ ops ++ [EvRemoveAll (tmpPath env) d])%list
| TagListFailed o c ops o' e d :
    runGitOperations env (gitOperations commitMessage) (cloned o c) = (Val None, ops) ->
    ExitPath
      (Val (Some ("failed to list tags: "
                  ++ CommandError_Error {| Command := "git tag"; Output := o'; Err := e |})))
      (cloned o c ++ ops
       ++ [EvGitOutput ["tag"] o' (Some e); EvRemoveAll (tmpPath env) d])%list
| TagsListed o c ops o' r after d :
    runGitOperations env (gitOperations commitMessage) (cloned o c) = (Val None, ops) ->
    afterTags env repoInfo (tagsOfOutput o')
      (cloned o c ++ ops ++ [EvGitOutput ["tag"] o' None])%list = (r, after) ->
    ExitPath r
      (cloned o c ++ ops ++ EvGitOutput ["tag"] o' None :: after
       ++ [EvRemoveAll (tmpPath env) d])%list.

End ExitPaths.

(** The git command of an event is one whose first word is in [hs]; events
    that are no [RunGitCommandWithOutput] pass. *)
Definition headIn (hs : list string) (e : Event) : bool :=
  match e with
  | EvGit a _ _ => existsb (String.eqb (hd "" a)) hs
  | _ => true
  end.

(** *** Release cleanup *)

(** The two provider variants of the cleanup. *)
Inductive Variant := ViaGitHub | ViaGitLab.

Definition deleteReleases (v : Variant) (env : Env) (repoInfo : RepoInfo) : M error :=
  match v with
  | ViaGitHub => DeleteGitHubReleases env repoInfo
  | ViaGitLab => DeleteGitLabReleases env repoInfo
  end.

(** A release as a delete call names it: by its identifier on GitHub, by its
    tag on GitLab. *)
Definition Key := (Z + string)%type.

Definition gitHubKey (release : RepositoryRelease) : Key :=
  inl (match ID release with Some id => id | None => 0%Z end).

Definition gitLabKey (release : Release) : Key := inr (GLTagName release).

(** The pointers the delete loop reads are not nil. *)
Definition wellFormed (release : RepositoryRelease) : Prop :=
  ID release <> None /\ Name release <> None.

(** The project path DeleteGitLabReleases builds, line 230. *)
Definition gitLabPath (repoInfo : RepoInfo) : string :=
  FullPath repoInfo ++ "/" ++ RepoName repoInfo.

(** The client is created without an error. *)
Definition gitLabClientReady (env : Env) (repoInfo : RepoInfo) (tr : Trace) : Prop :=
  gitlab_NewClient env tr (Token repoInfo) (GitLabURL repoInfo) = None.

(** The history once the client is there. *)
Definition withClient (repoInfo : RepoInfo) (tr : Trace) : Trace :=
  (tr ++ [EvGitLabClient (Token repoInfo) (GitLabURL repoInfo) None])%list.

(** The list-releases call of the cleanup started at history [tr] fails. *)
Definition listingFails (v : Variant) (env : Env) (repoInfo : RepoInfo) (tr : Trace) : Prop :=
  match v with
  | ViaGitHub =>
      exists e, github_ListReleases env tr (FullPath repoInfo) (RepoName repoInfo) = inr e
  | ViaGitLab =>
      gitLabClientReady env repoInfo tr
      /\ exists e, gitlab_ListReleases env (withClient repoInfo tr) (gitLabPath repoInfo) = inr e
  end.

(** The list-releases call of the cleanup started at history [tr] succeeds,
    with releases of the given keys. *)
Definition listingGives (v : Variant) (env : Env) (repoInfo : RepoInfo) (tr : Trace)
    (keys : list Key) : Prop :=
  match v with
  | ViaGitHub =>
      exists releases,
        github_ListReleases env tr (FullPath repoInfo) (RepoName repoInfo) = inl releases
        /\ keys = map gitHubKey releases
  | ViaGitLab =>
      gitLabClientReady env repoInfo tr
      /\ exists releases,
           gitlab_ListReleases env (withClient repoInfo tr) (gitLabPath repoInfo) = inl releases
           /\ keys = map gitLabKey releases
  end.

(** No release the provider lists lacks what the delete loop dereferences:
    on GitHub the identifier and the name of a release are pointers, on
    GitLab the fields are plain strings. *)
Definition nilFree (v : Variant) (env : Env) (repoInfo : RepoInfo) (tr : Trace) : Prop :=
  match v with
  | ViaGitHub =>
      forall releases,
        github_ListReleases env tr (FullPath repoInfo) (RepoName repoInfo) = inl releases ->
        Forall wellFormed releases
  | ViaGitLab => True
  end.

(** The delete calls of a run, in order. *)
Definition deleteAttempts (n : Trace) : list Key :=
  flat_map (fun e =>
    match e with
    | EvGitHubDelete _ _ id _ => [inl id]
    | EvGitLabDelete _ t _ => [inr t]
    | _ => []
    end) n.

(** The delete calls of a run that failed, in order. *)
Definition failedDeletes (n : Trace) : list Key :=
  flat_map (fun e =>
    match e with
    | EvGitHubDelete _ _ id (Some _) => [inl id]
    | EvGitLabDelete _ t (Some _) => [inr t]
    | _ => []
    end) n.

(** The releases a run warns it could not delete, in order. *)
Definition deleteWarnings (n : Trace) : list Key :=
  flat_map (fun e =>
    match e with
    | EvPrint warning f (AInt id :: _) =>
        if String.eqb f "Warning: Failed to delete release %d: %v" then [inl id] else []
    | EvPrint warning f (AStr t :: _) =>
        if (String.eqb f "Warning: Failed to delete release %s (status %d): %v"
            || String.eqb f "Warning: Failed to delete release %s: %v")%bool
        then [inr t] else []
    | _ => []
    end) n.

(** The run of a cleanup that found nothing to delete. *)
Definition nothingToDelete (v : Variant) (repoInfo : RepoInfo) : Trace :=
  match v with
  | ViaGitHub =>
      [EvGitHubList (FullPath repoInfo) (RepoName repoInfo) (inl []);
       EvPrint info "No releases found to delete" []]
  | ViaGitLab =>
      [EvGitLabClient (Token repoInfo) (GitLabURL repoInfo) None;
       EvGitLabList (gitLabPath repoInfo) (inl []);
       EvPrint info "No releases found to delete" []]
  end.

(** *** Remote tag cleanup *)

(** The remote reference of a tag, line 140. *)
Definition tagRef (tag : string) : string := "refs/tags/" ++ tag.

(** The references whose remote deletion a run attempts, in order. *)
Definition remoteTagDeletes (n : Trace) : list string :=
  flat_map (fun e =>
    match e with
    | EvGit [a; b; c; ref] _ _ => if isRemoteTagDelete [a; b; c; ref] then [ref] else []
    | _ => []
    end) n.

(** Those whose remote deletion failed. *)
Definition failedRemoteTagDeletes (n : Trace) : list string :=
  flat_map (fun e =>
    match e with
    | EvGit [a; b; c; ref] _ (Some _) =>
        if isRemoteTagDelete [a; b; c; ref] then [ref] else []
    | _ => []
    end) n.

(** The references of the tags a run warns it could not delete remotely. *)
Definition remoteTagWarnings (n : Trace) : list string :=
  flat_map (fun e =>
    match e with
    | EvPrint warning f (AStr t :: _) =>
        if String.eqb f "Warning: Failed to delete remote tag %s: %v" then [tagRef t] else []
    | _ => []
    end) n.

(** *** The dry run *)

(** A call that reaches the remote beyond the clone: a push (also one that
    deletes a tag) or a call of a provider's API. *)
Definition remoteCall (e : Event) : bool :=
  match e with
  | EvGit a _ _ => String.eqb (hd "" a) "push"
  | EvGitHubList _ _ _ | EvGitHubDelete _ _ _ _ | EvGitLabClient _ _ _
  | EvGitLabList _ _ | EvGitLabDelete _ _ _ => true
  | _ => false
  end.

(** What the dry-run checkpoint prints for the given tags, lines 130-133. *)
Definition dryRunReport (tags : list string) : Trace :=
  ((if (0 <? List.length tags)%nat
    then [EvPrint info "\nWould delete %d remote tags: %v\n"
            [AInt (Z.of_nat (List.length tags)); AStrs tags]]
    else [])
   ++ [EvPrint info "Would execute: git push -f origin main" []])%list.

(** *** The working directory *)

(** A directory of a Unix file system: the names on the way from the root
    to it. *)
Definition Dir := list string.

(** A path that starts at the root. *)
Definition isAbs (path : string) : bool := String.prefix "/" path.

(** One element of a path, taken from the directory [d]: an empty element
    and [.] stay, [..] goes to the parent (the root is its own parent), a
    name goes down.  Paths are followed by their text: the model has no
    symbolic links. *)
Definition enter (d : Dir) (name : string) : Dir :=
  if (String.eqb name "" || String.eqb name ".")%bool then d
  else if String.eqb name ".." then removelast d
  else (d ++ [name])%list.

(** The directory [path] names when the working directory is [cwd]: an
    absolute path is followed from the root, a relative one from [cwd].
    This is where [os.Chdir(path)] leads when it succeeds, and what
    [os.MkdirAll(path)] and [os.RemoveAll(path)] work on. *)
Definition chdirTo (cwd : Dir) (path : string) : Dir :=
  fold_left enter (Strings.Split path "/") (if isAbs path then [] else cwd).

(** The working directory after a run that started in [cwd0]: only the
    changes that succeeded count. *)
Definition cwdAfter (cwd0 : Dir) (tr : Trace) : Dir :=
  fold_left (fun cwd e =>
    match e with
    | EvChdir path None => chdirTo cwd path
    | _ => cwd
    end) tr cwd0.

(** The workspace of a run that started in [cwd0]: the directory the
    workspace path names at the start, where lines 61-71 remove, create and
    enter it. *)
Definition workspace (env : Env) (cwd0 : Dir) : Dir := chdirTo cwd0 (tmpPath env).

(** The directory [d] is [dir] or lies below it. *)
Fixpoint inside (dir d : Dir) : bool :=
  match dir, d with
  | [], _ => true
  | x :: dir', y :: d' => String.eqb x y && inside dir' d'
  | _ :: _, [] => false
  end.

(** The last thing the run did was a removal that succeeded, and the path
    it removed names the workspace from where the process stood then. *)
Definition removedAtExit (env : Env) (cwd0 : Dir) (tr : Trace) : bool :=
  match last tr EvUsage with
  | EvRemoveAll path None => listEqb (chdirTo (cwdAfter cwd0 tr) path) (workspace env cwd0)
  | _ => false
  end.

(** At the exit of the run the working directory points into the workspace,
    which has just been removed. *)
Definition danglingAtExit (env : Env) (cwd0 : Dir) (tr : Trace) : bool :=
  removedAtExit env cwd0 tr && inside (workspace env cwd0) (cwdAfter cwd0 tr).

(** *** The rewrite of the history *)

(** The git commands of a run, in order. *)
Definition gitCommands (n : Trace) : list (list string) :=
  flat_map (fun e =>
    match e with
    | EvGit a _ _ => [a]
    | _ => []
    end) n.

(** The test of line 104 on an operation: its failure is passed over. *)
Definition tolerated (op : gitOperation) : bool :=
  Strings.Contains (nth 0 (args op) "") "branch -D".

(** *** The commit message *)

(** How main goes on after the commit prompt ended with [res]. *)
Definition afterPrompt (res : TeaResult) (d : Decision) : Prop :=
  match res with
  | TeaErr _ => d = Exit 1
  | TeaCommit true v =>
      if String.eqb v "" then d = Exit 0 else exists repoInfo, d = Invoke repoInfo v
  | _ => d = Exit 0
  end.

(** An event that is no git command. *)
Definition noGit (e : Event) : bool :=
  match e with
  | EvGit _ _ _ => false
  | _ => true
  end.

(** *** The paths through the steps after the tag listing *)

(** [git push -f origin main]. *)
Definition forcePush : list string := ["push"; "-f"; "origin"; "main"].

(** Every way lines 116-161 can be left once the tags are known, with what
    ResetRepo then returns and the events of these lines. *)
Inductive AfterPath (env : Env) (repoInfo : RepoInfo) (tags : list string) (h : Trace)
  : Result error -> Trace -> Prop :=
| DryRunExit local :
    localTagCleanup env tags h = (Val tt, local) ->
    DryRun repoInfo = true ->
    AfterPath env repoInfo tags h (Val None) (local ++ dryRunReport tags)%list
| PushFailed local remote o e :
    localTagCleanup env tags h = (Val tt, local) ->
    DryRun repoInfo = false ->
    remoteTagCleanup env tags (h ++ local)%list = (Val tt, remote) ->
    AfterPath env repoInfo tags h
      (Val (Some ("failed to push changes: "
                  ++ CommandError_Error (commandError forcePush o e))))
      (local ++ remote ++ [EvGit forcePush o (Some e)])%list
| Pushed local remote o r releases :
    localTagCleanup env tags h = (Val tt, local) ->
    DryRun repoInfo = false ->
    remoteTagCleanup env tags (h ++ local)%list = (Val tt, remote) ->
    releaseCleanup env repoInfo
      (h ++ local ++ remote ++ EvGit forcePush o None :: stdoutOf o)%list = (r, releases) ->
    AfterPath env repoInfo tags h r
      (local ++ remote ++ EvGit forcePush o None :: stdoutOf o ++ releases)%list.

(** A call of a provider's API. *)
Definition apiCall (e : Event) : bool :=
  match e with
  | EvGitHubList _ _ _ | EvGitHubDelete _ _ _ _ | EvGitLabClient _ _ _
  | EvGitLabList _ _ | EvGitLabDelete _ _ _ => true
  | _ => false
  end.

(** The local tag deletions a run attempts, in order. *)
Definition localTagDeletes (n : Trace) : list string :=
  flat_map (fun e =>
    match e with
    | EvGit [a; b; tag] _ _ => if isLocalTagDelete [a; b; tag] then [tag] else []
    | _ => []
    end) n.

(** Those that failed. *)
Definition failedLocalTagDeletes (n : Trace) : list string :=
  flat_map (fun e =>
    match e with
    | EvGit [a; b; tag] _ (Some _) => if isLocalTagDelete [a; b; tag] then [tag] else []
    | _ => []
    end) n.

(** The tags a run warns it could not delete locally. *)
Definition localTagWarnings (n : Trace) : list string :=
  flat_map (fun e =>
    match e with
    | EvPrint warning f (AStr t :: _) =>
        if String.eqb f "Warning: Failed to delete local tag %s: %v" then [t] else []
    | _ => []
    end) n.

(** The commands that delete a tag locally and on the remote. *)
Definition localTagDelete (tag : string) : list string := ["tag"; "-d"; tag].

Definition remoteTagDelete (tag : string) : list string :=
  ["push"; "origin"; "--delete"; tagRef tag].

(** An event of the steps before the tag listing: the preparation of the
    workspace, the clone and the rewrite of the history. *)
Definition beforeListing (e : Event) : bool :=
  match e with
  | EvRemoveAll _ _ | EvMkdirAll _ _ | EvChdir _ _ | EvStdout _ | EvPrint _ _ _ => true
  | EvGit a _ _ =>
      existsb (String.eqb (hd "" a)) ["clone"; "checkout"; "add"; "commit"; "branch"]
  | _ => false
  end.

(** An event that is no call of a provider's API. *)
Definition noApi (e : Event) : bool := negb (apiCall e).

(** An event that is not the force push. *)
Definition notForcePush (e : Event) : bool :=
  match e with
  | EvGit a _ _ => negb (isForcePush a)
  | _ => true
  end.

(** An event that calls a provider's API calls the API of the target's
    provider, with what the target says: the owner and the repository on
    GitHub; on GitLab the token and the base URL for the client, and the
    project path for the releases. *)
Definition targeted (repoInfo : RepoInfo) (e : Event) : bool :=
  match e with
  | EvGitHubList o r _ | EvGitHubDelete o r _ _ =>
      (Provider repoInfo =? GitHub)%Z
      && String.eqb o (FullPath repoInfo) && String.eqb r (RepoName repoInfo)
  | EvGitLabClient t u _ =>
      (Provider repoInfo =? GitLab)%Z
      && String.eqb t (Token repoInfo) && String.eqb u (GitLabURL repoInfo)
  | EvGitLabList f _ | EvGitLabDelete f _ _ =>
      (Provider repoInfo =? GitLab)%Z && String.eqb f (gitLabPath repoInfo)
  | _ => true
  end.

(** An event that touches the file system touches the workspace, or changes
    into the clone. *)
Definition inWorkspaceOnly (env : Env) (repoInfo : RepoInfo) (e : Event) : bool :=
  match e with
  | EvRemoveAll path _ | EvMkdirAll path _ => String.eqb path (tmpPath env)
  | EvChdir path _ => String.eqb path (tmpPath env) || String.eqb path (RepoName repoInfo)
  | EvUsage | EvTea _ _ => false
  | _ => true
  end.

(** An event that deletes no release. *)
Definition noDelete (e : Event) : bool :=
  match e with
  | EvGitHubDelete _ _ _ _ | EvGitLabDelete _ _ _ => false
  | _ => true
  end.

(** The line of the dry run for a release GitHub listed, lines 205-208. *)
Definition gitHubReportLine (release : RepositoryRelease) : list Event :=
  match ID release, Name release, TagName release with
  | Some id, Some name, Some tag =>
      [EvPrint info "- Release %d: %s (tag: %s)\n" [AInt id; AStr name; AStr tag]]
  | _, _, _ => []
  end.

(** The line of the dry run for a release GitLab listed, lines 249-251. *)
Definition gitLabReportLine (release : Release) : Event :=
  EvPrint info "- Release: %s (tag: %s)\n" [AStr (GLName release); AStr (GLTagName release)].

(** The three pointers the dry run reads are not nil. *)
Definition complete (release : RepositoryRelease) : Prop :=
  ID release <> None /\ Name release <> None /\ TagName release <> None.

(** An event that is no failed creation of the GitLab client. *)
Definition noClientFailure (e : Event) : bool :=
  match e with
  | EvGitLabClient _ _ (Some _) => false
  | _ => true
  end.

(** An event that starts no prompt. *)
Definition noPrompt (e : Event) : bool :=
  match e with
  | EvTea _ _ => false
  | _ => true
  end.

(** An event that does not reach the remote beyond the clone. *)
Definition noRemoteCall (e : Event) : bool := negb (remoteCall e).

(** *** The output of [git tag] *)

(** A printable ASCII byte that is no space. *)
Definition plainByte (c : ascii) : bool :=
  let n := nat_of_ascii c in ((33 <=? n) && (n <=? 126))%nat.

Fixpoint plain (s : string) : bool :=
  match s with
  | EmptyString => true
  | String c s' => plainByte c && plain s'
  end.

(** A tag name made of such bytes, and not empty. *)
Definition plainTag (t : string) : bool := negb (String.eqb t "") && plain t.

(** A byte of ASCII. *)
Definition asciiByte (c : ascii) : bool := (nat_of_ascii c <? 128)%nat.

Fixpoint ascii7 (s : string) : bool :=
  match s with
  | EmptyString => true
  | String c s' => asciiByte c && ascii7 s'
  end.

(** The string ends with a plain byte. *)
Definition endsPlain (s : string) : Prop :=
  exists a c, s = a ++ String c "" /\ plainByte c = true.

(** *** More environments *)

Module Faults.

(** The same environment with another answer of [git tag]. *)
Definition withTagListing (answer : string * error) (w : Env) : Env :=
  {| tmpPath := tmpPath w;
     fs_RemoveAll := fs_RemoveAll w;
     fs_MkdirAll := fs_MkdirAll w;
     fs_Chdir := fs_Chdir w;
     git_CombinedOutput := git_CombinedOutput w;
     git_Output := fun _ _ => answer;
     tea_Run := tea_Run w;
     github_ListReleases := github_ListReleases w;
     github_DeleteRelease := github_DeleteRelease w;
     gitlab_NewClient := gitlab_NewClient w;
     gitlab_ListReleases := gitlab_ListReleases w;
     gitlab_DeleteRelease := gitlab_DeleteRelease w |}.

(** The clone is damaged: the tags can not be listed. *)
Definition tagListingFails : Env :=
  withTagListing ("", Some "exit status 128") Scenario.twoTags.

(** One tag and one release; the remote rejects the force push. *)
Definition pushRejected : Env :=
  Scenario.world ["v1.0.0"] (Scenario.isCommand forcePush)
    (inl [Scenario.release 1%Z "v1.0.0"]) Scenario.never (inl []) Scenario.never.


(** A release without a title: GitHub lists it with a nil name. *)
Definition untitledRelease : Env :=
  Scenario.world [] Scenario.never
    (inl [ {| ID := Some 7%Z; Name := None; TagName := Some "v0.1.0" |} ]) Scenario.never
    (inl []) Scenario.never.

(** Two tags; the first can be deleted neither locally nor on the remote. *)
Definition firstTagStays : Env :=
  Scenario.world ["v1"; "v2"]
    (fun a => Scenario.isCommand ["tag"; "-d"; "v1"] a
              || Scenario.isCommand ["push"; "origin"; "--delete"; "refs/tags/v1"] a)
    (inl []) Scenario.never (inl []) Scenario.never.

(** The GitLab instance refuses the token. *)
Definition withGitLabClient (answer : error) (w : Env) : Env :=
  {| tmpPath := tmpPath w;
     fs_RemoveAll := fs_RemoveAll w;
     fs_MkdirAll := fs_MkdirAll w;
     fs_Chdir := fs_Chdir w;
     git_CombinedOutput := git_CombinedOutput w;
     git_Output := git_Output w;
     tea_Run := tea_Run w;
     github_ListReleases := github_ListReleases w;
     github_DeleteRelease := github_DeleteRelease w;
     gitlab_NewClient := fun _ _ _ => answer;
     gitlab_ListReleases := gitlab_ListReleases w;
     gitlab_DeleteRelease := gitlab_DeleteRelease w |}.

Definition noGitLabClient : Env :=
  withGitLabClient (Some "parse https://gitlab example: invalid character in host name")
    Scenario.twoTags.

(** Three releases on GitHub; the first can not be deleted, the second was
    published without a title, so GitHub lists it with a nil name. *)
Definition untitledSecond : Env :=
  Scenario.world [] Scenario.never
    (inl [ Scenario.release 1%Z "v1";
           {| ID := Some 2%Z; Name := None; TagName := Some "v2" |};
           Scenario.release 3%Z "v3" ]) (Z.eqb 1)
    (inl []) Scenario.never.

(** The first of two releases has lost its identifier. *)
Definition noIdentifier : Env :=
  Scenario.world [] Scenario.never
    (inl [ {| ID := None; Name := Some "first"; TagName := Some "v1" |};
           Scenario.release 2%Z "v2" ]) Scenario.never
    (inl []) Scenario.never.

(** The same environment with a file system in which the change into the
    directory [dir] fails, and with a clone that prints its progress. *)
Definition withoutDirectory (dir : string) (w : Env) : Env :=
  {| tmpPath := tmpPath w;
     fs_RemoveAll := fs_RemoveAll w;
     fs_MkdirAll := fs_MkdirAll w;
     fs_Chdir := fun _ path =>
       if String.eqb path dir then Some "no such file or directory" else None;
     git_CombinedOutput := fun h a =>
       if String.eqb (hd "" a) "clone" then ("Cloning into 'repo'...", None)
       else git_CombinedOutput w h a;
     git_Output := git_Output w;
     tea_Run := tea_Run w;
     github_ListReleases := github_ListReleases w;
     github_DeleteRelease := github_DeleteRelease w;
     gitlab_NewClient := gitlab_NewClient w;
     gitlab_ListReleases := gitlab_ListReleases w;
     gitlab_DeleteRelease := gitlab_DeleteRelease w |}.

(** The clone did not create the directory the program expects. *)
Definition noCloneDirectory : Env := withoutDirectory "repo" Scenario.bare.

(** The temporary directory can not be entered. *)
Definition noWorkspace : Env := withoutDirectory "/tmp/git-tmp" Scenario.bare.

End Faults.

(** ** The models of the prompts

    [CommitModel] and [ConfirmModel] of the UI file, with their [Update]
    methods.  The text input of the bubbles library is a parameter: its
    state, the value it holds and its own [Update]. *)

Module UI.

(** [tea.KeyMsg], as far as the models look at it: [msg.Type] and
    [msg.String()]. *)
Inductive KeyType := KeyEnter | KeyCtrlC | KeyEsc | KeyOther.

Record KeyMsg := { keyType : KeyType; keyString : string }.

(** [tea.Msg]: a key, an error, or anything else. *)
Inductive Msg :=
| Key (k : KeyMsg)
| Failure (e : string)
| Other.

(** [tea.Cmd]: nil, [tea.Quit], or a command of the text input. *)
Inductive Cmd (InputCmd : Type) :=
| NoCmd
| Quit
| FromInput (c : InputCmd).
Arguments NoCmd {InputCmd}.
Arguments Quit {InputCmd}.
Arguments FromInput {InputCmd} c.

(** The model after the messages [msgs], in the order of their arrival. *)
Definition after {Model C} (update : Model -> Msg -> Model * C) (m : Model)
    (msgs : list Msg) : Model :=
  fold_left (fun m msg => fst (update m msg)) msgs m.

Module Commit.

Section Model.

(** [textinput.Model], [Value] and [Update] of the bubbles library. *)
Variable textinput_Model : Type.
Variable Value : textinput_Model -> string.
Variable InputCmd : Type.
Variable textinput_Update : textinput_Model -> Msg -> textinput_Model * InputCmd.

Record CommitModel := {
  TextInput : textinput_Model;
  Err : error;
  Done : bool
}.

(** Lines 105-106. *)
Definition forward (m : CommitModel) (msg : Msg) : CommitModel * Cmd InputCmd :=
  let (ti, cmd) := textinput_Update (TextInput m) msg in
  ({| TextInput := ti; Err := Err m; Done := Done m |}, FromInput cmd).

(** [func (m CommitModel) Update(msg tea.Msg) (tea.Model, tea.Cmd)]. *)
Definition Update (m : CommitModel) (msg : Msg) : CommitModel * Cmd InputCmd :=
  match msg with
  | Key k =>
      match keyType k with
      | KeyEnter =>
          if negb (String.eqb (Value (TextInput m)) "")
          then ({| TextInput := TextInput m; Err := Err m; Done := true |}, Quit)
          else forward m msg
      | KeyCtrlC | KeyEsc => (m, Quit)
      | KeyOther => forward m msg
      end
  | Failure e => ({| TextInput := TextInput m; Err := Some e; Done := Done m |}, NoCmd)
  | Other => forward m msg
  end.

End Model.

End Commit.

Module Confirm.

Record ConfirmModel := {
  Question : string;
  Done : bool;
  Answer : bool
}.

(** [func (m ConfirmModel) Update(msg tea.Msg) (tea.Model, tea.Cmd)]. *)
Definition Update (m : ConfirmModel) (msg : Msg) : ConfirmModel * Cmd Empty_set :=
  match msg with
  | Key k =>
      let s := keyString k in
      if (String.eqb s "y" || String.eqb s "Y")%bool
      then ({| Question := Question m; Done := true; Answer := true |}, Quit)
      else if (String.eqb s "n" || String.eqb s "N" || String.eqb s "q" || String.eqb s "Q"
               || String.eqb s "esc" || String.eqb s "ctrl+c")%bool
      then ({| Question := Question m; Done := true; Answer := false |}, Quit)
      else (m, NoCmd)
  | _ => (m, NoCmd)
  end.

(** The model PromptConfirmation starts with, lines 189-191. *)
Definition initial (question : string) : ConfirmModel :=
  {| Question := question; Done := false; Answer := false |}.

(** A key that answers yes. *)
Definition yes (msg : Msg) : bool :=
  match msg with
  | Key k => String.eqb (keyString k) "y" || String.eqb (keyString k) "Y"
  | _ => false
  end.

End Confirm.

(** A text input that holds what was typed, for the examples. *)
Module Typing.

Definition Value (s : string) : string := s.

Definition Update (s : string) (msg : Msg) : string * unit :=
  match msg with
  | Key k =>
      match keyType k with
      | KeyOther => (s ++ keyString k, tt)
      | _ => (s, tt)
      end
  | _ => (s, tt)
  end.

Definition start : Commit.CommitModel string :=
  {| Commit.TextInput := ""; Commit.Err := None; Commit.Done := false |}.

Definition typed (s : string) : Msg := Key {| keyType := KeyOther; keyString := s |}.

Definition enter : Msg := Key {| keyType := KeyEnter; keyString := "enter" |}.

(** Enter on the empty input, then a message, then Enter again. *)
Definition fixEnter : list Msg := [enter; typed "f"; typed "i"; typed "x"; enter].

End Typing.

End UI.

(** ** Reasoning about runs *)

Lemma returns_emits {A} p (m : M A) : returns p m -> emits p m.
Proof.
  intros H tr. destruct (H tr) as (a & n & E & Hn). now rewrite E.
Qed.

Lemma forallb_impl {A} (p q : A -> bool) l :
  (forall x, p x = true -> q x = true) -> forallb p l = true -> forallb q l = true.
Proof.
  intros H. rewrite !forallb_forall. auto.
Qed.

Lemma emits_weaken {A} (p q : Event -> bool) (m : M A) :
  (forall e, p e = true -> q e = true) -> emits p m -> emits q m.
Proof.
  intros H Hm tr. eapply forallb_impl; [exact H | apply Hm].
Qed.

Lemma forallb_app_true {A} (p : A -> bool) l1 l2 :
  forallb p l1 = true -> forallb p l2 = true -> forallb p (l1 ++ l2)%list = true.
Proof.
  intros H1 H2. rewrite forallb_app, H1, H2. reflexivity.
Qed.

Lemma forallb_In_false {A} (p : A -> bool) l x :
  forallb p l = true -> p x = false -> ~ In x l.
Proof.
  intros H Hx Hin. rewrite forallb_forall in H. specialize (H x Hin). congruence.
Qed.

Section Combinators.

Variable p : Event -> bool.

Lemma emits_ret {A} (a : A) : emits p (ret a).
Proof. intros tr. reflexivity. Qed.

Lemma emits_panic {A} msg : emits p (@panic A msg).
Proof. intros tr. reflexivity. Qed.

Lemma emits_emit e : p e = true -> emits p (emit e).
Proof. intros H tr. simpl. now rewrite H. Qed.

Lemma emits_bind {A B} (m : M A) (f : A -> M B) :
  emits p m -> (forall a, emits p (f a)) -> emits p (bind m f).
Proof.
  intros Hm Hf tr. unfold bind. specialize (Hm tr).
  destruct (m tr) as [[a | msg] n1]; simpl in *; auto.
  specialize (Hf a (tr ++ n1)%list). destruct (f a (tr ++ n1)%list) as [r n2].
  simpl in *. now apply forallb_app_true.
Qed.

Lemma emits_defer {A B} (d : M B) (body : M A) :
  emits p d -> emits p body -> emits p (defer d body).
Proof.
  intros Hd Hb tr. unfold defer. specialize (Hb tr).
  destruct (body tr) as [r n1]. specialize (Hd (tr ++ n1)%list).
  destruct (d (tr ++ n1)%list) as [r2 n2]. simpl in *. now apply forallb_app_true.
Qed.

Lemma emits_forEach {A} (l : list A) (body : A -> M unit) :
  (forall x, emits p (body x)) -> emits p (forEach l body).
Proof.
  intros Hb. induction l as [| x l IH]; simpl.
  - apply emits_ret.
  - apply emits_bind; auto.
Qed.

Lemma returns_ret {A} (a : A) : returns p (ret a).
Proof. intros tr. exists a, []. split; reflexivity. Qed.

Lemma returns_emit e : p e = true -> returns p (emit e).
Proof. intros H tr. exists tt, [e]. split; [reflexivity | simpl; now rewrite H]. Qed.

Lemma returns_bind {A B} (m : M A) (f : A -> M B) :
  returns p m -> (forall a, returns p (f a)) -> returns p (bind m f).
Proof.
  intros Hm Hf tr. unfold bind.
  destruct (Hm tr) as (a & n1 & E1 & H1). rewrite E1.
  destruct (Hf a (tr ++ n1)%list) as (b & n2 & E2 & H2). rewrite E2.
  exists b, (n1 ++ n2)%list. split; [reflexivity | now apply forallb_app_true].
Qed.

Lemma returns_forEach {A} (l : list A) (body : A -> M unit) :
  (forall x, returns p (body x)) -> returns p (forEach l body).
Proof.
  intros Hb. induction l as [| x l IH]; simpl.
  - apply returns_ret.
  - apply returns_bind; auto.
Qed.

End Combinators.

(** What a [bind] does once its first part is known. *)
Lemma bind_Val {A B} (m : M A) (f : A -> M B) tr a n1 :
  m tr = (Val a, n1) ->
  bind m f tr = (fst (f a (tr ++ n1)%list), (n1 ++ snd (f a (tr ++ n1)%list))%list).
Proof.
  intros E. unfold bind. rewrite E. now destruct (f a (tr ++ n1)%list).
Qed.

Lemma bind_Panic {A B} (m : M A) (f : A -> M B) tr msg n1 :
  m tr = (Panic msg, n1) -> bind m f tr = (Panic msg, n1).
Proof.
  intros E. unfold bind. now rewrite E.
Qed.

Section Calls.

Variable env : Env.
Variable p : Event -> bool.

Local Ltac call :=
  let H := fresh in let tr := fresh in
  intros H tr; eexists _, _; split; [reflexivity | simpl; rewrite H; reflexivity].

Lemma returns_os_RemoveAll path :
  (forall r, p (EvRemoveAll path r) = true) -> returns p (os_RemoveAll env path).
Proof. call. Qed.

Lemma returns_os_MkdirAll path :
  (forall r, p (EvMkdirAll path r) = true) -> returns p (os_MkdirAll env path).
Proof. call. Qed.

Lemma returns_os_Chdir path :
  (forall r, p (EvChdir path r) = true) -> returns p (os_Chdir env path).
Proof. call. Qed.

Lemma returns_exec_CombinedOutput args :
  (forall o r, p (EvGit args o r) = true) -> returns p (exec_CombinedOutput env args).
Proof. call. Qed.

Lemma returns_exec_Output args :
  (forall o r, p (EvGitOutput args o r) = true) -> returns p (exec_Output env args).
Proof. call. Qed.

Lemma returns_Run model :
  (forall r, p (EvTea model r) = true) -> returns p (Run env model).
Proof. call. Qed.

Lemma returns_Repositories_ListReleases owner repo :
  (forall r, p (EvGitHubList owner repo r) = true) ->
  returns p (Repositories_ListReleases env owner repo).
Proof. call. Qed.

Lemma returns_Repositories_DeleteRelease owner repo id :
  (forall r, p (EvGitHubDelete owner repo id r) = true) ->
  returns p (Repositories_DeleteRelease env owner repo id).
Proof. call. Qed.

Lemma returns_newGitLabClient token baseURL :
  (forall r, p (EvGitLabClient token baseURL r) = true) ->
  returns p (newGitLabClient env token baseURL).
Proof. call. Qed.

Lemma returns_Releases_ListReleases fullPath :
  (forall r, p (EvGitLabList fullPath r) = true) ->
  returns p (Releases_ListReleases env fullPath).
Proof. call. Qed.

Lemma returns_Releases_DeleteRelease fullPath tagName :
  (forall r, p (EvGitLabDelete fullPath tagName r) = true) ->
  returns p (Releases_DeleteRelease env fullPath tagName).
Proof. call. Qed.

End Calls.

(** One step of a structural proof of [returns] or [emits]; the side
    conditions on single events are left to the caller. *)
Ltac run_step :=
  match goal with
  | |- returns _ (ret _) => apply returns_ret
  | |- emits _ (ret _) => apply emits_ret
  | |- emits _ (panic _) => apply emits_panic
  | |- returns _ (emit _) => apply returns_emit
  | |- emits _ (emit _) => apply emits_emit
  | |- returns _ (println _ _ _) => apply returns_emit
  | |- emits _ (println _ _ _) => apply emits_emit
  | |- returns _ (bind _ _) => apply returns_bind; [| intros ?]
  | |- emits _ (bind _ _) => apply emits_bind; [| intros ?]
  | |- emits _ (defer _ _) => apply emits_defer
  | |- returns _ (forEach _ _) => apply returns_forEach; intros ?
  | |- emits _ (forEach _ _) => apply emits_forEach; intros ?
  | |- returns _ (os_RemoveAll _ _) => apply returns_os_RemoveAll
  | |- returns _ (os_MkdirAll _ _) => apply returns_os_MkdirAll
  | |- returns _ (os_Chdir _ _) => apply returns_os_Chdir
  | |- returns _ (exec_CombinedOutput _ _) => apply returns_exec_CombinedOutput
  | |- returns _ (exec_Output _ _) => apply returns_exec_Output
  | |- returns _ (Run _ _) => apply returns_Run
  | |- returns _ (Repositories_ListReleases _ _ _) => apply returns_Repositories_ListReleases
  | |- returns _ (Repositories_DeleteRelease _ _ _ _) =>
      apply returns_Repositories_DeleteRelease
  | |- returns _ (newGitLabClient _ _ _) => apply returns_newGitLabClient
  | |- returns _ (Releases_ListReleases _ _) => apply returns_Releases_ListReleases
  | |- returns _ (Releases_DeleteRelease _ _ _) => apply returns_Releases_DeleteRelease
  | |- emits _ (os_RemoveAll _ _) => apply returns_emits
  | |- emits _ (os_MkdirAll _ _) => apply returns_emits
  | |- emits _ (os_Chdir _ _) => apply returns_emits
  | |- emits _ (exec_CombinedOutput _ _) => apply returns_emits
  | |- emits _ (exec_Output _ _) => apply returns_emits
  | |- emits _ (Run _ _) => apply returns_emits
  | |- emits _ (Repositories_ListReleases _ _ _) => apply returns_emits
  | |- emits _ (Repositories_DeleteRelease _ _ _ _) => apply returns_emits
  | |- emits _ (newGitLabClient _ _ _) => apply returns_emits
  | |- emits _ (Releases_ListReleases _ _) => apply returns_emits
  | |- emits _ (Releases_DeleteRelease _ _ _) => apply returns_emits
  | |- returns _ (match ?x with _ => _ end) => destruct x
  | |- emits _ (match ?x with _ => _ end) => destruct x
  | |- emits _ (deref ?x) => destruct x; simpl
  end.

Ltac run_steps := repeat run_step.

(** ** What the blocks of the program can add to a run *)

Section Blocks.

Variable env : Env.
Variable p : Event -> bool.

Hypothesis p_print : forall st f a, p (EvPrint st f a) = true.
Hypothesis p_stdout : forall s, p (EvStdout s) = true.

Lemma returns_RunGitCommandWithOutput args :
  (forall o r, p (EvGit args o r) = true) ->
  returns p (RunGitCommandWithOutput env args).
Proof.
  intros H. unfold RunGitCommandWithOutput. run_steps; auto.
Qed.

Lemma returns_GetGitTags :
  (forall o r, p (EvGitOutput ["tag"] o r) = true) -> returns p (GetGitTags env).
Proof.
  intros H. unfold GetGitTags. run_steps; auto.
Qed.

Lemma returns_runGitOperations ops :
  (forall op o r, In op ops -> p (EvGit (args op) o r) = true) ->
  returns p (runGitOperations env ops).
Proof.
  induction ops as [| op rest IH]; intros H; simpl.
  - apply returns_ret.
  - assert (returns p (runGitOperations env rest)) by (apply IH; intros; apply H; now right).
    run_steps; auto.
    apply returns_RunGitCommandWithOutput. intros; apply H; now left.
Qed.

Lemma returns_localTagCleanup tags :
  (forall t o r, p (EvGit ["tag"; "-d"; t] o r) = true) ->
  returns p (localTagCleanup env tags).
Proof.
  intros H. unfold localTagCleanup. run_steps; auto.
  apply returns_RunGitCommandWithOutput. auto.
Qed.

Lemma returns_dryRunCheckpoint tags : returns p (dryRunCheckpoint tags).
Proof.
  unfold dryRunCheckpoint. run_steps; auto.
Qed.

Lemma returns_remoteTagCleanup tags :
  (forall t o r, p (EvGit ["push"; "origin"; "--delete"; "refs/tags/" ++ t] o r) = true) ->
  returns p (remoteTagCleanup env tags).
Proof.
  intros H. unfold remoteTagCleanup. run_steps; auto.
  apply returns_RunGitCommandWithOutput. auto.
Qed.

Lemma emits_DeleteGitHubReleases repoInfo :
  (forall res, p (EvGitHubList (FullPath repoInfo) (RepoName repoInfo) res) = true) ->
  (forall id res,
      p (EvGitHubDelete (FullPath repoInfo) (RepoName repoInfo) id res) = true) ->
  emits p (DeleteGitHubReleases env repoInfo).
Proof.
  intros H1 H2. unfold DeleteGitHubReleases. run_steps; auto.
Qed.

Lemma returns_DeleteGitLabReleases repoInfo :
  (forall res, p (EvGitLabClient (Token repoInfo) (GitLabURL repoInfo) res) = true) ->
  (forall res,
      p (EvGitLabList (FullPath repoInfo ++ "/" ++ RepoName repoInfo) res) = true) ->
  (forall t res,
      p (EvGitLabDelete (FullPath repoInfo ++ "/" ++ RepoName repoInfo) t res) = true) ->
  returns p (DeleteGitLabReleases env repoInfo).
Proof.
  intros H1 H2 H3. unfold DeleteGitLabReleases. run_steps; auto.
Qed.

End Blocks.

(** ** The events a run of ResetRepo is made of *)

Lemma listEqb_eq a b : listEqb a b = true <-> a = b.
Proof.
  revert b. induction a as [| x a IH]; destruct b as [| y b]; simpl; split;
    try congruence; try reflexivity.
  - intros H. apply andb_true_iff in H. destruct H as [H1 H2].
    apply String.eqb_eq in H1. apply IH in H2. congruence.
  - intros H. injection H as -> ->. rewrite String.eqb_refl. now apply IH.
Qed.

Lemma listEqb_refl a : listEqb a a = true.
Proof. now apply listEqb_eq. Qed.

Section AlphabetFacts.

Variable env : Env.
Variable repoInfo : RepoInfo.
Variable commitMessage : string.

Lemma rewriteEvent_allowed e :
  rewriteEvent commitMessage e = true -> allowed env repoInfo commitMessage e = true.
Proof.
  destruct e; try discriminate; try reflexivity.
  unfold rewriteEvent, allowed, gitAllowed. intros H. rewrite H.
  now rewrite orb_true_r.
Qed.

Lemma tagEvent_allowed e :
  tagEvent env repoInfo commitMessage e = true ->
  allowed env repoInfo commitMessage e = true.
Proof.
  destruct e; try discriminate; try reflexivity; try (intros H; exact H).
  unfold tagEvent, allowed, gitAllowed. intros H.
  apply orb_true_iff in H. destruct H as [H | H]; rewrite H; now rewrite !orb_true_r.
Qed.

Lemma tagEvent_afterTags tags :
  emits (tagEvent env repoInfo commitMessage) (afterTags env repoInfo tags).
Proof.
  unfold afterTags. apply emits_bind.
  { apply returns_emits, returns_localTagCleanup; reflexivity. }
  intros _. destruct (DryRun repoInfo) eqn:Hdry.
  { apply returns_emits, returns_dryRunCheckpoint. reflexivity. }
  apply emits_bind.
  { apply returns_emits, returns_remoteTagCleanup; try reflexivity.
    intros. simpl. rewrite Hdry. reflexivity. }
  intros _. apply emits_bind.
  { apply returns_emits, returns_RunGitCommandWithOutput; try reflexivity.
    intros. simpl. rewrite Hdry. reflexivity. }
  intros err. destruct err; [apply emits_ret |].
  unfold releaseCleanup.
  destruct (Provider repoInfo =? GitHub)%Z eqn:Hgh.
  { apply emits_DeleteGitHubReleases; try reflexivity;
      intros; simpl; rewrite Hdry, Hgh, !String.eqb_refl; reflexivity. }
  destruct (Provider repoInfo =? GitLab)%Z eqn:Hgl; [| apply emits_ret].
  apply returns_emits, returns_DeleteGitLabReleases; try reflexivity;
    intros; simpl; rewrite Hdry, Hgl, ?String.eqb_refl; reflexivity.
Qed.

Lemma rewriteEvent_runGitOperations :
  returns (rewriteEvent commitMessage) (runGitOperations env (gitOperations commitMessage)).
Proof.
  apply returns_runGitOperations; try reflexivity.
  intros op o r Hin. unfold rewriteEvent. apply existsb_exists. exists op.
  split; [assumption | apply listEqb_refl].
Qed.

End AlphabetFacts.

Lemma allowed_inWorkspace env repoInfo commitMessage :
  emits (allowed env repoInfo commitMessage) (inWorkspace env repoInfo commitMessage).
Proof.
  unfold inWorkspace. apply emits_bind.
  { apply returns_emits, returns_os_Chdir. intros. simpl. now rewrite String.eqb_refl. }
  intros [e |]; [apply emits_ret |].
  apply emits_bind; [now apply emits_emit |]. intros _.
  apply emits_bind.
  { apply returns_emits, returns_RunGitCommandWithOutput; try reflexivity.
    intros. simpl. unfold gitAllowed. simpl. now rewrite !String.eqb_refl. }
  intros [e |]; [apply emits_ret |].
  apply emits_bind.
  { apply returns_emits, returns_os_Chdir. intros. simpl.
    now rewrite String.eqb_refl, orb_true_r. }
  intros _. apply emits_bind.
  { eapply emits_weaken; [apply rewriteEvent_allowed |].
    apply returns_emits, rewriteEvent_runGitOperations. }
  intros [e |]; [apply emits_ret |].
  apply emits_bind.
  { apply returns_emits, returns_GetGitTags; reflexivity. }
  intros [tags [e |]]; [apply emits_ret |].
  eapply emits_weaken; [apply tagEvent_allowed | apply tagEvent_afterTags].
Qed.

(** Every event of every run of ResetRepo is an allowed one. *)
Lemma allowed_ResetRepo env repoInfo commitMessage :
  emits (allowed env repoInfo commitMessage) (ResetRepo env repoInfo commitMessage).
Proof.
  assert (Hrm : emits (allowed env repoInfo commitMessage) (os_RemoveAll env (tmpPath env))).
  { apply returns_emits, returns_os_RemoveAll. intros. simpl. apply String.eqb_refl. }
  unfold ResetRepo. apply emits_bind; [exact Hrm |].
  intros [e |]; [apply emits_ret |].
  apply emits_bind.
  { apply returns_emits, returns_os_MkdirAll. intros. simpl. apply String.eqb_refl. }
  intros [e |]; [apply emits_ret |].
  apply emits_defer; [exact Hrm | apply allowed_inWorkspace].
Qed.

Lemma allowed_In env repoInfo commitMessage tr e :
  In e (snd (ResetRepo env repoInfo commitMessage tr)) ->
  allowed env repoInfo commitMessage e = true.
Proof.
  intros H. pose proof (allowed_ResetRepo env repoInfo commitMessage tr) as Ha.
  rewrite forallb_forall in Ha. now apply Ha.
Qed.

(** ** The clone URL *)

(** C4. For every valid target the clone URL ResetRepo builds is the one the
    specification gives for the target's provider, and every [git clone] a run
    of ResetRepo issues has that URL as its only argument. *)
Theorem clone_url_deterministic env repoInfo commitMessage :
  validTarget repoInfo ->
  cloneURL repoInfo = specCloneURL repoInfo
  /\ forall rest output res,
       In (EvGit ("clone" :: rest) output res) (snd (ResetRepo env repoInfo commitMessage [])) ->
       rest = [specCloneURL repoInfo].
Proof.
  intros [Hp _].
  assert (E : cloneURL repoInfo = specCloneURL repoInfo).
  { unfold cloneURL, specCloneURL.
    destruct Hp as [Hp | Hp]; rewrite Hp; reflexivity. }
  split; [exact E |].
  intros rest output res Hin. rewrite <- E.
  apply allowed_In in Hin. simpl in Hin. unfold gitAllowed in Hin. simpl in Hin.
  rewrite !orb_false_r in Hin.
  destruct (listEqb rest [cloneURL repoInfo]) eqn:Hr.
  - now apply listEqb_eq in Hr.
  - simpl in Hin. destruct rest as [| x [| y [| z [| w rest]]]]; simpl in Hin;
      try discriminate; destruct (DryRun repoInfo); discriminate.
Qed.

(** The scenario of the specification: a self-hosted GitLab, a group path
    with two segments. *)
Lemma clone_url_deterministic_witness :
  cloneURL (Scenario.gitlab false) = "https://gitlab.example.com/team/sub/proj.git"
  /\ cloneURL (Scenario.github false) = "https://github.com/owner/repo.git".
Proof.
  pose (w := Scenario.world [] Scenario.never (inl []) Scenario.never (inl []) Scenario.never).
  split.
  - refine (eq_trans (proj1 (@clone_url_deterministic w (Scenario.gitlab false) "init" _)) _).
    + repeat split; [right; reflexivity | discriminate | discriminate].
    + reflexivity.
  - refine (eq_trans (proj1 (@clone_url_deterministic w (Scenario.github false) "init" _)) _).
    + repeat split; [left; reflexivity | discriminate | discriminate].
    + reflexivity.
Defined.

(** Reading a finished [bind] backwards. *)
Lemma bind_inv {A B} (m : M A) (f : A -> M B) tr r n :
  bind m f tr = (r, n) ->
  (exists a n1 n2, m tr = (Val a, n1) /\ f a (tr ++ n1)%list = (r, n2) /\ n = (n1 ++ n2)%list)
  \/ (exists msg, m tr = (Panic msg, n) /\ r = Panic msg).
Proof.
  unfold bind. destruct (m tr) as [[a | msg] n1].
  - destruct (f a (tr ++ n1)%list) as [r' n2] eqn:E. intros H. injection H as <- <-.
    left. now exists a, n1, n2.
  - intros H. injection H as <- <-. right. now exists msg.
Qed.

Lemma returns_not_Panic {A} p (m : M A) tr msg n :
  returns p m -> m tr <> (Panic msg, n).
Proof.
  intros H E. destruct (H tr) as (a & n' & E' & _). congruence.
Qed.

Lemma defer_inv {A B} (d : M B) (body : M A) tr r n :
  defer d body tr = (r, n) ->
  exists n1, body tr = (r, n1) /\ n = (n1 ++ snd (d (tr ++ n1)%list))%list.
Proof.
  unfold defer. destruct (body tr) as [r1 n1].
  destruct (d (tr ++ n1)%list) as [r2 n2] eqn:E. intros H. injection H as <- <-.
  exists n1. rewrite E. split; reflexivity.
Qed.

(** Invert the outermost [bind] of [H]; [H1] names what its first part did. *)
Ltac inv_bind H H1 :=
  apply bind_inv in H;
  destruct H as [(? & ? & ? & H1 & H & ->) | (? & H1 & ->)].

(** Equality of runs up to the bracketing of their pieces. *)
Ltac same_run :=
  repeat (rewrite <- ?app_assoc, ?app_nil_r; simpl); reflexivity.

(** ** The exit paths of ResetRepo *)

Lemma RunGitCommandWithOutput_run env args tr :
  RunGitCommandWithOutput env args tr =
  match git_CombinedOutput env tr args with
  | (o, Some e) => (Val (Some (commandError args o e)), [EvGit args o (Some e)])
  | (o, None) => (Val None, EvGit args o None :: stdoutOf o)
  end.
Proof.
  unfold RunGitCommandWithOutput, bind, exec_CombinedOutput, stdoutOf. simpl.
  destruct (git_CombinedOutput env tr args) as [o [e |]]; simpl; [reflexivity |].
  destruct (0 <? String.length o)%nat; reflexivity.
Qed.

Lemma GetGitTags_run env tr :
  GetGitTags env tr =
  match git_Output env tr ["tag"] with
  | (o, Some e) =>
      (Val ([], Some {| Command := "git tag"; Output := o; Err := e |}),
       [EvGitOutput ["tag"] o (Some e)])
  | (o, None) => (Val (tagsOfOutput o, None), [EvGitOutput ["tag"] o None])
  end.
Proof.
  unfold GetGitTags, bind, exec_Output. simpl.
  destruct (git_Output env tr ["tag"]) as [o [e |]]; reflexivity.
Qed.

Lemma ExitPath_run env repoInfo commitMessage r tr tr' :
  ExitPath env repoInfo commitMessage r tr -> tr = tr' ->
  ExitPath env repoInfo commitMessage r tr'.
Proof. now intros H <-. Qed.

Lemma runGitOperations_returns env ops : returns anyEvent (runGitOperations env ops).
Proof. apply returns_runGitOperations; reflexivity. Qed.

(** ResetRepo is left by one of the exit paths. *)
Lemma ResetRepo_ExitPath env repoInfo commitMessage r tr :
  ResetRepo env repoInfo commitMessage [] = (r, tr) ->
  ExitPath env repoInfo commitMessage r tr.
Proof.
  unfold ResetRepo. intros H.
  apply bind_inv in H. destruct H as [(a & n1 & n2 & H1 & H & ->) | (msg & H1 & _)];
    [| discriminate].
  injection H1 as <- <-. simpl in H.
  destruct (fs_RemoveAll env [] (tmpPath env)) as [e |].
  { injection H as <- <-. apply RemoveFailed. }
  apply bind_inv in H. destruct H as [(a & n1 & n3 & H1 & H & ->) | (msg & H1 & _)];
    [| discriminate].
  injection H1 as <- <-. simpl in H.
  destruct (fs_MkdirAll env _ (tmpPath env)) as [e |].
  { injection H as <- <-. apply MkdirFailed. }
  apply defer_inv in H. destruct H as (body & H & ->).
  unfold os_RemoveAll. cbn [snd].
  set (d := fs_RemoveAll env _ _). clearbody d.
  unfold inWorkspace in H.
  (* change into the workspace *)
  apply bind_inv in H. destruct H as [(a & n1 & n4 & H1 & H & ->) | (msg & H1 & _)];
    [| discriminate].
  injection H1 as <- <-.
  destruct (fs_Chdir env _ (tmpPath env)) as [e |].
  { injection H as <- <-.
    eapply ExitPath_run; [apply (ChdirFailed env repoInfo commitMessage e d) |].
    unfold created. same_run. }
  apply bind_inv in H. destruct H as [(a & n1 & n5 & H1 & H & ->) | (msg & H1 & _)];
    [| discriminate].
  injection H1 as <- <-.
  (* clone *)
  apply bind_inv in H. destruct H as [(a & n1 & n6 & H1 & H & ->) | (msg & H1 & _)].
  2:{ now apply (returns_not_Panic (p:=anyEvent)) in H1;
        [| apply returns_RunGitCommandWithOutput]. }
  rewrite RunGitCommandWithOutput_run in H1.
  destruct (git_CombinedOutput env _ ["clone"; cloneURL repoInfo]) as [o [e |]].
  { injection H1 as <- <-. injection H as <- <-.
    eapply ExitPath_run; [apply (CloneFailed env repoInfo commitMessage o e d) |].
    unfold cloning, created. same_run. }
  injection H1 as <- <-.
  apply bind_inv in H. destruct H as [(c & n1 & n7 & H1 & H & ->) | (msg & H1 & _)];
    [| discriminate].
  injection H1 as <- <-.
  set (c := fs_Chdir env _ (RepoName repoInfo)) in *. clearbody c.
  (* rewrite the history *)
  apply bind_inv in H. destruct H as [(a & ops & n8 & H1 & H & ->) | (msg & H1 & _)].
  2:{ now apply (returns_not_Panic (p:=anyEvent)) in H1;
        [| apply runGitOperations_returns]. }
  match type of H1 with
  | runGitOperations _ _ ?h = _ =>
      replace h with (cloned env repoInfo o c) in H1 by (unfold cloned, cloning; same_run)
  end.
  destruct a as [e |].
  { injection H as <- <-.
    eapply ExitPath_run; [apply (@RewriteFailed env repoInfo commitMessage o c e ops d H1) |].
    unfold cloned, cloning, created. same_run. }
  (* list the tags *)
  apply bind_inv in H. destruct H as [(a & n1 & n9 & H2 & H & ->) | (msg & H2 & _)].
  2:{ now apply (returns_not_Panic (p:=anyEvent)) in H2;
        [| apply returns_GetGitTags]. }
  rewrite GetGitTags_run in H2.
  destruct (git_Output env _ ["tag"]) as [o' [e |]].
  { injection H2 as <- <-. injection H as <- <-.
    eapply ExitPath_run; [apply (@TagListFailed env repoInfo commitMessage o c ops o' e d H1) |].
    unfold cloned, cloning, created. same_run. }
  injection H2 as <- <-.
  match type of H with
  | afterTags _ _ _ ?h = _ =>
      replace h with (cloned env repoInfo o c ++ ops ++ [EvGitOutput ["tag"] o' None])%list
        in H by (unfold cloned, cloning; same_run)
  end.
  eapply ExitPath_run; [apply (@TagsListed env repoInfo commitMessage o c ops o' r n9 d H1 H) |].
  unfold cloned, cloning, created. same_run.
Qed.

Lemma emits_run {A} p (m : M A) tr r n :
  emits p m -> m tr = (r, n) -> forallb p n = true.
Proof.
  intros H E. specialize (H tr). now rewrite E in H.
Qed.

Lemma listEqb_hd a b : listEqb a b = true -> hd "" a = hd "" b.
Proof.
  intros H. apply listEqb_eq in H. now subst.
Qed.

Lemma rewriteEvent_heads commitMessage e :
  rewriteEvent commitMessage e = true ->
  headIn ["checkout"; "add"; "commit"; "branch"] e = true.
Proof.
  destruct e; try reflexivity. unfold rewriteEvent, headIn. intros H.
  apply existsb_exists in H. destruct H as (op & Hop & H).
  apply listEqb_hd in H. rewrite H.
  simpl in Hop. decompose [or] Hop; subst; try reflexivity. contradiction.
Qed.

Lemma tagEvent_heads env repoInfo commitMessage e :
  tagEvent env repoInfo commitMessage e = true -> headIn ["tag"; "push"] e = true.
Proof.
  destruct e as [| | | a o r | | | | | | | | | |]; try reflexivity.
  unfold tagEvent, headIn, isLocalTagDelete, isRemoteTagDelete, isForcePush. intros H.
  destruct a as [| x a]; [destruct (DryRun repoInfo); discriminate |]. simpl hd.
  apply orb_true_iff in H. destruct H as [H | H].
  - destruct a as [| y [| z [| w a]]]; try discriminate.
    apply andb_true_iff in H. destruct H as [H _]. apply String.eqb_eq in H. now subst.
  - apply andb_true_iff in H. destruct H as [_ H].
    apply orb_true_iff in H. destruct H as [H | H].
    + destruct a as [| y [| z [| w [| v a]]]]; try discriminate.
      apply andb_true_iff in H. destruct H as [H _].
      apply andb_true_iff in H. destruct H as [H _]. apply String.eqb_eq in H. now subst.
    + apply listEqb_hd in H. simpl in H. now subst.
Qed.

Section Pieces.

Variable env : Env.
Variable repoInfo : RepoInfo.
Variable commitMessage : string.

Lemma ops_events h r ops :
  runGitOperations env (gitOperations commitMessage) h = (r, ops) ->
  forallb (rewriteEvent commitMessage) ops = true.
Proof.
  apply emits_run, returns_emits, rewriteEvent_runGitOperations.
Qed.

Lemma after_events tags h r after :
  afterTags env repoInfo tags h = (r, after) ->
  forallb (tagEvent env repoInfo commitMessage) after = true.
Proof.
  apply emits_run, tagEvent_afterTags.
Qed.

(** An event that is neither a rewrite event can not be among [ops], and
    one that is no tag event can not be among [after]. *)
Lemma not_in_ops h r ops x :
  runGitOperations env (gitOperations commitMessage) h = (r, ops) ->
  rewriteEvent commitMessage x = false -> ~ In x ops.
Proof.
  intros H. apply forallb_In_false. eapply ops_events, H.
Qed.

Lemma not_in_after tags h r after x :
  afterTags env repoInfo tags h = (r, after) ->
  tagEvent env repoInfo commitMessage x = false -> ~ In x after.
Proof.
  intros H. apply forallb_In_false. eapply after_events, H.
Qed.

Lemma not_in_ops_head h r ops x :
  runGitOperations env (gitOperations commitMessage) h = (r, ops) ->
  headIn ["checkout"; "add"; "commit"; "branch"] x = false -> ~ In x ops.
Proof.
  intros H. apply forallb_In_false.
  eapply forallb_impl; [apply rewriteEvent_heads | eapply ops_events, H].
Qed.

Lemma not_in_after_head tags h r after x :
  afterTags env repoInfo tags h = (r, after) ->
  headIn ["tag"; "push"] x = false -> ~ In x after.
Proof.
  intros H. apply forallb_In_false.
  eapply forallb_impl; [apply tagEvent_heads | eapply after_events, H].
Qed.

End Pieces.

(** Split a membership in a run into its pieces. *)
Ltac split_in H :=
  repeat match type of H with
    | In _ (_ ++ _)%list => apply in_app_or in H; destruct H as [H | H]
    | In _ (_ :: _) => destruct H as [H | H]
    | In _ [] => destruct H
    | In _ (stdoutOf ?o) => unfold stdoutOf in H; destruct (0 <? String.length o)%nat
    | In _ (cloned _ _ _ _) => unfold cloned in H
    | In _ (cloning _ _) => unfold cloning in H
    | In _ (created _) => unfold created in H
    end.

(** ** C6: a failed clone *)

(** C6. In every run of ResetRepo in which [git clone] fails, ResetRepo
    returns the clone error, and the run consists of the workspace
    preparation, the announcement, the failed clone and the deferred removal
    of the workspace: no later step is executed. *)
Theorem clone_failure_stops_the_run env repoInfo commitMessage r tr output e :
  ResetRepo env repoInfo commitMessage [] = (r, tr) ->
  In (EvGit ["clone"; cloneURL repoInfo] output (Some e)) tr ->
  r = Val (Some ("failed to clone repository: "
                 ++ CommandError_Error (commandError ["clone"; cloneURL repoInfo] output e)))
  /\ exists d,
       tr = [EvRemoveAll (tmpPath env) None; EvMkdirAll (tmpPath env) None;
             EvChdir (tmpPath env) None;
             EvPrint info "Cloning repository: git clone %s" [AStr (cloneURL repoInfo)];
             EvGit ["clone"; cloneURL repoInfo] output (Some e);
             EvRemoveAll (tmpPath env) d].
Proof.
  intros Hrun Hin. apply ResetRepo_ExitPath in Hrun.
  destruct Hrun as [e0 | e0 | e0 d | o e0 d | o c e0 ops d Hops | o c ops o' e0 d Hops
                   | o c ops o' r after d Hops Hafter];
    split_in Hin; try discriminate Hin;
    try (exfalso; eapply not_in_ops_head; [exact Hops | | exact Hin]; reflexivity);
    try (exfalso; eapply not_in_after_head with (commitMessage := commitMessage);
         [exact Hafter | | exact Hin]; reflexivity).
  injection Hin as -> ->. split; [reflexivity |]. exists d. reflexivity.
Qed.

Lemma clone_failure_stops_the_run_witness :
  exists d,
    snd (ResetRepo Scenario.cloneFails (Scenario.github false) "init" []) =
    [EvRemoveAll "/tmp/git-tmp" None; EvMkdirAll "/tmp/git-tmp" None;
     EvChdir "/tmp/git-tmp" None;
     EvPrint info "Cloning repository: git clone %s" [AStr "https://github.com/owner/repo.git"];
     EvGit ["clone"; "https://github.com/owner/repo.git"] "fatal" (Some "exit status 1");
     EvRemoveAll "/tmp/git-tmp" d].
Proof.
  refine (proj2 (@clone_failure_stops_the_run Scenario.cloneFails (Scenario.github false)
                   "init" _ _ "fatal" "exit status 1" (surjective_pairing _) _)).
  vm_compute. do 4 right. left. reflexivity.
Defined.

(** ** C3: no tags *)

(** C3. When [git tag] succeeds with an empty output, or with nothing but
    white space, GetGitTags returns the empty sequence of tags and no error;
    in particular the empty output does not become the one-element sequence
    holding the empty string that splitting it gives. *)
Theorem no_tags_is_the_empty_sequence env tr output :
  git_Output env tr ["tag"] = (output, None) ->
  Strings.TrimSpace output = "" ->
  GetGitTags env tr = (Val ([], None), [EvGitOutput ["tag"] output None])
  /\ Strings.Split (Strings.TrimSpace output) Strings.LF = [""]
  /\ Strings.TrimSpace "" = "".
Proof.
  intros Hout Htrim. rewrite GetGitTags_run, Hout. unfold tagsOfOutput.
  rewrite Htrim. repeat split; reflexivity.
Qed.

Lemma no_tags_is_the_empty_sequence_witness :
  GetGitTags Scenario.bare [] = (Val ([], None), [EvGitOutput ["tag"] "" None]).
Proof.
  exact (proj1 (@no_tags_is_the_empty_sequence Scenario.bare [] "" eq_refl eq_refl)).
Defined.

(** ** Release cleanup *)

(** C10. When the listing succeeds and returns no release, the cleanup of
    either provider returns success at once: its run is the listing (after the
    client creation on GitLab) and the line saying that nothing was found, and
    holds no delete call.  The dry-run flag plays no part. *)
Theorem no_releases_nothing_deleted v env repoInfo tr :
  listingGives v env repoInfo tr [] ->
  deleteReleases v env repoInfo tr = (Val None, nothingToDelete v repoInfo)
  /\ deleteAttempts (nothingToDelete v repoInfo) = [].
Proof.
  destruct v; simpl.
  - intros (releases & Hlist & Hkeys).
    destruct releases; [| discriminate]. split; [| reflexivity].
    unfold DeleteGitHubReleases.
    erewrite bind_Val by (unfold Repositories_ListReleases; rewrite Hlist; reflexivity).
    reflexivity.
  - intros (Hclient & releases & Hlist & Hkeys).
    destruct releases; [| discriminate]. split; [| reflexivity].
    unfold DeleteGitLabReleases, gitLabClientReady, withClient, gitLabPath in *.
    erewrite bind_Val by (unfold newGitLabClient; rewrite Hclient; reflexivity).
    cbn [fst snd].
    erewrite bind_Val by (unfold Releases_ListReleases; rewrite Hlist; reflexivity).
    reflexivity.
Qed.

Lemma no_releases_nothing_deleted_witness :
  deleteReleases ViaGitHub Scenario.bare (Scenario.github false) [] =
    (Val None, [EvGitHubList "owner" "repo" (inl []);
                EvPrint info "No releases found to delete" []])
  /\ deleteReleases ViaGitLab Scenario.bare (Scenario.gitlab true) [] =
    (Val None, [EvGitLabClient "token" "https://gitlab.example.com" None;
                EvGitLabList "team/sub/proj" (inl []);
                EvPrint info "No releases found to delete" []]).
Proof.
  split.
  - refine (proj1 (@no_releases_nothing_deleted ViaGitHub Scenario.bare
                     (Scenario.github false) [] _)).
    exists []. split; reflexivity.
  - refine (proj1 (@no_releases_nothing_deleted ViaGitLab Scenario.bare
                     (Scenario.gitlab true) [] _)).
    split; [reflexivity |]. exists []. split; reflexivity.
Defined.

Lemma deleteAttempts_app a b :
  deleteAttempts (a ++ b)%list = (deleteAttempts a ++ deleteAttempts b)%list.
Proof. apply flat_map_app. Qed.

Lemma failedDeletes_app a b :
  failedDeletes (a ++ b)%list = (failedDeletes a ++ failedDeletes b)%list.
Proof. apply flat_map_app. Qed.

Lemma deleteWarnings_app a b :
  deleteWarnings (a ++ b)%list = (deleteWarnings a ++ deleteWarnings b)%list.
Proof. apply flat_map_app. Qed.

(** The delete loop of DeleteGitHubReleases, lines 211-218. *)
Lemma gitHub_delete_loop env repoInfo releases tr :
  Forall wellFormed releases ->
  exists n,
    forEach releases (fun release =>
      id <- deref (ID release) ;;
      err <- Repositories_DeleteRelease env (FullPath repoInfo) (RepoName repoInfo) id ;;
      match err with
      | Some e => println warning "Warning: Failed to delete release %d: %v" [AInt id; AStr e]
      | None =>
          name <- deref (Name release) ;;
          println success "Deleted release %d: %s" [AInt id; AStr name]
      end) tr = (Val tt, n)
    /\ deleteAttempts n = map gitHubKey releases
    /\ deleteWarnings n = failedDeletes n.
Proof.
  intros Hwf. revert tr. induction Hwf as [| release releases [Hid Hname] _ IH]; intros tr.
  - exists []. repeat split.
  - destruct release as [[id |] [name |] tag]; try contradiction.
    cbn [forEach].
    destruct (github_DeleteRelease env tr (FullPath repoInfo) (RepoName repoInfo) id)
      as [e |] eqn:Hdel.
    + destruct (IH (tr ++ [EvGitHubDelete (FullPath repoInfo) (RepoName repoInfo) id (Some e);
                           EvPrint warning "Warning: Failed to delete release %d: %v"
                             [AInt id; AStr e]])%list) as (n & Hn & Ha & Hw).
      eexists. split; [| split].
      * erewrite bind_Val
          by (unfold bind, deref, Repositories_DeleteRelease; simpl;
              rewrite app_nil_r, Hdel; reflexivity).
        rewrite Hn. reflexivity.
      * cbn [snd]. rewrite deleteAttempts_app, Ha. reflexivity.
      * cbn [snd]. rewrite deleteWarnings_app, failedDeletes_app, Hw. reflexivity.
    + destruct (IH (tr ++ [EvGitHubDelete (FullPath repoInfo) (RepoName repoInfo) id None;
                           EvPrint success "Deleted release %d: %s"
                             [AInt id; AStr name]])%list) as (n & Hn & Ha & Hw).
      eexists. split; [| split].
      * erewrite bind_Val
          by (unfold bind, deref, Repositories_DeleteRelease; simpl;
              rewrite app_nil_r, Hdel; reflexivity).
        rewrite Hn. reflexivity.
      * cbn [snd]. rewrite deleteAttempts_app, Ha. reflexivity.
      * cbn [snd]. rewrite deleteWarnings_app, failedDeletes_app, Hw. reflexivity.
Qed.

(** The delete loop of DeleteGitLabReleases, lines 254-267. *)
Lemma gitLab_delete_loop env fullPath releases tr :
  exists n,
    forEach releases (fun release =>
      r <- Releases_DeleteRelease env fullPath (GLTagName release) ;;
      match r with
      | Some (Some status, e) =>
          println warning "Warning: Failed to delete release %s (status %d): %v"
            [AStr (GLTagName release); AInt status; AStr e]
      | Some (None, e) =>
          println warning "Warning: Failed to delete release %s: %v"
            [AStr (GLTagName release); AStr e]
      | None => println success "Deleted release: %s" [AStr (GLName release)]
      end) tr = (Val tt, n)
    /\ deleteAttempts n = map gitLabKey releases
    /\ deleteWarnings n = failedDeletes n.
Proof.
  revert tr. induction releases as [| release releases IH]; intros tr.
  - exists []. repeat split.
  - cbn [forEach].
    destruct (gitlab_DeleteRelease env tr fullPath (GLTagName release))
      as [[[status |] e] |] eqn:Hdel.
    + destruct (IH (tr ++ [EvGitLabDelete fullPath (GLTagName release) (Some (Some status, e));
                           EvPrint warning
                             "Warning: Failed to delete release %s (status %d): %v"
                             [AStr (GLTagName release); AInt status; AStr e]])%list)
        as (n & Hn & Ha & Hw).
      eexists. split; [| split].
      * erewrite bind_Val
          by (unfold bind, Releases_DeleteRelease; simpl; rewrite Hdel; reflexivity).
        rewrite Hn. reflexivity.
      * cbn [snd]. rewrite deleteAttempts_app, Ha. reflexivity.
      * cbn [snd]. rewrite deleteWarnings_app, failedDeletes_app, Hw. reflexivity.
    + destruct (IH (tr ++ [EvGitLabDelete fullPath (GLTagName release) (Some (None, e));
                           EvPrint warning "Warning: Failed to delete release %s: %v"
                             [AStr (GLTagName release); AStr e]])%list)
        as (n & Hn & Ha & Hw).
      eexists. split; [| split].
      * erewrite bind_Val
          by (unfold bind, Releases_DeleteRelease; simpl; rewrite Hdel; reflexivity).
        rewrite Hn. reflexivity.
      * cbn [snd]. rewrite deleteAttempts_app, Ha. reflexivity.
      * cbn [snd]. rewrite deleteWarnings_app, failedDeletes_app, Hw. reflexivity.
    + destruct (IH (tr ++ [EvGitLabDelete fullPath (GLTagName release) None;
                           EvPrint success "Deleted release: %s"
                             [AStr (GLName release)]])%list)
        as (n & Hn & Ha & Hw).
      eexists. split; [| split].
      * erewrite bind_Val
          by (unfold bind, Releases_DeleteRelease; simpl; rewrite Hdel; reflexivity).
        rewrite Hn. reflexivity.
      * cbn [snd]. rewrite deleteAttempts_app, Ha. reflexivity.
      * cbn [snd]. rewrite deleteWarnings_app, failedDeletes_app, Hw. reflexivity.
Qed.

(** The same three releases, run: the second deletion is refused on either
    provider, the warning names it, the third is still attempted. *)
Example second_release_stays :
  deleteReleases ViaGitHub Scenario.secondReleaseStays (Scenario.github false) [] =
    (Val None,
     [EvGitHubList "owner" "repo"
        (inl [Scenario.release 1 "v1"; Scenario.release 2 "v2"; Scenario.release 3 "v3"]);
      EvPrint info "Found %d releases" [AInt 3];
      EvGitHubDelete "owner" "repo" 1 None;
      EvPrint success "Deleted release %d: %s" [AInt 1; AStr "v1"];
      EvGitHubDelete "owner" "repo" 2 (Some "403 Forbidden");
      EvPrint warning "Warning: Failed to delete release %d: %v" [AInt 2; AStr "403 Forbidden"];
      EvGitHubDelete "owner" "repo" 3 None;
      EvPrint success "Deleted release %d: %s" [AInt 3; AStr "v3"]])
  /\ deleteAttempts
       (snd (deleteReleases ViaGitLab Scenario.secondReleaseStays (Scenario.gitlab false) []))
     = [inr "v1"; inr "v2"; inr "v3"]
  /\ deleteWarnings
       (snd (deleteReleases ViaGitLab Scenario.secondReleaseStays (Scenario.gitlab false) []))
     = [inr "v2"]
  /\ fst (deleteReleases ViaGitLab Scenario.secondReleaseStays (Scenario.gitlab false) [])
     = Val None.
Proof.
  split; [vm_compute; reflexivity |].
  split; [vm_compute; reflexivity |].
  split; vm_compute; reflexivity.
Qed.

(** A listing that fails: an error, and no delete call. *)
Example listing_fails :
  deleteReleases ViaGitHub Scenario.listFails (Scenario.github false) [] =
    (Val (Some "failed to list releases: 500 Internal Server Error"),
     [EvGitHubList "owner" "repo" (inr "500 Internal Server Error")])
  /\ deleteReleases ViaGitLab Scenario.listFails (Scenario.gitlab false) [] =
    (Val (Some "failed to list releases (status 500): 500 Internal Server Error"),
     [EvGitLabClient "token" "https://gitlab.example.com" None;
      EvGitLabList "team/sub/proj" (inr (Some 500%Z, "500 Internal Server Error"))]).
Proof. split; vm_compute; reflexivity. Qed.

(** ** C7: remote tag cleanup *)

Lemma remote_tag_loop env tags h :
  exists n,
    forEach tags (fun tag =>
      err <- RunGitCommandWithOutput env ["push"; "origin"; "--delete"; "refs/tags/" ++ tag] ;;
      match err with
      | Some e =>
          println warning "Warning: Failed to delete remote tag %s: %v"
            [AStr tag; AStr (CommandError_Error e)]
      | None => println success "Deleted remote tag: %s" [AStr tag]
      end) h = (Val tt, n)
    /\ remoteTagDeletes n = map tagRef tags
    /\ remoteTagWarnings n = failedRemoteTagDeletes n.
Proof.
  revert h. induction tags as [| tag tags IH]; intros h.
  - exists []. repeat split.
  - cbn [forEach].
    destruct (git_CombinedOutput env h ["push"; "origin"; "--delete"; "refs/tags/" ++ tag])
      as [o [e |]] eqn:Hgit.
    + match goal with
      | |- context [bind ?m _] =>
          assert (Hm : m h = (Val tt,
                              [EvGit ["push"; "origin"; "--delete"; "refs/tags/" ++ tag] o (Some e);
                               EvPrint warning "Warning: Failed to delete remote tag %s: %v"
                                 [AStr tag;
                                  AStr (CommandError_Error
                                          (commandError ["push"; "origin"; "--delete";
                                                         "refs/tags/" ++ tag] o e))]]))
            by (erewrite bind_Val by (rewrite RunGitCommandWithOutput_run, Hgit; reflexivity);
                reflexivity)
      end.
      erewrite bind_Val by exact Hm.
      match goal with
      | |- context [forEach tags _ ?h'] => destruct (IH h') as (n & Hn & Hd & Hw)
      end.
      rewrite Hn. eexists. split; [reflexivity |]. cbn [snd].
      unfold remoteTagDeletes, remoteTagWarnings, failedRemoteTagDeletes in *.
      rewrite !flat_map_app, Hd, Hw. split; reflexivity.
    + match goal with
      | |- context [bind ?m _] =>
          assert (Hm : m h = (Val tt,
                              EvGit ["push"; "origin"; "--delete"; "refs/tags/" ++ tag] o None
                              :: (stdoutOf o
                                  ++ [EvPrint success "Deleted remote tag: %s" [AStr tag]])%list))
            by (erewrite bind_Val by (rewrite RunGitCommandWithOutput_run, Hgit; reflexivity);
                reflexivity)
      end.
      erewrite bind_Val by exact Hm.
      match goal with
      | |- context [forEach tags _ ?h'] => destruct (IH h') as (n & Hn & Hd & Hw)
      end.
      rewrite Hn. eexists. split; [reflexivity |]. cbn [snd].
      unfold remoteTagDeletes, remoteTagWarnings, failedRemoteTagDeletes, stdoutOf in *.
      destruct (0 <? String.length o)%nat;
        rewrite !flat_map_app, Hd, Hw; split; reflexivity.
Qed.

Lemma remoteTagCleanup_run env tags h :
  exists n,
    remoteTagCleanup env tags h = (Val tt, n)
    /\ remoteTagDeletes n = map tagRef tags
    /\ remoteTagWarnings n = failedRemoteTagDeletes n.
Proof.
  unfold remoteTagCleanup. destruct tags as [| tag tags].
  - exists []. repeat split.
  - cbn [List.length Nat.ltb Nat.leb]. apply remote_tag_loop.
Qed.

Lemma localTagCleanup_returns env tags : returns anyEvent (localTagCleanup env tags).
Proof. apply returns_localTagCleanup; reflexivity. Qed.

(** C7. In every run of ResetRepo outside a dry run in which the tags were
    listed, the run holds the whole remote tag cleanup for the listed tags
    and, right after it, the force push: one remote deletion is attempted for
    every tag, in order and whatever the earlier ones answered, and the tags
    warned about are exactly those whose remote deletion failed. *)
Theorem remote_tag_failures_do_not_stop_the_run env repoInfo commitMessage r tr output :
  DryRun repoInfo = false ->
  ResetRepo env repoInfo commitMessage [] = (r, tr) ->
  In (EvGitOutput ["tag"] output None) tr ->
  exists before remote o res rest,
    tr = (before ++ remote ++ EvGit ["push"; "-f"; "origin"; "main"] o res :: rest)%list
    /\ remoteTagCleanup env (tagsOfOutput output) before = (Val tt, remote)
    /\ remoteTagDeletes remote = map tagRef (tagsOfOutput output)
    /\ remoteTagWarnings remote = failedRemoteTagDeletes remote.
Proof.
  intros Hdry Hrun Hin. apply ResetRepo_ExitPath in Hrun.
  destruct Hrun as [e0 | e0 | e0 d | o e0 d | o c e0 ops d Hops | o c ops o' e0 d Hops
                   | o c ops o' r after d Hops Hafter];
    split_in Hin; try discriminate Hin;
    try (exfalso; eapply not_in_ops; [exact Hops | | exact Hin]; reflexivity);
    try (exfalso; eapply not_in_after with (commitMessage := commitMessage);
         [exact Hafter | | exact Hin]; reflexivity).
  injection Hin as ->.
  unfold afterTags in Hafter. rewrite Hdry in Hafter.
  inv_bind Hafter H1;
    [| exfalso; eapply returns_not_Panic; [apply localTagCleanup_returns | exact H1]].
  inv_bind Hafter H2;
    match type of H2 with
    | remoteTagCleanup _ _ ?h = _ =>
        destruct (remoteTagCleanup_run env (tagsOfOutput output) h) as (n & Hn & Hd & Hw)
    end;
    rewrite Hn in H2; [| discriminate].
  injection H2 as <- <-.
  inv_bind Hafter H3;
    [| exfalso; eapply returns_not_Panic with (p := anyEvent);
       [apply returns_RunGitCommandWithOutput; reflexivity | exact H3]].
  rewrite RunGitCommandWithOutput_run in H3.
  destruct (git_CombinedOutput env _ ["push"; "-f"; "origin"; "main"]) as [po [pe |]];
    injection H3 as <- <-;
    eexists _, n, po, _, _; (split; [| split; [exact Hn | split; [exact Hd | exact Hw]]]);
    same_run.
Qed.

Lemma remote_tag_failures_do_not_stop_the_run_witness :
  exists before remote o res rest,
    snd (ResetRepo Scenario.secondTagStays (Scenario.github false) "init" []) =
      (before ++ remote ++ EvGit ["push"; "-f"; "origin"; "main"] o res :: rest)%list
    /\ remoteTagCleanup Scenario.secondTagStays
         (tagsOfOutput (Scenario.tagLines ["v1"; "v2"; "v3"])) before = (Val tt, remote)
    /\ remoteTagDeletes remote
       = map tagRef (tagsOfOutput (Scenario.tagLines ["v1"; "v2"; "v3"]))
    /\ remoteTagWarnings remote = failedRemoteTagDeletes remote.
Proof.
  refine (@remote_tag_failures_do_not_stop_the_run Scenario.secondTagStays
            (Scenario.github false) "init"
            (fst (ResetRepo Scenario.secondTagStays (Scenario.github false) "init" []))
            (snd (ResetRepo Scenario.secondTagStays (Scenario.github false) "init" []))
            (Scenario.tagLines ["v1"; "v2"; "v3"])
            eq_refl (surjective_pairing _) _).
  vm_compute. do 16 right. left. reflexivity.
Defined.

(** Three tags, the remote refuses to delete the second: all three deletions
    are attempted, one warning is printed, the push and the release cleanup
    follow and the run succeeds. *)
Example second_tag_stays :
  fst (ResetRepo Scenario.secondTagStays (Scenario.github false) "init" []) = Val None
  /\ remoteTagDeletes (snd (ResetRepo Scenario.secondTagStays (Scenario.github false) "init" []))
     = ["refs/tags/v1"; "refs/tags/v2"; "refs/tags/v3"]
  /\ remoteTagWarnings (snd (ResetRepo Scenario.secondTagStays (Scenario.github false) "init" []))
     = ["refs/tags/v2"]
  /\ In (EvGit ["push"; "-f"; "origin"; "main"] "" None)
       (snd (ResetRepo Scenario.secondTagStays (Scenario.github false) "init" [])).
Proof.
  split; [vm_compute; reflexivity |].
  split; [vm_compute; reflexivity |].
  split; [vm_compute; reflexivity |].
  vm_compute. do 30 right. left. reflexivity.
Qed.

(** ** C2: the dry run *)

Lemma dryRunCheckpoint_run tags h :
  dryRunCheckpoint tags h = (Val None, dryRunReport tags).
Proof.
  unfold dryRunCheckpoint, dryRunReport.
  destruct (0 <? List.length tags)%nat; reflexivity.
Qed.

Lemma allowed_dry_run env repoInfo commitMessage e :
  DryRun repoInfo = true ->
  allowed env repoInfo commitMessage e = true -> remoteCall e = false.
Proof.
  intros Hdry. destruct e as [| | | a o r | | | | | | | | | |]; try reflexivity;
    try (simpl; rewrite Hdry; discriminate).
  unfold allowed, gitAllowed, remoteCall. rewrite Hdry. cbn [negb andb].
  rewrite orb_false_r. intros H.
  apply orb_true_iff in H. destruct H as [H | H].
  - apply orb_true_iff in H. destruct H as [H | H].
    + apply listEqb_hd in H. rewrite H. reflexivity.
    + apply existsb_exists in H. destruct H as (op & Hop & H).
      apply listEqb_hd in H. rewrite H.
      simpl in Hop. decompose [or] Hop; subst; try reflexivity. contradiction.
  - destruct a as [| x [| y [| z [| w a]]]]; try discriminate.
    apply andb_true_iff in H. destruct H as [H _]. apply String.eqb_eq in H. now subst.
Qed.

(** C2, as the code has it. In every dry run of ResetRepo in which the tags
    were listed, ResetRepo returns success; the run ends with the report of
    the checkpoint, which is the list of the tags that would be deleted (when
    there is one) and the push that would be made, followed only by the
    deferred removal of the workspace; and no event of the run is a push or a
    call of a provider's API.  The releases are therefore never listed, and
    nothing is reported about them. *)
Theorem dry_run_stops_before_the_releases env repoInfo commitMessage r tr output :
  DryRun repoInfo = true ->
  ResetRepo env repoInfo commitMessage [] = (r, tr) ->
  In (EvGitOutput ["tag"] output None) tr ->
  r = Val None
  /\ (exists before d,
        tr = (before ++ dryRunReport (tagsOfOutput output)
              ++ [EvRemoveAll (tmpPath env) d])%list)
  /\ forallb (fun e => negb (remoteCall e)) tr = true.
Proof.
  intros Hdry Hrun Hin.
  assert (Hquiet : forallb (fun e => negb (remoteCall e)) tr = true).
  { pose proof (allowed_ResetRepo env repoInfo commitMessage []) as Ha.
    rewrite Hrun in Ha. cbn [snd] in Ha.
    eapply forallb_impl; [| exact Ha]. intros e He.
    now rewrite (allowed_dry_run _ _ _ _ Hdry He). }
  apply ResetRepo_ExitPath in Hrun.
  destruct Hrun as [e0 | e0 | e0 d | o e0 d | o c e0 ops d Hops | o c ops o' e0 d Hops
                   | o c ops o' r after d Hops Hafter];
    split_in Hin; try discriminate Hin;
    try (exfalso; eapply not_in_ops; [exact Hops | | exact Hin]; reflexivity);
    try (exfalso; eapply not_in_after with (commitMessage := commitMessage);
         [exact Hafter | | exact Hin]; reflexivity).
  injection Hin as ->.
  unfold afterTags in Hafter. rewrite Hdry in Hafter.
  inv_bind Hafter H1;
    [| exfalso; eapply returns_not_Panic; [apply localTagCleanup_returns | exact H1]].
  rewrite dryRunCheckpoint_run in Hafter. injection Hafter as <- <-.
  split; [reflexivity |]. split; [| exact Hquiet].
  match goal with
  | |- exists before d', (?a ++ ?b ++ ?e :: (?l ++ _) ++ _)%list = _ =>
      exists (a ++ b ++ e :: l)%list, d
  end.
  same_run.
Qed.

Lemma dry_run_stops_before_the_releases_witness :
  fst (ResetRepo Scenario.twoTags (Scenario.github true) "init" []) = Val None
  /\ (exists before d,
        snd (ResetRepo Scenario.twoTags (Scenario.github true) "init" []) =
        (before ++ dryRunReport (tagsOfOutput (Scenario.tagLines ["v1.0.0"; "v1.1.0"]))
         ++ [EvRemoveAll "/tmp/git-tmp" d])%list)
  /\ forallb (fun e => negb (remoteCall e))
       (snd (ResetRepo Scenario.twoTags (Scenario.github true) "init" [])) = true.
Proof.
  refine (@dry_run_stops_before_the_releases Scenario.twoTags (Scenario.github true) "init"
            (fst (ResetRepo Scenario.twoTags (Scenario.github true) "init" []))
            (snd (ResetRepo Scenario.twoTags (Scenario.github true) "init" []))
            (Scenario.tagLines ["v1.0.0"; "v1.1.0"])
            eq_refl (surjective_pairing _) _).
  vm_compute. do 16 right. left. reflexivity.
Defined.

(** The scenario of the specification, two tags and one release, as a dry
    run: the whole run.  The release is neither listed nor mentioned. *)
Example dry_run_two_tags_one_release :
  ResetRepo Scenario.twoTags (Scenario.github true) "init" [] =
    (Val None,
     [EvRemoveAll "/tmp/git-tmp" None; EvMkdirAll "/tmp/git-tmp" None;
      EvChdir "/tmp/git-tmp" None;
      EvPrint info "Cloning repository: git clone %s" [AStr "https://github.com/owner/repo.git"];
      EvGit ["clone"; "https://github.com/owner/repo.git"] "" None;
      EvChdir "repo" None;
      EvPrint info "Executing: git %s" [AStr "checkout --orphan temp_branch"];
      EvGit ["checkout"; "--orphan"; "temp_branch"] "" None;
      EvPrint info "Executing: git %s" [AStr "add -A"];
      EvGit ["add"; "-A"] "" None;
      EvPrint info "Executing: git %s" [AStr "commit -m init"];
      EvGit ["commit"; "-m"; "init"] "" None;
      EvPrint info "Executing: git %s" [AStr "branch -D main"];
      EvGit ["branch"; "-D"; "main"] "" None;
      EvPrint info "Executing: git %s" [AStr "branch -m main"];
      EvGit ["branch"; "-m"; "main"] "" None;
      EvGitOutput ["tag"] (Scenario.tagLines ["v1.0.0"; "v1.1.0"]) None;
      EvPrint info "Found %d tags to delete" [AInt 2];
      EvPrint info "Removing local tag: %s" [AStr "v1.0.0"];
      EvGit ["tag"; "-d"; "v1.0.0"] "" None;
      EvPrint info "Removing local tag: %s" [AStr "v1.1.0"];
      EvGit ["tag"; "-d"; "v1.1.0"] "" None;
      EvPrint info "\nWould delete %d remote tags: %v\n" [AInt 2; AStrs ["v1.0.0"; "v1.1.0"]];
      EvPrint info "Would execute: git push -f origin main" [];
      EvRemoveAll "/tmp/git-tmp" None]).
Proof. vm_compute. reflexivity. Qed.

(** Run for itself in a dry run, the release cleanup does report the
    release: this is the branch ResetRepo never reaches. *)
Example dry_run_release_report :
  DeleteGitHubReleases Scenario.twoTags (Scenario.github true) [] =
    (Val None,
     [EvGitHubList "owner" "repo" (inl [Scenario.release 1 "v1.0.0"]);
      EvPrint info "Found %d releases" [AInt 1];
      EvPrint info "\nThe following releases would be deleted:" [];
      EvPrint info "- Release %d: %s (tag: %s)\n" [AInt 1; AStr "v1.0.0"; AStr "v1.0.0"]]).
Proof. vm_compute. reflexivity. Qed.

(** ** C1: the rewrite of the history *)

Lemma gitCommands_app a b : gitCommands (a ++ b)%list = (gitCommands a ++ gitCommands b)%list.
Proof. apply flat_map_app. Qed.

Lemma gitCommands_stdoutOf o : gitCommands (stdoutOf o) = [].
Proof. unfold stdoutOf. now destruct (0 <? String.length o)%nat. Qed.

(** The test holds of none of the five operations: the first argument of the
    deletion is "branch", which does not contain "branch -D". *)
Lemma no_operation_is_tolerated commitMessage :
  forallb (fun op => negb (tolerated op)) (gitOperations commitMessage) = true.
Proof. reflexivity. Qed.

(** The loop of lines 101-108 over operations none of which is tolerated: a
    failed command is the last one of the loop, and its error is returned. *)
Lemma runGitOperations_stops env ops h r n a o e :
  forallb (fun op => negb (tolerated op)) ops = true ->
  runGitOperations env ops h = (r, n) ->
  In (EvGit a o (Some e)) n ->
  exists done op rest,
    ops = (done ++ op :: rest)%list /\ args op = a
    /\ r = Val (Some ("failed to " ++ desc op ++ ": " ++ CommandError_Error (commandError a o e)))
    /\ gitCommands n = map args (done ++ [op])%list.
Proof.
  revert h r n. induction ops as [| op ops IH]; intros h r n Htol Hrun Hin.
  - injection Hrun as <- <-. destruct Hin.
  - cbn [forallb] in Htol. apply andb_true_iff in Htol. destruct Htol as [Hop Htol].
    cbn [runGitOperations] in Hrun.
    inv_bind Hrun H1; [| discriminate]. injection H1 as <- <-.
    inv_bind Hrun H2;
      [| exfalso; eapply returns_not_Panic with (p := anyEvent);
         [apply returns_RunGitCommandWithOutput; reflexivity | exact H2]].
    rewrite RunGitCommandWithOutput_run in H2.
    destruct (git_CombinedOutput env _ (args op)) as [o' [e' |]].
    + injection H2 as <- <-. unfold tolerated in Hop. rewrite Hop in Hrun.
      injection Hrun as <- <-.
      split_in Hin; try discriminate Hin. injection Hin as <- <- <-.
      exists [], op, ops. repeat split.
    + injection H2 as <- <-.
      split_in Hin; try discriminate Hin.
      destruct (IH _ _ _ Htol Hrun Hin) as (done & op' & rest & -> & Ha & Hr & Hc).
      exists (op :: done), op', rest. repeat split; try assumption.
      rewrite !gitCommands_app.
      change (EvGit (args op) o' None :: stdoutOf o')
        with ([EvGit (args op) o' None] ++ stdoutOf o')%list.
      rewrite gitCommands_app, gitCommands_stdoutOf, Hc. reflexivity.
Qed.

(** C1, as the code has it. In every run of ResetRepo in which
    [git branch -D main] fails, ResetRepo returns that failure as its error,
    and the git commands of the run are the clone, the three first operations
    and the failed deletion: the rename [git branch -m main] is not run, and
    nothing else after it. *)
Theorem delete_branch_failure_is_fatal env repoInfo commitMessage r tr output e :
  ResetRepo env repoInfo commitMessage [] = (r, tr) ->
  In (EvGit ["branch"; "-D"; "main"] output (Some e)) tr ->
  r = Val (Some ("failed to Removing old main branch: "
                 ++ CommandError_Error (commandError ["branch"; "-D"; "main"] output e)))
  /\ gitCommands tr =
     [["clone"; cloneURL repoInfo]; ["checkout"; "--orphan"; "temp_branch"]; ["add"; "-A"];
      ["commit"; "-m"; commitMessage]; ["branch"; "-D"; "main"]].
Proof.
  intros Hrun Hin. apply ResetRepo_ExitPath in Hrun.
  destruct Hrun as [e0 | e0 | e0 d | o e0 d | o c e0 ops d Hops | o c ops o' e0 d Hops
                   | o c ops o' r after d Hops Hafter];
    split_in Hin; try discriminate Hin;
    try (exfalso; eapply not_in_after_head with (commitMessage := commitMessage);
         [exact Hafter | | exact Hin]; reflexivity);
    destruct (@runGitOperations_stops env _ _ _ _ _ _ _
                (no_operation_is_tolerated commitMessage) Hops Hin)
      as (done & op & rest & Hsplit & Ha & Hr & Hc);
    try discriminate Hr.
  injection Hr as ->.
  destruct done as [| o1 [| o2 [| o3 [| o4 [| o5 done]]]]];
    cbn [gitOperations app] in Hsplit; injection Hsplit; intros; subst;
    try discriminate Ha; [| destruct done; discriminate].
  split; [reflexivity |].
  rewrite !gitCommands_app, Hc. unfold cloned, cloning, created.
  rewrite !gitCommands_app.
  change (EvGit ["clone"; cloneURL repoInfo] o None
          :: stdoutOf o ++ [EvChdir (RepoName repoInfo) c])%list
    with ([EvGit ["clone"; cloneURL repoInfo] o None]
          ++ stdoutOf o ++ [EvChdir (RepoName repoInfo) c])%list.
  rewrite !gitCommands_app, gitCommands_stdoutOf. reflexivity.
Qed.

Lemma delete_branch_failure_is_fatal_witness :
  fst (ResetRepo Scenario.noMainBranch (Scenario.github false) "init" []) =
    Val (Some ("failed to Removing old main branch: "
               ++ CommandError_Error
                    (commandError ["branch"; "-D"; "main"] "fatal" "exit status 1")))
  /\ gitCommands (snd (ResetRepo Scenario.noMainBranch (Scenario.github false) "init" [])) =
     [["clone"; cloneURL (Scenario.github false)]; ["checkout"; "--orphan"; "temp_branch"];
      ["add"; "-A"]; ["commit"; "-m"; "init"]; ["branch"; "-D"; "main"]].
Proof.
  refine (@delete_branch_failure_is_fatal Scenario.noMainBranch (Scenario.github false) "init"
            (fst (ResetRepo Scenario.noMainBranch (Scenario.github false) "init" []))
            (snd (ResetRepo Scenario.noMainBranch (Scenario.github false) "init" []))
            "fatal" "exit status 1" (surjective_pairing _) _).
  vm_compute. do 13 right. left. reflexivity.
Defined.

(** The whole run when the repository has no branch called main. *)
Example no_main_branch :
  ResetRepo Scenario.noMainBranch (Scenario.github false) "init" [] =
    (Val (Some ("failed to Removing old main branch: Command 'git branch -D main' failed: "
                ++ "exit status 1" ++ Strings.LF ++ "Output: fatal")),
     [EvRemoveAll "/tmp/git-tmp" None; EvMkdirAll "/tmp/git-tmp" None;
      EvChdir "/tmp/git-tmp" None;
      EvPrint info "Cloning repository: git clone %s" [AStr "https://github.com/owner/repo.git"];
      EvGit ["clone"; "https://github.com/owner/repo.git"] "" None;
      EvChdir "repo" None;
      EvPrint info "Executing: git %s" [AStr "checkout --orphan temp_branch"];
      EvGit ["checkout"; "--orphan"; "temp_branch"] "" None;
      EvPrint info "Executing: git %s" [AStr "add -A"];
      EvGit ["add"; "-A"] "" None;
      EvPrint info "Executing: git %s" [AStr "commit -m init"];
      EvGit ["commit"; "-m"; "init"] "" None;
      EvPrint info "Executing: git %s" [AStr "branch -D main"];
      EvGit ["branch"; "-D"; "main"] "fatal" (Some "exit status 1");
      EvRemoveAll "/tmp/git-tmp" None]).
Proof. vm_compute. reflexivity. Qed.

(** ** C9: the commit message *)

(** Take a finished run apart, down to the calls into the environment. *)
Ltac run_inv :=
  repeat match goal with
    | H : bind _ _ _ = (_, _) |- _ =>
        apply bind_inv in H;
        destruct H as [(? & ? & ? & ? & H & ?) | (? & H & ?)]; subst
    | H : ret _ _ = (_, _) |- _ => unfold ret in H; inversion H; subst; clear H
    | H : emit _ _ = (_, _) |- _ => unfold emit in H; inversion H; subst; clear H
    | H : println _ _ _ _ = (_, _) |- _ => unfold println in H
    | H : ShowLogo _ = (_, _) |- _ => unfold ShowLogo in H
    | H : Run _ _ _ = (_, _) |- _ => unfold Run in H; cbv zeta in H; inversion H; subst; clear H
    | H : PromptConfirmation _ _ _ = (_, _) |- _ => unfold PromptConfirmation in H
    | H : PromptCommitMessage _ _ = (_, _) |- _ => unfold PromptCommitMessage in H
    | H : (if ?b then _ else _) _ = (_, _) |- _ => destruct b eqn:?
    | H : (match ?x with _ => _ end) _ = (_, _) |- _ => destruct x eqn:?
    | H : (let (_, _) := ?x in _) _ = (_, _) |- _ => destruct x eqn:?
    | H : Val _ = Panic _ |- _ => discriminate H
    | H : Panic _ = Val _ |- _ => discriminate H
    | H : Val _ = Val _ |- _ => inversion H; subst; clear H
    | H : (_, _) = (_, _) |- _ => inversion H; subst; clear H
    end.

Lemma chooseCommitMessage_Invoke env flags repoInfo tr repoInfo' commitMessage n :
  chooseCommitMessage env flags repoInfo tr = (Val (Invoke repoInfo' commitMessage), n) ->
  commitMessage <> ""
  /\ (commitMessage = Flags.CommitMsg flags
      \/ (Flags.NoInteractive flags = true /\ commitMessage = defaultCommitMsg)
      \/ (Flags.NoInteractive flags = false
          /\ exists h, tea_Run env h InitialCommitModel = TeaCommit true commitMessage)).
Proof.
  unfold chooseCommitMessage. intros H.
  destruct (String.eqb (Flags.CommitMsg flags) "") eqn:Hc;
    destruct (Flags.NoInteractive flags) eqn:Hn; cbn [negb] in H; run_inv;
    try match goal with
      | H : String.eqb "" "" = false |- _ => discriminate H
      | H : negb ?b = _ |- _ => destruct b; discriminate H
      end.
  all: try match goal with
      | H : negb ?b = _ |- _ => destruct b; try discriminate H
      end.
  all: try congruence.
  all: split;
    [ first [ discriminate
            | apply String.eqb_neq; assumption ]
    | first [ left; reflexivity
            | right; left; split; reflexivity
            | right; right; split; [reflexivity | eexists; eassumption] ] ].
Qed.

Lemma noGit_beforeReset env ToLower flags : emits noGit (beforeReset env ToLower flags).
Proof.
  unfold beforeReset, chooseCommitMessage, ShowLogo, PromptConfirmation, PromptCommitMessage.
  run_steps; reflexivity.
Qed.

Lemma beforeReset_Invoke env ToLower flags tr repoInfo commitMessage n :
  beforeReset env ToLower flags tr = (Val (Invoke repoInfo commitMessage), n) ->
  exists repoInfo0 h n0,
    chooseCommitMessage env flags repoInfo0 h = (Val (Invoke repoInfo commitMessage), n0).
Proof.
  unfold beforeReset. intros H.
  inv_bind H H1; [| discriminate].
  destruct (String.eqb (Flags.RepoPath flags) "" || String.eqb (Flags.Token flags) "")%bool;
    [run_inv |].
  destruct (List.length (Strings.Split (Flags.RepoPath flags) "/") <? 2)%nat; [run_inv |].
  destruct (String.eqb (ToLower (Flags.Provider flags)) "github");
    [eexists _, _, _; exact H |].
  destruct (String.eqb (ToLower (Flags.Provider flags)) "gitlab");
    [eexists _, _, _; exact H |].
  run_inv.
Qed.

Lemma chooseCommitMessage_afterPrompt env flags repoInfo tr d n res :
  chooseCommitMessage env flags repoInfo tr = (Val d, n) ->
  In (EvTea InitialCommitModel res) n ->
  afterPrompt res d.
Proof.
  unfold chooseCommitMessage. intros H Hin.
  destruct (String.eqb (Flags.CommitMsg flags) "") eqn:Hc;
    destruct (Flags.NoInteractive flags) eqn:Hn; cbn [negb] in H; run_inv;
    try match goal with
      | H : String.eqb "" "" = false |- _ => discriminate H
      | H : negb ?b = _ |- _ => destruct b; discriminate H
      end.
  all: try match goal with
      | H : negb ?b = _ |- _ => destruct b; try discriminate H
      end.
  all: try congruence.
  all: split_in Hin; try discriminate Hin.
  all: injection Hin as <-; cbn [afterPrompt]; try reflexivity.
  all: match goal with
       | H : String.eqb ?v "" = _ |- context [String.eqb ?v ""] => rewrite H
       end;
       first [reflexivity | eexists; reflexivity].
Qed.

Lemma beforeReset_afterPrompt env ToLower flags tr d n res :
  beforeReset env ToLower flags tr = (Val d, n) ->
  In (EvTea InitialCommitModel res) n ->
  afterPrompt res d.
Proof.
  unfold beforeReset. intros H Hin.
  apply bind_inv in H.
  destruct H as [(a & n1 & n2 & H1 & H & ->) | (msg & _ & Hr)]; [| discriminate Hr].
  injection H1 as <- <-.
  destruct (String.eqb (Flags.RepoPath flags) "" || String.eqb (Flags.Token flags) "")%bool;
    [run_inv; split_in Hin; discriminate Hin |].
  destruct (List.length (Strings.Split (Flags.RepoPath flags) "/") <? 2)%nat;
    [run_inv; split_in Hin; discriminate Hin |].
  destruct Hin as [Hin | Hin]; [discriminate Hin |].
  destruct (String.eqb (ToLower (Flags.Provider flags)) "github");
    [exact (@chooseCommitMessage_afterPrompt _ _ _ _ _ _ _ H Hin) |].
  destruct (String.eqb (ToLower (Flags.Provider flags)) "gitlab");
    [exact (@chooseCommitMessage_afterPrompt _ _ _ _ _ _ _ H Hin) |].
  run_inv; split_in Hin; discriminate Hin.
Qed.

Lemma allowed_commit env repoInfo commitMessage m o res :
  allowed env repoInfo commitMessage (EvGit ["commit"; "-m"; m] o res) = true ->
  m = commitMessage.
Proof.
  unfold allowed, gitAllowed. cbn. rewrite !andb_true_r, !orb_false_r.
  destruct (String.eqb m commitMessage) eqn:E; [now apply String.eqb_eq in E |].
  destruct (DryRun repoInfo); discriminate.
Qed.

(** C9. Whenever main goes on to call ResetRepo, the commit message it passes
    is not empty: it is the value of the message flag, or the default message
    of the non-interactive mode, or the non-empty text the commit prompt
    ended with; every [git commit] of the run of main carries that message;
    and the end of the commit prompt decides how main goes on: an error
    leaves main with status 1, an empty or abandoned text with status 0
    before ResetRepo is called, and only a non-empty text is passed on. *)
Theorem commit_message_is_never_empty env ToLower flags repoInfo commitMessage n :
  beforeReset env ToLower flags [] = (Val (Invoke repoInfo commitMessage), n) ->
  commitMessage <> ""
  /\ (commitMessage = Flags.CommitMsg flags
      \/ (Flags.NoInteractive flags = true /\ commitMessage = defaultCommitMsg)
      \/ (Flags.NoInteractive flags = false
          /\ exists h, tea_Run env h InitialCommitModel = TeaCommit true commitMessage))
  /\ (forall m o res,
        In (EvGit ["commit"; "-m"; m] o res) (snd (main env ToLower flags [])) ->
        m = commitMessage)
  /\ forall d n' res,
       beforeReset env ToLower flags [] = (Val d, n') ->
       In (EvTea InitialCommitModel res) n' -> afterPrompt res d.
Proof.
  intros H.
  destruct (@beforeReset_Invoke _ _ _ _ _ _ _ H) as (ri0 & h & n0 & Hc).
  destruct (@chooseCommitMessage_Invoke _ _ _ _ _ _ _ Hc) as [Hne Hsrc].
  split; [exact Hne |]. split; [exact Hsrc |].
  split; [| intros d n' res; apply beforeReset_afterPrompt].
  intros m o res Hin.
  destruct (main env ToLower flags []) as [code tr] eqn:Hmain. cbn [snd] in Hin.
  unfold main in Hmain. inv_bind Hmain H1; rewrite H in H1; [| discriminate].
  injection H1 as <- <-.
  pose proof (@emits_run _ _ _ _ _ _ (noGit_beforeReset env ToLower flags) H) as Hn.
  inv_bind Hmain H2.
  - pose proof (@emits_run _ _ _ _ _ _ (allowed_ResetRepo env repoInfo commitMessage) H2) as Ha.
    apply in_app_or in Hin. destruct Hin as [Hin | Hin].
    { exfalso. exact (@forallb_In_false _ noGit n (EvGit ["commit"; "-m"; m] o res) Hn eq_refl Hin). }
    apply in_app_or in Hin. destruct Hin as [Hin | Hin].
    { apply (@allowed_commit env repoInfo commitMessage m o res).
      rewrite forallb_forall in Ha. apply Ha, Hin. }
    run_inv; split_in Hin; discriminate Hin.
  - pose proof (@emits_run _ _ _ _ _ _ (allowed_ResetRepo env repoInfo commitMessage) H2) as Ha.
    apply in_app_or in Hin. destruct Hin as [Hin | Hin].
    { exfalso. exact (@forallb_In_false _ noGit n (EvGit ["commit"; "-m"; m] o res) Hn eq_refl Hin). }
    apply (@allowed_commit env repoInfo commitMessage m o res).
    rewrite forallb_forall in Ha. apply Ha, Hin.
Qed.

Lemma commit_message_is_never_empty_witness :
  "fresh start" <> ""
  /\ ("fresh start" = Flags.CommitMsg Scenario.interactive
      \/ (Flags.NoInteractive Scenario.interactive = true /\ "fresh start" = defaultCommitMsg)
      \/ (Flags.NoInteractive Scenario.interactive = false
          /\ exists h,
               tea_Run Scenario.twoTags h InitialCommitModel = TeaCommit true "fresh start"))
  /\ (forall m o res,
        In (EvGit ["commit"; "-m"; m] o res)
          (snd (main Scenario.twoTags Scenario.asciiToLower Scenario.interactive [])) ->
        m = "fresh start")
  /\ forall d n' res,
       beforeReset Scenario.twoTags Scenario.asciiToLower Scenario.interactive [] = (Val d, n') ->
       In (EvTea InitialCommitModel res) n' -> afterPrompt res d.
Proof.
  refine (@commit_message_is_never_empty Scenario.twoTags Scenario.asciiToLower
            Scenario.interactive (Scenario.github false) "fresh start"
            (snd (beforeReset Scenario.twoTags Scenario.asciiToLower Scenario.interactive []))
            _).
  vm_compute. reflexivity.
Defined.

(** The three sources of the message, run: the prompt, the default of the
    non-interactive mode, and an empty end of the prompt, which leaves main
    with status 0 before any git command. *)
Example message_sources :
  fst (beforeReset Scenario.twoTags Scenario.asciiToLower Scenario.interactive [])
  = Val (Invoke (Scenario.github false) "fresh start")
  /\ fst (beforeReset Scenario.twoTags Scenario.asciiToLower Scenario.batch [])
     = Val (Invoke (Scenario.gitlab true) "Initial commit")
  /\ main (Scenario.withPrompt (TeaCommit false "") Scenario.twoTags)
       Scenario.asciiToLower Scenario.interactive []
     = (Val 0%Z,
        [EvPrint logoStyle "Logo" [];
         EvTea (ConfirmModel
                  ("GoresetIT will squash all commits on main branch.\n"
                   ++ "THIS IS A DESTRUCTIVE OPERATION AND CANNOT BE UNDONE!\n"
                   ++ "Are you sure you want to continue?"))
           (TeaConfirm true);
         EvTea InitialCommitModel (TeaCommit false "");
         EvPrint info "Operation cancelled by user" []]).
Proof.
  split; [vm_compute; reflexivity |].
  split; vm_compute; reflexivity.
Qed.

(** ** The steps after the tag listing *)

Unset Implicit Arguments.

Lemma ExitPath_AfterPath_eq env repoInfo tags h r tr tr' :
  AfterPath env repoInfo tags h r tr -> tr = tr' -> AfterPath env repoInfo tags h r tr'.
Proof. now intros H <-. Qed.

Lemma remoteTagCleanup_returns env tags : returns anyEvent (remoteTagCleanup env tags).
Proof. apply returns_remoteTagCleanup; reflexivity. Qed.

(** [inv_bind], naming the value and the events of the first part. *)
Ltac inv_bind_as H H1 a n1 :=
  apply bind_inv in H;
  destruct H as [(a & n1 & ? & H1 & H & ->) | (? & H1 & ->)].

(** Lines 116-161 are left by one of these paths. *)
Lemma afterTags_AfterPath env repoInfo tags h r after :
  afterTags env repoInfo tags h = (r, after) -> AfterPath env repoInfo tags h r after.
Proof.
  unfold afterTags. intros H.
  inv_bind_as H H1 u local;
    [| exfalso; eapply returns_not_Panic; [apply localTagCleanup_returns | exact H1]].
  destruct u. destruct (DryRun repoInfo) eqn:Hdry.
  { rewrite dryRunCheckpoint_run in H. injection H as <- <-. now apply DryRunExit. }
  inv_bind_as H H2 u remote;
    [| exfalso; eapply returns_not_Panic; [apply remoteTagCleanup_returns | exact H2]].
  destruct u.
  inv_bind_as H H3 err push;
    [| exfalso; eapply returns_not_Panic with (p := anyEvent);
       [apply returns_RunGitCommandWithOutput; reflexivity | exact H3]].
  rewrite RunGitCommandWithOutput_run in H3.
  destruct (git_CombinedOutput env _ ["push"; "-f"; "origin"; "main"]) as [o [e |]].
  - injection H3 as <- <-. injection H as <- <-.
    eapply ExitPath_AfterPath_eq;
      [apply (@PushFailed env repoInfo tags h local remote o e H1 Hdry H2) |]. same_run.
  - injection H3 as <- <-.
    match type of H with
    | releaseCleanup _ _ ?h' = _ =>
        replace h' with (h ++ local ++ remote ++ EvGit forcePush o None :: stdoutOf o)%list
          in H by (unfold forcePush; same_run)
    end.
    match type of H with
    | _ = (_, ?rel) =>
        eapply ExitPath_AfterPath_eq;
          [apply (@Pushed env repoInfo tags h local remote o r rel H1 Hdry H2 H) |]
    end.
    unfold forcePush. same_run.
Qed.

(** What each piece of a run consists of, for a condition [p] that holds of
    the printed lines. *)
Section PieceEvents.

Variable env : Env.
Variable p : Event -> bool.
Hypothesis p_print : forall st f a, p (EvPrint st f a) = true.
Hypothesis p_stdout : forall s, p (EvStdout s) = true.

Lemma ops_forall commitMessage h r ops :
  (forall op o res, In op (gitOperations commitMessage) -> p (EvGit (args op) o res) = true) ->
  runGitOperations env (gitOperations commitMessage) h = (r, ops) ->
  forallb p ops = true.
Proof.
  intros Hp. apply emits_run, returns_emits, returns_runGitOperations; assumption.
Qed.

Lemma local_forall tags h r local :
  (forall t o res, p (EvGit ["tag"; "-d"; t] o res) = true) ->
  localTagCleanup env tags h = (r, local) ->
  forallb p local = true.
Proof.
  intros Hp. apply emits_run, returns_emits, returns_localTagCleanup; assumption.
Qed.

Lemma remote_forall tags h r remote :
  (forall t o res, p (EvGit ["push"; "origin"; "--delete"; "refs/tags/" ++ t] o res) = true) ->
  remoteTagCleanup env tags h = (r, remote) ->
  forallb p remote = true.
Proof.
  intros Hp. apply emits_run, returns_emits, returns_remoteTagCleanup; assumption.
Qed.

Lemma releases_forall repoInfo h r releases :
  (forall e, apiCall e = true -> p e = true) ->
  releaseCleanup env repoInfo h = (r, releases) ->
  forallb p releases = true.
Proof.
  intros Hp. apply emits_run. unfold releaseCleanup.
  destruct (Provider repoInfo =? GitHub)%Z.
  { apply emits_DeleteGitHubReleases; try assumption; intros; now apply Hp. }
  destruct (Provider repoInfo =? GitLab)%Z; [| apply emits_ret].
  apply returns_emits, returns_DeleteGitLabReleases; try assumption; intros; now apply Hp.
Qed.

Lemma report_forall tags : forallb p (dryRunReport tags) = true.
Proof.
  unfold dryRunReport. destruct (0 <? List.length tags)%nat; simpl;
    now rewrite ?p_print.
Qed.

Lemma stdoutOf_forall o : forallb p (stdoutOf o) = true.
Proof.
  unfold stdoutOf. destruct (0 <? String.length o)%nat; simpl; now rewrite ?p_stdout.
Qed.

End PieceEvents.

(** Discharge a condition on the events of a piece. *)
Ltac event_condition :=
  intros; simpl;
  repeat match goal with
    | |- context [match ?r with Some _ => _ | None => _ end] => destruct r
    end;
  reflexivity.

Lemma cloned_forall (p : Event -> bool) env repoInfo o c :
  (forall path res, p (EvRemoveAll path res) = true) ->
  (forall path res, p (EvMkdirAll path res) = true) ->
  (forall path res, p (EvChdir path res) = true) ->
  (forall st f a, p (EvPrint st f a) = true) ->
  (forall s, p (EvStdout s) = true) ->
  p (EvGit ["clone"; cloneURL repoInfo] o None) = true ->
  forallb p (cloned env repoInfo o c) = true.
Proof.
  intros H1 H2 H3 H4 H5 H6. unfold cloned, cloning, created.
  rewrite !forallb_app. cbn [forallb]. rewrite !forallb_app. cbn [forallb].
  rewrite H1, H2, !H3, H4, H6, stdoutOf_forall by assumption. reflexivity.
Qed.

Lemma beforeListing_cloned env repoInfo o c :
  forallb beforeListing (cloned env repoInfo o c) = true.
Proof. apply cloned_forall; reflexivity. Qed.

Lemma beforeListing_ops env commitMessage h r ops :
  runGitOperations env (gitOperations commitMessage) h = (r, ops) ->
  forallb beforeListing ops = true.
Proof.
  apply ops_forall; try reflexivity.
  intros op o res Hin. simpl in Hin. decompose [or] Hin; subst; try reflexivity.
  contradiction.
Qed.

(** ** A failed tag listing *)

(** X1. When [git tag] fails, ResetRepo returns that failure as its error; the
    run ends with the failed listing and the deferred removal of the workspace,
    and before the listing it holds only events of the preparation, the clone
    and the rewrite: no tag is deleted, nothing is pushed and no provider is
    called. *)
Theorem tag_listing_failure_is_fatal env repoInfo commitMessage r tr output e :
  ResetRepo env repoInfo commitMessage [] = (r, tr) ->
  In (EvGitOutput ["tag"] output (Some e)) tr ->
  r = Val (Some ("failed to list tags: "
                 ++ CommandError_Error
                      {| Command := "git tag"; Output := output; Err := e |}))
  /\ exists before d,
       tr = (before ++ [EvGitOutput ["tag"] output (Some e);
                        EvRemoveAll (tmpPath env) d])%list
       /\ forallb beforeListing before = true.
Proof.
  intros Hrun Hin. apply ResetRepo_ExitPath in Hrun.
  destruct Hrun as [e0 | e0 | e0 d | o e0 d | o c e0 ops d Hops | o c ops o' e0 d Hops
                   | o c ops o' r after d Hops Hafter];
    split_in Hin; try discriminate Hin;
    try (exfalso; eapply not_in_ops; [exact Hops | | exact Hin]; reflexivity);
    try (exfalso; eapply not_in_after with (commitMessage := commitMessage);
         [exact Hafter | | exact Hin]; reflexivity).
  injection Hin as -> ->. split; [reflexivity |].
  exists (cloned env repoInfo o c ++ ops)%list, d. split; [same_run |].
  rewrite forallb_app, beforeListing_cloned, (beforeListing_ops _ _ _ _ _ Hops). reflexivity.
Qed.

Lemma tag_listing_failure_is_fatal_witness :
  fst (ResetRepo Faults.tagListingFails (Scenario.github false) "init" [])
  = Val (Some "failed to list tags: Command 'git tag' failed: exit status 128").
Proof.
  refine (proj1 (tag_listing_failure_is_fatal Faults.tagListingFails (Scenario.github false)
                   "init" (fst (ResetRepo Faults.tagListingFails (Scenario.github false)
                                  "init" []))
                   (snd (ResetRepo Faults.tagListingFails (Scenario.github false) "init" []))
                   "" "exit status 128" (surjective_pairing _) _)).
  vm_compute. do 16 right. left. reflexivity.
Defined.

Lemma apiCall_noGit e : apiCall e = true -> noGit e = true.
Proof. destruct e; try discriminate; reflexivity. Qed.

Lemma apiCall_notForcePush e : apiCall e = true -> notForcePush e = true.
Proof. destruct e; try discriminate; reflexivity. Qed.

(** The events up to the force push are no calls of a provider's API. *)
Lemma noApi_up_to_the_push env repoInfo commitMessage o c ops o' tags h local remote r1 r2 r3 :
  runGitOperations env (gitOperations commitMessage) (cloned env repoInfo o c) = (r1, ops) ->
  localTagCleanup env tags h = (r2, local) ->
  remoteTagCleanup env tags (h ++ local)%list = (r3, remote) ->
  forallb noApi
    (cloned env repoInfo o c ++ ops ++ EvGitOutput ["tag"] o' None :: local ++ remote)%list
  = true.
Proof.
  intros Hops Hlocal Hremote.
  rewrite !forallb_app. cbn [forallb]. rewrite !forallb_app.
  rewrite (cloned_forall noApi) by reflexivity.
  rewrite (ops_forall env noApi (fun _ _ _ => eq_refl) (fun _ => eq_refl) _ _ _ _
             (fun _ _ _ _ => eq_refl) Hops).
  rewrite (local_forall env noApi (fun _ _ _ => eq_refl) (fun _ => eq_refl) _ _ _ _
             (fun _ _ _ => eq_refl) Hlocal).
  rewrite (remote_forall env noApi (fun _ _ _ => eq_refl) (fun _ => eq_refl) _ _ _ _
             (fun _ _ _ => eq_refl) Hremote).
  reflexivity.
Qed.

(** Exclude an event from the pieces of the steps after the listing: it
    fails the condition [p], which the events of the pieces meet. *)
Ltac not_in_piece p Hapi H :=
  exfalso;
  match type of H with
  | In ?x ?l =>
      match goal with
      | Hl : localTagCleanup ?env _ _ = (_, l) |- _ =>
          refine (forallb_In_false _ _ x
                    (local_forall env p (fun _ _ _ => eq_refl)
                       (fun _ => eq_refl) _ _ _ _ (fun _ _ _ => eq_refl) Hl) eq_refl H)
      | Hl : remoteTagCleanup ?env _ _ = (_, l) |- _ =>
          refine (forallb_In_false _ _ x
                    (remote_forall env p (fun _ _ _ => eq_refl)
                       (fun _ => eq_refl) _ _ _ _ (fun _ _ _ => eq_refl) Hl) eq_refl H)
      | Hl : releaseCleanup ?env _ _ = (_, l) |- _ =>
          refine (forallb_In_false _ _ x
                    (releases_forall env p (fun _ _ _ => eq_refl)
                       _ _ _ _ Hapi Hl) eq_refl H)
      | |- _ =>
          refine (forallb_In_false _ _ x
                    (report_forall p (fun _ _ _ => eq_refl) _) eq_refl H)
      end
  end.

(** ** A failed force push *)

(** X2. When the force push fails, ResetRepo returns that failure as its error;
    the run ends with the failed push and the deferred removal of the workspace,
    and no provider's API is called: the releases stay as they are. *)
Theorem push_failure_skips_the_releases env repoInfo commitMessage r tr output e :
  ResetRepo env repoInfo commitMessage [] = (r, tr) ->
  In (EvGit forcePush output (Some e)) tr ->
  r = Val (Some ("failed to push changes: "
                 ++ CommandError_Error (commandError forcePush output e)))
  /\ exists before d,
       tr = (before ++ [EvGit forcePush output (Some e); EvRemoveAll (tmpPath env) d])%list
       /\ forallb noApi before = true.
Proof.
  intros Hrun Hin. apply ResetRepo_ExitPath in Hrun.
  destruct Hrun as [e0 | e0 | e0 d | o e0 d | o c e0 ops d Hops | o c ops o' e0 d Hops
                   | o c ops o' r after d Hops Hafter];
    try apply afterTags_AfterPath in Hafter;
    try destruct Hafter as [local Hlocal Hdry | local remote po pe Hlocal Hdry Hremote
                           | local remote po r releases Hlocal Hdry Hremote Hrel];
    split_in Hin; try discriminate Hin;
    try (exfalso; eapply not_in_ops_head; [exact Hops | | exact Hin]; reflexivity);
    try (not_in_piece notForcePush apiCall_notForcePush Hin; fail).
  injection Hin as -> ->. split; [reflexivity |].
  exists (cloned env repoInfo o c ++ ops ++ EvGitOutput ["tag"] o' None :: local ++ remote)%list,
    d.
  split; [same_run |].
  eapply noApi_up_to_the_push; eassumption.
Qed.

Lemma push_failure_skips_the_releases_witness :
  fst (ResetRepo Faults.pushRejected (Scenario.github false) "init" [])
  = Val (Some ("failed to push changes: Command 'git push -f origin main' failed: "
               ++ "exit status 1" ++ Strings.LF ++ "Output: fatal")).
Proof.
  refine (proj1 (push_failure_skips_the_releases Faults.pushRejected (Scenario.github false)
                   "init" (fst (ResetRepo Faults.pushRejected (Scenario.github false)
                                  "init" []))
                   (snd (ResetRepo Faults.pushRejected (Scenario.github false) "init" []))
                   "fatal" "exit status 1" (surjective_pairing _) _)).
  vm_compute. do 22 right. left. reflexivity.
Defined.

(** ** The ways through a whole run *)

(** Split a run of ResetRepo into its exit paths, and the last of them into
    the paths through the steps after the tag listing. *)
Ltac exit_paths Hrun :=
  apply ResetRepo_ExitPath in Hrun;
  destruct Hrun as [e0 | e0 | e0 d | o e0 d | o c e0 ops d Hops | o c ops o' e0 d Hops
                   | o c ops o' r after d Hops Hafter];
  [ | | | | |
  | apply afterTags_AfterPath in Hafter;
    destruct Hafter as [local Hlocal Hdry | local remote po pe Hlocal Hdry Hremote
                       | local remote po r releases Hlocal Hdry Hremote Hrel] ].



(** ** A provider that is neither GitHub nor GitLab *)



(** ** Panics *)

(** A loop panics only where its body does. *)
Lemma forEach_Panic {A} (l : list A) (body : A -> M unit) h msg n :
  forEach l body h = (Panic msg, n) ->
  exists x h' n', In x l /\ body x h' = (Panic msg, n').
Proof.
  revert h n. induction l as [| x l IH]; intros h n H.
  - discriminate H.
  - cbn [forEach] in H. apply bind_inv in H.
    destruct H as [(a & n1 & n2 & H1 & H & ->) | (m & H1 & Hm)].
    + destruct (IH _ _ H) as (y & h' & n' & Hin & Hy).
      exists y, h', n'. split; [now right | exact Hy].
    + injection Hm as <-. exists x, h, n. split; [now left | exact H1].
Qed.

(** [run_inv], also through the dereferences and the calls of the APIs. *)
Ltac calls_inv :=
  repeat (run_inv;
          match goal with
          | H : deref _ _ = (_, _) |- _ => unfold deref in H
          | H : panic _ _ = (_, _) |- _ => unfold panic in H; inversion H; subst; clear H
          | H : Panic _ = Panic _ |- _ => inversion H; subst; clear H
          | H : Repositories_ListReleases _ _ _ _ = (_, _) |- _ =>
              unfold Repositories_ListReleases in H; cbv zeta in H; inversion H; subst; clear H
          | H : Repositories_DeleteRelease _ _ _ _ _ = (_, _) |- _ =>
              unfold Repositories_DeleteRelease in H; cbv zeta in H; inversion H; subst;
              clear H
          | H : newGitLabClient _ _ _ _ = (_, _) |- _ =>
              unfold newGitLabClient in H; cbv zeta in H; inversion H; subst; clear H
          | H : Releases_ListReleases _ _ _ = (_, _) |- _ =>
              unfold Releases_ListReleases in H; cbv zeta in H; inversion H; subst; clear H
          | H : Releases_DeleteRelease _ _ _ _ = (_, _) |- _ =>
              unfold Releases_DeleteRelease in H; cbv zeta in H; inversion H; subst; clear H
          end).

(** DeleteGitHubReleases panics only on a nil field of a listed release. *)
Lemma DeleteGitHubReleases_Panic env repoInfo h msg n :
  DeleteGitHubReleases env repoInfo h = (Panic msg, n) ->
  msg = "invalid memory address or nil pointer dereference"
  /\ exists releases release rest,
       n = EvGitHubList (FullPath repoInfo) (RepoName repoInfo) (inl releases) :: rest
       /\ github_ListReleases env h (FullPath repoInfo) (RepoName repoInfo) = inl releases
       /\ In release releases
       /\ (ID release = None \/ Name release = None
           \/ (DryRun repoInfo = true /\ TagName release = None)).
Proof.
  unfold DeleteGitHubReleases. intros H.
  apply bind_inv in H. destruct H as [(a & n1 & n2 & H1 & H & ->) | (m & H1 & _)];
    [| discriminate H1].
  unfold Repositories_ListReleases in H1. cbv zeta in H1. injection H1 as <- <-.
  destruct (github_ListReleases env h (FullPath repoInfo) (RepoName repoInfo))
    as [releases | e] eqn:Hlist; [| discriminate H].
  destruct (List.length releases =? 0)%nat; [discriminate H |].
  apply bind_inv in H. destruct H as [(a & n1 & n3 & H1 & H & ->) | (m & H1 & _)];
    [| discriminate H1].
  apply bind_inv in H. destruct H as [(b & n4 & n5 & H2 & H & ->) | (m & H2 & Hm)];
    [discriminate H |].
  injection Hm as <-.
  destruct (DryRun repoInfo) eqn:Hdry.
  - apply bind_inv in H2. destruct H2 as [(b & n4 & n5 & H2 & H & ->) | (m & H2 & _)];
      [| discriminate H2].
    apply forEach_Panic in H. destruct H as (release & h' & n' & Hin & H).
    assert (Hnil : msg = "invalid memory address or nil pointer dereference"
                   /\ (ID release = None \/ Name release = None \/ TagName release = None)).
    { calls_inv; (split; [reflexivity |]); auto. }
    destruct Hnil as [-> Hnil]. split; [reflexivity |].
    exists releases, release. eexists. split; [reflexivity |].
    split; [reflexivity |]. split; [exact Hin |]. intuition.
  - apply forEach_Panic in H2. destruct H2 as (release & h' & n' & Hin & H).
    assert (Hnil : msg = "invalid memory address or nil pointer dereference"
                   /\ (ID release = None \/ Name release = None)).
    { calls_inv; (split; [reflexivity |]); auto. }
    destruct Hnil as [-> Hnil]. split; [reflexivity |].
    exists releases, release. eexists. split; [reflexivity |].
    split; [reflexivity |]. split; [exact Hin |]. intuition.
Qed.

Lemma DeleteGitLabReleases_returns env repoInfo :
  returns anyEvent (DeleteGitLabReleases env repoInfo).
Proof. apply returns_DeleteGitLabReleases; reflexivity. Qed.

(** A run that went through the steps after the listing ends with the
    deferred removal. *)
Lemma last_of_the_run (a b : Trace) x (c : Trace) y :
  last (a ++ b ++ x :: c ++ [y])%list EvUsage = y.
Proof.
  rewrite app_comm_cons, !app_assoc. apply last_last.
Qed.

(** X4. When ResetRepo panics, it is on a nil pointer in a release that GitHub
    listed: the target is on GitHub, the run is no dry run, the force push has
    succeeded, one of the listed releases lacks its identifier or its name, and
    the deferred removal of the workspace still ran. *)
Theorem a_panic_comes_from_a_github_release env repoInfo commitMessage msg tr :
  ResetRepo env repoInfo commitMessage [] = (Panic msg, tr) ->
  msg = "invalid memory address or nil pointer dereference"
  /\ Provider repoInfo = GitHub /\ DryRun repoInfo = false
  /\ (exists output, In (EvGit forcePush output None) tr)
  /\ (exists releases release,
        In (EvGitHubList (FullPath repoInfo) (RepoName repoInfo) (inl releases)) tr
        /\ In release releases /\ ~ wellFormed release)
  /\ exists d, last tr EvUsage = EvRemoveAll (tmpPath env) d.
Proof.
  intros Hrun. remember (Panic msg) as r eqn:Hr.
  exit_paths Hrun; try discriminate Hr.
  subst r. unfold releaseCleanup in Hrel.
  destruct (Provider repoInfo =? GitHub)%Z eqn:Hgh.
  - apply DeleteGitHubReleases_Panic in Hrel.
    destruct Hrel as (-> & releases' & release & rest & -> & _ & Hin & Hnil).
    split; [reflexivity |]. split; [now apply Z.eqb_eq |]. split; [exact Hdry |].
    split; [| split].
    + exists po. apply in_or_app. right. apply in_or_app. right. right.
      apply in_or_app. left. apply in_or_app. right. apply in_or_app. right. now left.
    + exists releases', release. split; [| split; [exact Hin |]].
      * apply in_or_app. right. apply in_or_app. right. right.
        apply in_or_app. left. apply in_or_app. right. apply in_or_app. right. right.
        apply in_or_app. right. now left.
      * intros [Hid Hname]. destruct Hnil as [H | [H | [H _]]];
          [now apply Hid | now apply Hname | congruence].
    + exists d. apply last_of_the_run.
  - exfalso. destruct (Provider repoInfo =? GitLab)%Z; [| discriminate Hrel].
    eapply returns_not_Panic; [apply DeleteGitLabReleases_returns | exact Hrel].
Qed.

Lemma a_panic_comes_from_a_github_release_witness :
  exists d,
    last (snd (ResetRepo Faults.untitledRelease (Scenario.github false) "init" [])) EvUsage
    = EvRemoveAll "/tmp/git-tmp" d.
Proof.
  refine (proj2 (proj2 (proj2 (proj2 (proj2
            (a_panic_comes_from_a_github_release Faults.untitledRelease
               (Scenario.github false) "init"
               "invalid memory address or nil pointer dereference"
               (snd (ResetRepo Faults.untitledRelease (Scenario.github false) "init" []))
               _)))))).
  vm_compute. reflexivity.
Defined.

(** ** Loops over the tags *)

(** What is collected from the events of a loop is collected from the
    events of its rounds. *)
Lemma forEach_collect {A B} (f : Event -> list B) (g : A -> list B) (l : list A)
    (body : A -> M unit) h r n :
  (forall x h' r' n', body x h' = (r', n') -> r' = Val tt /\ flat_map f n' = g x) ->
  forEach l body h = (r, n) ->
  r = Val tt /\ flat_map f n = flat_map g l.
Proof.
  intros Hbody. revert h r n. induction l as [| x l IH]; intros h r n H.
  - injection H as <- <-. now split.
  - cbn [forEach] in H. apply bind_inv in H.
    destruct H as [(a & n1 & n2 & H1 & H & ->) | (m & H1 & _)].
    + destruct (Hbody _ _ _ _ H1) as [_ Hx]. destruct (IH _ _ _ H) as [-> Hl].
      split; [reflexivity |]. cbn [flat_map]. now rewrite flat_map_app, Hx, Hl.
    + destruct (Hbody _ _ _ _ H1) as [Hr _]. discriminate Hr.
Qed.

Lemma forEach_same {A B} (f1 f2 : Event -> list B) (l : list A) (body : A -> M unit) h r n :
  (forall x h' r' n', body x h' = (r', n') -> flat_map f1 n' = flat_map f2 n') ->
  forEach l body h = (r, n) ->
  flat_map f1 n = flat_map f2 n.
Proof.
  intros Hbody. revert h r n. induction l as [| x l IH]; intros h r n H.
  - now injection H as <- <-.
  - cbn [forEach] in H. apply bind_inv in H.
    destruct H as [(a & n1 & n2 & H1 & H & ->) | (m & H1 & _)].
    + rewrite !flat_map_app. now rewrite (Hbody _ _ _ _ H1), (IH _ _ _ H).
    + exact (Hbody _ _ _ _ H1).
Qed.

Lemma flat_map_singleton {A B} (k : A -> B) (l : list A) :
  flat_map (fun x => [k x]) l = map k l.
Proof. induction l as [| x l IH]; [reflexivity |]. cbn. now rewrite IH. Qed.

(** Take a round of a tag loop apart: the command failed or succeeded. *)
Ltac tag_round H :=
  apply bind_inv in H;
  destruct H as [(?a & ?n1 & ?n2 & ?H1 & H & ->) | (?m & ?H1 & _)];
  match goal with
  | H1 : RunGitCommandWithOutput ?env ?args ?h = _ |- _ =>
      rewrite RunGitCommandWithOutput_run in H1;
      destruct (git_CombinedOutput env h args) as [?o [?e |]];
      inversion H1; subst; clear H1
  end;
  try (unfold println, emit, ret in H; inversion H; subst; clear H).

Lemma local_round env tag h r n :
  (println info "Removing local tag: %s" [AStr tag] ;;
   err <- RunGitCommandWithOutput env ["tag"; "-d"; tag] ;;
   match err with
   | Some e =>
       println warning "Warning: Failed to delete local tag %s: %v"
         [AStr tag; AStr (CommandError_Error e)]
   | None => ret tt
   end) h = (r, n) ->
  r = Val tt
  /\ ((exists o, n = [EvPrint info "Removing local tag: %s" [AStr tag];
                      EvGit (localTagDelete tag) o None] ++ stdoutOf o)
      \/ exists o e,
           n = [EvPrint info "Removing local tag: %s" [AStr tag];
                EvGit (localTagDelete tag) o (Some e);
                EvPrint warning "Warning: Failed to delete local tag %s: %v"
                  [AStr tag; AStr (CommandError_Error (commandError (localTagDelete tag) o e))]])%list.
Proof.
  intros H.
  apply bind_inv in H. destruct H as [(a & n1 & n2 & H1 & H & ->) | (m & H1 & _)];
    [| discriminate H1].
  injection H1 as <- <-.
  tag_round H; (split; [reflexivity |]).
  - right. eexists _, _. reflexivity.
  - left. eexists. cbn [app]. now rewrite app_nil_r.
Qed.

Lemma remote_round env tag h r n :
  (err <- RunGitCommandWithOutput env ["push"; "origin"; "--delete"; "refs/tags/" ++ tag] ;;
   match err with
   | Some e =>
       println warning "Warning: Failed to delete remote tag %s: %v"
         [AStr tag; AStr (CommandError_Error e)]
   | None => println success "Deleted remote tag: %s" [AStr tag]
   end) h = (r, n) ->
  r = Val tt
  /\ ((exists o, n = EvGit (remoteTagDelete tag) o None :: stdoutOf o
                     ++ [EvPrint success "Deleted remote tag: %s" [AStr tag]])
      \/ exists o e,
           n = [EvGit (remoteTagDelete tag) o (Some e);
                EvPrint warning "Warning: Failed to delete remote tag %s: %v"
                  [AStr tag; AStr (CommandError_Error (commandError (remoteTagDelete tag) o e))]])%list.
Proof.
  intros H. tag_round H; (split; [reflexivity |]).
  - right. eexists _, _. reflexivity.
  - left. eexists. reflexivity.
Qed.

(** The local tag cleanup never panics; it issues one deletion for every
    tag, in order, and warns about exactly those that failed. *)
Lemma localTagCleanup_run env tags h r local :
  localTagCleanup env tags h = (r, local) ->
  r = Val tt
  /\ gitCommands local = map localTagDelete tags
  /\ localTagDeletes local = tags
  /\ localTagWarnings local = failedLocalTagDeletes local.
Proof.
  unfold localTagCleanup. destruct tags as [| t tags].
  { cbn. intros H. injection H as <- <-. repeat split. }
  cbn [List.length Nat.ltb Nat.leb]. intros H.
  apply bind_inv in H. destruct H as [(a & n1 & n2 & H1 & H & ->) | (m & H1 & _)];
    [| discriminate H1].
  injection H1 as <- <-.
  set (tags' := t :: tags) in *. clearbody tags'.
  pose proof (forEach_collect
                (fun e => match e with EvGit a _ _ => [a] | _ => [] end)
                (fun tag => [localTagDelete tag]) _ _ _ _ _
                ltac:(intros x h' r' n' Hx; apply local_round in Hx;
                      destruct Hx as [-> [(o & ->) | (o & e & ->)]];
                      (split; [reflexivity |]); [| reflexivity];
                      unfold stdoutOf; destruct (0 <? String.length o)%nat; reflexivity)
                H) as [-> Hc].
  pose proof (forEach_collect
                (fun e => match e with
                          | EvGit [a; b; tag] _ _ =>
                              if isLocalTagDelete [a; b; tag] then [tag] else []
                          | _ => []
                          end)
                (fun tag => [tag]) _ _ _ _ _
                ltac:(intros x h' r' n' Hx; apply local_round in Hx;
                      destruct Hx as [-> [(o & ->) | (o & e & ->)]];
                      (split; [reflexivity |]); [| reflexivity];
                      unfold stdoutOf; destruct (0 <? String.length o)%nat; reflexivity)
                H) as [_ Hd].
  pose proof (forEach_same
                (fun e => match e with
                          | EvPrint warning f (AStr t :: _) =>
                              if String.eqb f "Warning: Failed to delete local tag %s: %v"
                              then [t] else []
                          | _ => []
                          end)
                (fun e => match e with
                          | EvGit [a; b; tag] _ (Some _) =>
                              if isLocalTagDelete [a; b; tag] then [tag] else []
                          | _ => []
                          end) _ _ _ _ _
                ltac:(intros x h' r' n' Hx; apply local_round in Hx;
                      destruct Hx as [-> [(o & ->) | (o & e & ->)]]; [| reflexivity];
                      unfold stdoutOf; destruct (0 <? String.length o)%nat; reflexivity)
                H) as Hw.
  split; [reflexivity |].
  unfold gitCommands, localTagDeletes, localTagWarnings, failedLocalTagDeletes.
  cbn [app flat_map]. rewrite flat_map_singleton in Hc.
  rewrite Hc, Hw. split; [reflexivity |]. split; [| reflexivity].
  rewrite Hd. clear. induction tags' as [| x l IH]; [reflexivity |]. cbn. now rewrite IH.
Qed.

(** An event of a loop is an event of one of its rounds. *)
Lemma forEach_In {A} (l : list A) (body : A -> M unit) h r n x :
  forEach l body h = (r, n) -> In x n ->
  exists y h' r' n', In y l /\ body y h' = (r', n') /\ In x n'.
Proof.
  revert h r n. induction l as [| y l IH]; intros h r n H Hin.
  - injection H as <- <-. destruct Hin.
  - cbn [forEach] in H. apply bind_inv in H.
    destruct H as [(a & n1 & n2 & H1 & H & ->) | (m & H1 & _)].
    + apply in_app_or in Hin. destruct Hin as [Hin | Hin].
      * exists y, h, (Val a), n1. split; [now left | now split].
      * destruct (IH _ _ _ H Hin) as (z & h' & r' & n' & Hz & Hb & Hx).
        exists z, h', r', n'. split; [now right | now split].
    + exists y, h, (Panic m), n. split; [now left | now split].
Qed.

(** A command that fails during the tag cleanups deletes one of the tags. *)
Lemma local_failures env tags h r local a o e :
  localTagCleanup env tags h = (r, local) ->
  In (EvGit a o (Some e)) local ->
  exists tag, In tag tags /\ a = localTagDelete tag.
Proof.
  unfold localTagCleanup. destruct (0 <? List.length tags)%nat; intros H Hin.
  - apply bind_inv in H. destruct H as [(u & n1 & n2 & H1 & H & ->) | (m & H1 & _)];
      [| discriminate H1].
    injection H1 as <- <-. destruct Hin as [Hin | Hin]; [discriminate Hin |].
    destruct (forEach_In _ _ _ _ _ _ H Hin) as (tag & h' & r' & n' & Htag & Hb & Hx).
    exists tag. split; [exact Htag |].
    apply local_round in Hb. destruct Hb as [_ [(o' & ->) | (o' & e' & ->)]];
      split_in Hx; try discriminate Hx. now injection Hx as <- _ _.
  - injection H as <- <-. destruct Hin as [Hin | []]. discriminate Hin.
Qed.

Lemma remote_failures env tags h r remote a o e :
  remoteTagCleanup env tags h = (r, remote) ->
  In (EvGit a o (Some e)) remote ->
  exists tag, In tag tags /\ a = remoteTagDelete tag.
Proof.
  unfold remoteTagCleanup. destruct (0 <? List.length tags)%nat; intros H Hin.
  - destruct (forEach_In _ _ _ _ _ _ H Hin) as (tag & h' & r' & n' & Htag & Hb & Hx).
    exists tag. split; [exact Htag |].
    apply remote_round in Hb. destruct Hb as [_ [(o' & ->) | (o' & e' & ->)]];
      split_in Hx; try discriminate Hx. now injection Hx as <- _ _.
  - injection H as <- <-. destruct Hin.
Qed.

Lemma remoteTagCleanup_commands env tags h r remote :
  remoteTagCleanup env tags h = (r, remote) ->
  gitCommands remote = map remoteTagDelete tags.
Proof.
  unfold remoteTagCleanup. destruct tags as [| t tags].
  { cbn. intros H. now injection H as <- <-. }
  cbn [List.length Nat.ltb Nat.leb]. intros H.
  set (tags' := t :: tags) in *. clearbody tags'.
  pose proof (forEach_collect
                (fun e => match e with EvGit a _ _ => [a] | _ => [] end)
                (fun tag => [remoteTagDelete tag]) _ _ _ _ _
                ltac:(intros x h' r' n' Hx; apply remote_round in Hx;
                      destruct Hx as [-> [(o & ->) | (o & e & ->)]];
                      (split; [reflexivity |]); [| reflexivity];
                      unfold stdoutOf; destruct (0 <? String.length o)%nat; reflexivity)
                H) as [_ Hc].
  unfold gitCommands. now rewrite Hc, flat_map_singleton.
Qed.

(** ** Runs in which the tags were listed *)

(** A run in which [git tag] succeeded went through the clone and the five
    operations, and then through the steps after the listing. *)
Lemma listed_run env repoInfo commitMessage r tr output :
  ResetRepo env repoInfo commitMessage [] = (r, tr) ->
  In (EvGitOutput ["tag"] output None) tr ->
  exists o c ops after d,
    runGitOperations env (gitOperations commitMessage) (cloned env repoInfo o c)
    = (Val None, ops)
    /\ AfterPath env repoInfo (tagsOfOutput output)
         (cloned env repoInfo o c ++ ops ++ [EvGitOutput ["tag"] output None])%list r after
    /\ tr = (cloned env repoInfo o c ++ ops ++ EvGitOutput ["tag"] output None :: after
             ++ [EvRemoveAll (tmpPath env) d])%list.
Proof.
  intros Hrun Hin. apply ResetRepo_ExitPath in Hrun.
  destruct Hrun as [e0 | e0 | e0 d | o e0 d | o c e0 ops d Hops | o c ops o' e0 d Hops
                   | o c ops o' r after d Hops Hafter];
    split_in Hin; try discriminate Hin;
    try (exfalso; eapply not_in_ops; [exact Hops | | exact Hin]; reflexivity);
    try (exfalso; eapply not_in_after with (commitMessage := commitMessage);
         [exact Hafter | | exact Hin]; reflexivity).
  injection Hin as ->.
  exists o, c, ops, after, d. split; [exact Hops |]. split; [| reflexivity].
  now apply afterTags_AfterPath.
Qed.

Lemma gitCommands_cloned env repoInfo o c :
  gitCommands (cloned env repoInfo o c) = [["clone"; cloneURL repoInfo]].
Proof.
  unfold cloned, cloning, created, stdoutOf.
  destruct (0 <? String.length o)%nat; reflexivity.
Qed.

Lemma gitCommands_noGit l : forallb noGit l = true -> gitCommands l = [].
Proof.
  induction l as [| x l IH]; [reflexivity |]. cbn [forallb]. intros H.
  apply andb_true_iff in H. destruct H as [Hx Hl].
  unfold gitCommands in *. cbn [flat_map]. rewrite (IH Hl).
  destruct x; try reflexivity; discriminate Hx.
Qed.

(** The loop of lines 101-108, when it runs to its end, has issued every
    operation. *)
Lemma runGitOperations_commands env ops h r n :
  runGitOperations env ops h = (r, n) -> r = Val None ->
  gitCommands n = map args ops.
Proof.
  revert h r n. induction ops as [| op ops IH]; intros h r n Hrun Hr.
  - now injection Hrun as <- <-.
  - cbn [runGitOperations] in Hrun.
    inv_bind Hrun H1; [| discriminate]. injection H1 as <- <-.
    inv_bind Hrun H2; [| discriminate].
    rewrite RunGitCommandWithOutput_run in H2.
    destruct (git_CombinedOutput env _ (args op)) as [o' [e' |]]; injection H2 as <- <-.
    + destruct (negb _).
      * injection Hrun as <- <-. discriminate Hr.
      * cbn. f_equal. exact (IH _ _ _ Hrun Hr).
    + assert (Hc : gitCommands (EvGit (args op) o' None :: stdoutOf o') = [args op])
        by (unfold stdoutOf; destruct (0 <? String.length o')%nat; reflexivity).
      rewrite !gitCommands_app, Hc. cbn. f_equal. exact (IH _ _ _ Hrun Hr).
Qed.

Lemma gitCommands_cons x l : gitCommands (x :: l) = (gitCommands [x] ++ gitCommands l)%list.
Proof. unfold gitCommands. cbn [flat_map]. now rewrite app_nil_r. Qed.

Lemma gitCommands_releases env repoInfo h r releases :
  releaseCleanup env repoInfo h = (r, releases) -> gitCommands releases = [].
Proof.
  intros H. apply gitCommands_noGit.
  exact (releases_forall env noGit (fun _ _ _ => eq_refl) _ _ _ _ apiCall_noGit H).
Qed.

Lemma gitCommands_report tags : gitCommands (dryRunReport tags) = [].
Proof. unfold dryRunReport. now destruct (0 <? List.length tags)%nat. Qed.

(** ** The git commands of a run *)

(** X5. A run of ResetRepo in which the tags were listed has issued these git
    commands, in this order: the clone, the five operations, a local deletion
    for every tag and, outside a dry run, a remote deletion for every tag and
    the force push. This holds whatever the deletions and the push answered, and
    whatever happened to the releases. *)
Theorem git_commands_of_a_run env repoInfo commitMessage r tr output :
  ResetRepo env repoInfo commitMessage [] = (r, tr) ->
  In (EvGitOutput ["tag"] output None) tr ->
  gitCommands tr =
  (["clone"; cloneURL repoInfo] :: map args (gitOperations commitMessage)
   ++ map localTagDelete (tagsOfOutput output)
   ++ (if DryRun repoInfo then []
       else map remoteTagDelete (tagsOfOutput output) ++ [forcePush]))%list.
Proof.
  intros Hrun Hin.
  destruct (listed_run _ _ _ _ _ _ Hrun Hin) as (o & c & ops & after & d & Hops & Hafter & ->).
  rewrite gitCommands_app, gitCommands_app, gitCommands_cons, gitCommands_app.
  rewrite gitCommands_cloned, (runGitOperations_commands _ _ _ _ _ Hops eq_refl).
  cbn [app]. f_equal. f_equal.
  change (gitCommands [EvGitOutput ["tag"] output None]) with (@nil (list string)).
  change (gitCommands [EvRemoveAll (tmpPath env) d]) with (@nil (list string)).
  rewrite app_nil_r. cbn [app].
  destruct Hafter as [local Hlocal Hdry | local remote po pe Hlocal Hdry Hremote
                     | local remote po r releases Hlocal Hdry Hremote Hrel];
    rewrite Hdry;
    destruct (localTagCleanup_run _ _ _ _ _ Hlocal) as (_ & Hc & _).
  - now rewrite gitCommands_app, Hc, gitCommands_report.
  - rewrite !gitCommands_app, Hc, (remoteTagCleanup_commands _ _ _ _ _ Hremote). reflexivity.
  - rewrite !gitCommands_app, gitCommands_cons, !gitCommands_app, Hc,
      (remoteTagCleanup_commands _ _ _ _ _ Hremote), gitCommands_stdoutOf,
      (gitCommands_releases _ _ _ _ _ Hrel).
    reflexivity.
Qed.

(** The commands of the repository's own test of a successful reset, with
    two tags on the remote. *)
Lemma git_commands_of_a_run_witness :
  gitCommands (snd (ResetRepo Scenario.twoTags (Scenario.github false) "test commit" [])) =
  [["clone"; "https://github.com/owner/repo.git"];
   ["checkout"; "--orphan"; "temp_branch"]; ["add"; "-A"];
   ["commit"; "-m"; "test commit"]; ["branch"; "-D"; "main"]; ["branch"; "-m"; "main"];
   ["tag"; "-d"; "v1.0.0"]; ["tag"; "-d"; "v1.1.0"];
   ["push"; "origin"; "--delete"; "refs/tags/v1.0.0"];
   ["push"; "origin"; "--delete"; "refs/tags/v1.1.0"];
   ["push"; "-f"; "origin"; "main"]].
Proof.
  refine (git_commands_of_a_run Scenario.twoTags (Scenario.github false) "test commit"
            (fst (ResetRepo Scenario.twoTags (Scenario.github false) "test commit" []))
            (snd (ResetRepo Scenario.twoTags (Scenario.github false) "test commit" []))
            (Scenario.tagLines ["v1.0.0"; "v1.1.0"]) (surjective_pairing _) _).
  vm_compute. do 16 right. left. reflexivity.
Defined.

(** ** What a nil result can hide *)

(** X6. When ResetRepo returns nil, every git command of the run that failed is
    the deletion of one of the listed tags, locally or on the remote: the
    failure of any other command is returned as the error. *)
Theorem a_nil_result_hides_only_tag_failures env repoInfo commitMessage tr a output e :
  ResetRepo env repoInfo commitMessage [] = (Val None, tr) ->
  In (EvGit a output (Some e)) tr ->
  exists listing tag,
    In (EvGitOutput ["tag"] listing None) tr
    /\ In tag (tagsOfOutput listing)
    /\ (a = localTagDelete tag \/ (DryRun repoInfo = false /\ a = remoteTagDelete tag)).
Proof.
  intros Hrun Hin. remember (Val None) as r eqn:Hr.
  exit_paths Hrun; try discriminate Hr;
    split_in Hin; try discriminate Hin;
    try (destruct (@runGitOperations_stops env _ _ _ _ _ _ _
                     (no_operation_is_tolerated commitMessage) Hops Hin)
           as (? & ? & ? & _ & _ & Hstop & _); discriminate Hstop);
    try (not_in_piece noGit apiCall_noGit Hin; fail);
    exists o';
    match goal with
    | Hl : localTagCleanup _ _ _ = (_, ?l), H : In _ ?l |- _ =>
        destruct (local_failures _ _ _ _ _ _ _ _ Hl H) as (tag & Htag & ->);
        exists tag; split; [| split; [exact Htag | now left]]
    | Hl : remoteTagCleanup _ _ _ = (_, ?l), H : In _ ?l |- _ =>
        destruct (remote_failures _ _ _ _ _ _ _ _ Hl H) as (tag & Htag & ->);
        exists tag; split; [| split; [exact Htag | right; now split]]
    end;
    (apply in_or_app; right; apply in_or_app; right; now left).
Qed.

Lemma a_nil_result_hides_only_tag_failures_witness :
  exists listing tag,
    In (EvGitOutput ["tag"] listing None)
      (snd (ResetRepo Faults.firstTagStays (Scenario.github false) "init" []))
    /\ In tag (tagsOfOutput listing)
    /\ (["tag"; "-d"; "v1"] = localTagDelete tag
        \/ (false = false /\ ["tag"; "-d"; "v1"] = remoteTagDelete tag)).
Proof.
  refine (a_nil_result_hides_only_tag_failures Faults.firstTagStays (Scenario.github false)
            "init"
            (snd (ResetRepo Faults.firstTagStays (Scenario.github false) "init" []))
            ["tag"; "-d"; "v1"] "fatal" "exit status 1" _ _).
  - vm_compute. reflexivity.
  - vm_compute. do 19 right. left. reflexivity.
Defined.

(** ** The local tag cleanup *)

(** X7. In every run of ResetRepo in which the tags were listed, the run holds
    the whole local tag cleanup for the listed tags right after the listing: one
    local deletion is attempted for every tag, in order and whatever the earlier
    ones answered, and the tags warned about are exactly those whose local
    deletion failed. *)
Theorem local_tag_failures_do_not_stop_the_run env repoInfo commitMessage r tr output :
  ResetRepo env repoInfo commitMessage [] = (r, tr) ->
  In (EvGitOutput ["tag"] output None) tr ->
  exists before local rest,
    tr = (before ++ EvGitOutput ["tag"] output None :: local ++ rest)%list
    /\ localTagCleanup env (tagsOfOutput output)
         (before ++ [EvGitOutput ["tag"] output None])%list = (Val tt, local)
    /\ localTagDeletes local = tagsOfOutput output
    /\ localTagWarnings local = failedLocalTagDeletes local.
Proof.
  intros Hrun Hin.
  destruct (listed_run _ _ _ _ _ _ Hrun Hin) as (o & c & ops & after & d & Hops & Hafter & ->).
  destruct Hafter as [local Hlocal Hdry | local remote po pe Hlocal Hdry Hremote
                     | local remote po r releases Hlocal Hdry Hremote Hrel];
    destruct (localTagCleanup_run _ _ _ _ _ Hlocal) as (_ & _ & Hd & Hw);
    exists (cloned env repoInfo o c ++ ops)%list, local.
  - exists (dryRunReport (tagsOfOutput output) ++ [EvRemoveAll (tmpPath env) d])%list.
    split; [same_run |]. rewrite <- app_assoc. now split.
  - exists (remote ++ [EvGit forcePush po (Some pe); EvRemoveAll (tmpPath env) d])%list.
    split; [same_run |]. rewrite <- app_assoc. now split.
  - exists (remote ++ EvGit forcePush po None :: stdoutOf po ++ releases
            ++ [EvRemoveAll (tmpPath env) d])%list.
    split; [same_run |]. rewrite <- app_assoc. now split.
Qed.

Lemma local_tag_failures_do_not_stop_the_run_witness :
  exists before local rest,
    snd (ResetRepo Faults.firstTagStays (Scenario.github true) "init" [])
    = (before ++ EvGitOutput ["tag"] (Scenario.tagLines ["v1"; "v2"]) None :: local ++ rest)%list
    /\ localTagCleanup Faults.firstTagStays (tagsOfOutput (Scenario.tagLines ["v1"; "v2"]))
         (before ++ [EvGitOutput ["tag"] (Scenario.tagLines ["v1"; "v2"]) None])%list
       = (Val tt, local)
    /\ localTagDeletes local = tagsOfOutput (Scenario.tagLines ["v1"; "v2"])
    /\ localTagWarnings local = failedLocalTagDeletes local.
Proof.
  refine (local_tag_failures_do_not_stop_the_run Faults.firstTagStays (Scenario.github true)
            "init"
            (fst (ResetRepo Faults.firstTagStays (Scenario.github true) "init" []))
            (snd (ResetRepo Faults.firstTagStays (Scenario.github true) "init" []))
            (Scenario.tagLines ["v1"; "v2"]) (surjective_pairing _) _).
  vm_compute. do 16 right. left. reflexivity.
Defined.

(** ** What a run touches *)

(** X8. Whatever happened before, a run of ResetRepo removes and creates no
    directory but its workspace, changes into no directory but the workspace and
    the clone, prints no usage and starts no prompt. *)
Theorem the_run_touches_only_its_workspace env repoInfo commitMessage h :
  forallb (inWorkspaceOnly env repoInfo) (snd (ResetRepo env repoInfo commitMessage h)) = true.
Proof.
  eapply forallb_impl; [| apply allowed_ResetRepo].
  intros e. destruct e; try reflexivity; try discriminate; intros H; exact H.
Qed.

Lemma targeted_releaseCleanup env repoInfo :
  emits (targeted repoInfo) (releaseCleanup env repoInfo).
Proof.
  unfold releaseCleanup.
  destruct (Provider repoInfo =? GitHub)%Z eqn:Hgh.
  { apply emits_DeleteGitHubReleases; try reflexivity;
      intros; simpl; rewrite Hgh, !String.eqb_refl; reflexivity. }
  destruct (Provider repoInfo =? GitLab)%Z eqn:Hgl; [| apply emits_ret].
  apply returns_emits, returns_DeleteGitLabReleases; try reflexivity;
    intros; simpl; unfold gitLabPath; rewrite Hgl, ?String.eqb_refl; reflexivity.
Qed.

(** X9. Every call of a provider's API in a run of ResetRepo is made outside a
    dry run, after the force push has succeeded, to the API of the target's
    provider and for the target itself. *)
Theorem api_calls_name_the_target env repoInfo commitMessage r tr e :
  ResetRepo env repoInfo commitMessage [] = (r, tr) ->
  In e tr -> apiCall e = true ->
  DryRun repoInfo = false
  /\ targeted repoInfo e = true
  /\ exists before output rest,
       tr = (before ++ EvGit forcePush output None :: rest)%list
       /\ forallb noApi before = true /\ In e rest.
Proof.
  intros Hrun Hin Hapi.
  exit_paths Hrun; destruct e; try discriminate Hapi;
    split_in Hin; try discriminate Hin;
    try (exfalso; eapply not_in_ops; [exact Hops | | exact Hin]; reflexivity);
    try (not_in_piece noApi I Hin; fail);
    (split; [exact Hdry |]);
    (split;
     [ pose proof (@emits_run _ _ _ _ _ _ (targeted_releaseCleanup env repoInfo) Hrel) as Ht;
       rewrite forallb_forall in Ht; exact (Ht _ Hin)
     | exists (cloned env repoInfo o c ++ ops ++ EvGitOutput ["tag"] o' None
               :: local ++ remote)%list, po,
         (stdoutOf po ++ releases ++ [EvRemoveAll (tmpPath env) d])%list;
       split; [same_run |];
       split; [eapply noApi_up_to_the_push; eassumption |];
       apply in_or_app; right; apply in_or_app; now left ]).
Qed.

Lemma api_calls_name_the_target_witness :
  DryRun (Scenario.gitlab false) = false
  /\ targeted (Scenario.gitlab false) (EvGitLabDelete "team/sub/proj" "v1.0.0" None) = true
  /\ exists before output rest,
       snd (ResetRepo Scenario.twoTags (Scenario.gitlab false) "init" [])
       = (before ++ EvGit forcePush output None :: rest)%list
       /\ forallb noApi before = true
       /\ In (EvGitLabDelete "team/sub/proj" "v1.0.0" None) rest.
Proof.
  refine (api_calls_name_the_target Scenario.twoTags (Scenario.gitlab false) "init"
            (fst (ResetRepo Scenario.twoTags (Scenario.gitlab false) "init" []))
            (snd (ResetRepo Scenario.twoTags (Scenario.gitlab false) "init" []))
            (EvGitLabDelete "team/sub/proj" "v1.0.0" None)
            (surjective_pairing _) _ eq_refl).
  vm_compute. do 30 right. left. reflexivity.
Defined.

(** ** The release cleanup in a dry run *)

Lemma noDelete_deleteAttempts n : forallb noDelete n = true -> deleteAttempts n = [].
Proof.
  induction n as [| x n IH]; [reflexivity |]. cbn [forallb]. intros H.
  apply andb_true_iff in H. destruct H as [Hx Hn].
  unfold deleteAttempts in *. cbn [flat_map]. rewrite (IH Hn).
  destruct x; try reflexivity; discriminate Hx.
Qed.

(** The report loop of DeleteGitHubReleases, lines 204-209. *)
Lemma gitHub_report_loop releases h :
  Forall complete releases ->
  forEach releases (fun release =>
    id <- deref (ID release) ;;
    name <- deref (Name release) ;;
    tag <- deref (TagName release) ;;
    println info "- Release %d: %s (tag: %s)\n" [AInt id; AStr name; AStr tag]) h
  = (Val tt, flat_map gitHubReportLine releases).
Proof.
  intros Hc. revert h. induction Hc as [| release releases (Hid & Hname & Htag) _ IH]; intros h.
  - reflexivity.
  - destruct release as [[id |] [name |] [tag |]]; try contradiction.
    cbn [forEach]. unfold bind at 1. cbn. rewrite IH. reflexivity.
Qed.

(** The report loop of DeleteGitLabReleases, lines 248-252. *)
Lemma gitLab_report_loop releases h :
  forEach releases (fun release =>
    println info "- Release: %s (tag: %s)\n"
      [AStr (GLName release); AStr (GLTagName release)]) h
  = (Val tt, map gitLabReportLine releases).
Proof.
  revert h. induction releases as [| release releases IH]; intros h.
  - reflexivity.
  - cbn [forEach]. unfold bind at 1. cbn. rewrite IH. reflexivity.
Qed.

(** X10. Called in a dry run, the release cleanup of either provider deletes
    nothing, whatever the provider lists. DeleteGitLabReleases reports one line
    for every listed release and returns nil; DeleteGitHubReleases does so when
    no listed release has a nil identifier, name or tag. *)
Theorem dry_run_cleanup_deletes_nothing v env repoInfo tr r n :
  DryRun repoInfo = true ->
  deleteReleases v env repoInfo tr = (r, n) ->
  forallb noDelete n = true
  /\ deleteAttempts n = []
  /\ match v with
     | ViaGitHub =>
         forall releases,
           github_ListReleases env tr (FullPath repoInfo) (RepoName repoInfo)
           = inl releases ->
           releases <> [] -> Forall complete releases ->
           r = Val None
           /\ n = ([EvGitHubList (FullPath repoInfo) (RepoName repoInfo) (inl releases);
                    EvPrint info "Found %d releases" [AInt (Z.of_nat (List.length releases))];
                    EvPrint info "\nThe following releases would be deleted:" []]
                   ++ flat_map gitHubReportLine releases)%list
     | ViaGitLab =>
         forall releases,
           gitLabClientReady env repoInfo tr ->
           gitlab_ListReleases env (withClient repoInfo tr) (gitLabPath repoInfo)
           = inl releases ->
           releases <> [] ->
           r = Val None
           /\ n = ([EvGitLabClient (Token repoInfo) (GitLabURL repoInfo) None;
                    EvGitLabList (gitLabPath repoInfo) (inl releases);
                    EvPrint info "Found %d releases" [AInt (Z.of_nat (List.length releases))];
                    EvPrint info "\nThe following releases would be deleted:" []]
                   ++ map gitLabReportLine releases)%list
     end.
Proof.
  intros Hdry Hrun.
  assert (Hq : forallb noDelete n = true).
  { revert Hrun. apply emits_run.
    destruct v; unfold deleteReleases, DeleteGitHubReleases, DeleteGitLabReleases;
      rewrite Hdry; run_steps; auto. }
  split; [exact Hq |]. split; [now apply noDelete_deleteAttempts |].
  destruct v; cbn [deleteReleases] in Hrun.
  - intros releases Hlist Hne Hc.
    unfold DeleteGitHubReleases in Hrun. rewrite Hdry in Hrun.
    unfold bind at 1 in Hrun. unfold Repositories_ListReleases in Hrun. cbv zeta in Hrun.
    rewrite Hlist in Hrun.
    destruct releases as [| release releases]; [contradiction |].
    cbn [List.length Nat.eqb] in Hrun.
    unfold bind at 1 in Hrun. unfold println at 1, emit at 1 in Hrun.
    unfold bind at 1 in Hrun. unfold bind at 1 in Hrun.
    unfold println at 1, emit at 1 in Hrun.
    rewrite (gitHub_report_loop _ _ Hc) in Hrun.
    cbn in Hrun. injection Hrun as <- <-. rewrite app_nil_r. split; reflexivity.
  - intros releases Hclient Hlist Hne.
    unfold DeleteGitLabReleases in Hrun. rewrite Hdry in Hrun.
    unfold bind at 1 in Hrun. unfold newGitLabClient in Hrun. cbv zeta in Hrun.
    unfold gitLabClientReady in Hclient. rewrite Hclient in Hrun.
    unfold bind at 1 in Hrun. unfold Releases_ListReleases in Hrun. cbv zeta in Hrun.
    unfold withClient, gitLabPath in Hlist. rewrite Hlist in Hrun.
    destruct releases as [| release releases]; [contradiction |].
    cbn [List.length Nat.eqb] in Hrun.
    unfold bind at 1 in Hrun. unfold println at 1, emit at 1 in Hrun.
    unfold bind at 1 in Hrun. unfold bind at 1 in Hrun.
    unfold println at 1, emit at 1 in Hrun.
    rewrite gitLab_report_loop in Hrun.
    cbn in Hrun. injection Hrun as <- <-. rewrite app_nil_r. split; reflexivity.
Qed.

Lemma dry_run_cleanup_deletes_nothing_witness :
  deleteAttempts (snd (deleteReleases ViaGitLab Scenario.twoTags (Scenario.gitlab true) []))
  = [].
Proof.
  refine (proj1 (proj2
            (dry_run_cleanup_deletes_nothing ViaGitLab Scenario.twoTags (Scenario.gitlab true)
               []
               (fst (deleteReleases ViaGitLab Scenario.twoTags (Scenario.gitlab true) []))
               (snd (deleteReleases ViaGitLab Scenario.twoTags (Scenario.gitlab true) []))
               eq_refl (surjective_pairing _)))).
Defined.

(** ** Nil pointers in the releases of GitHub *)

(** A loop panics when its body panics on one of the elements, if the body
    panics in no other way. *)
Lemma forEach_panics {A} (P : A -> Prop) (l : list A) (body : A -> M unit) msg :
  (forall x h, P x -> exists n, body x h = (Panic msg, n)) ->
  (forall x h m n, body x h = (Panic m, n) -> m = msg) ->
  Exists P l -> forall h, exists n, forEach l body h = (Panic msg, n).
Proof.
  intros Hp Hmsg Hex. induction Hex as [x l Hx | x l _ IH]; intros h; cbn [forEach].
  - destruct (Hp x h Hx) as (n & Hn). exists n. unfold bind. now rewrite Hn.
  - unfold bind. destruct (body x h) as [[u | m] n1] eqn:Hb.
    + destruct (IH (h ++ n1)%list) as (n & Hn). rewrite Hn. now eexists.
    + rewrite (Hmsg _ _ _ _ Hb). now eexists.
Qed.

(** X11. DeleteGitHubReleases panics whenever GitHub lists a release whose
    identifier is nil, in a dry run and outside one: both loops dereference the
    identifier of every release they reach, and the only way out of a loop
    before its end is a panic. *)
Theorem a_nil_identifier_panics env repoInfo tr releases :
  github_ListReleases env tr (FullPath repoInfo) (RepoName repoInfo) = inl releases ->
  Exists (fun release => ID release = None) releases ->
  exists n,
    DeleteGitHubReleases env repoInfo tr
    = (Panic "invalid memory address or nil pointer dereference", n).
Proof.
  intros Hlist Hex. unfold DeleteGitHubReleases.
  unfold bind at 1. unfold Repositories_ListReleases. cbv zeta. rewrite Hlist.
  destruct releases as [| release releases]; [inversion Hex |].
  cbn [List.length Nat.eqb].
  unfold bind at 1. unfold println at 1, emit at 1.
  unfold bind at 1.
  destruct (DryRun repoInfo).
  - unfold bind at 1. unfold println at 1, emit at 1.
    match goal with
    | |- context [forEach ?l ?body ?h] =>
        destruct (forEach_panics (fun release => ID release = None) l body
                    "invalid memory address or nil pointer dereference"
                    ltac:(intros x h' Hx; unfold bind, deref; rewrite Hx; now eexists)
                    ltac:(intros x h' m n' Hx; cbv beta in Hx; calls_inv; reflexivity)
                    Hex h) as (n & ->)
    end.
    now eexists.
  - match goal with
    | |- context [forEach ?l ?body ?h] =>
        destruct (forEach_panics (fun release => ID release = None) l body
                    "invalid memory address or nil pointer dereference"
                    ltac:(intros x h' Hx; unfold bind, deref; rewrite Hx; now eexists)
                    ltac:(intros x h' m n' Hx; cbv beta in Hx; calls_inv; reflexivity)
                    Hex h) as (n & ->)
    end.
    now eexists.
Qed.

Lemma a_nil_identifier_panics_witness :
  exists n,
    DeleteGitHubReleases Faults.noIdentifier (Scenario.github false) []
    = (Panic "invalid memory address or nil pointer dereference", n).
Proof.
  refine (a_nil_identifier_panics Faults.noIdentifier (Scenario.github false) []
            [ {| ID := None; Name := Some "first"; TagName := Some "v1" |};
              Scenario.release 2%Z "v2" ] eq_refl _).
  apply Exists_cons_hd. reflexivity.
Defined.

(** ** A GitLab client that can not be created *)

Lemma releaseCleanup_client_failure env repoInfo h r n t u e :
  releaseCleanup env repoInfo h = (r, n) ->
  In (EvGitLabClient t u (Some e)) n ->
  r = Val (Some ("failed to create GitLab client: " ++ e))
  /\ n = [EvGitLabClient (Token repoInfo) (GitLabURL repoInfo) (Some e)].
Proof.
  intros Hrun Hin.
  pose proof (@emits_run _ _ _ _ _ _ (targeted_releaseCleanup env repoInfo) Hrun) as Ht.
  rewrite forallb_forall in Ht. specialize (Ht _ Hin). cbn [targeted] in Ht.
  apply andb_true_iff in Ht. destruct Ht as [Ht _].
  apply andb_true_iff in Ht. destruct Ht as [Hgl _].
  unfold releaseCleanup in Hrun.
  destruct (Provider repoInfo =? GitHub)%Z eqn:Hgh.
  { apply Z.eqb_eq in Hgh. apply Z.eqb_eq in Hgl. rewrite Hgh in Hgl. discriminate Hgl. }
  rewrite Hgl in Hrun. unfold DeleteGitLabReleases in Hrun.
  apply bind_inv in Hrun.
  destruct Hrun as [(a & n1 & n2 & H1 & H & ->) | (m & H1 & _)]; [| discriminate H1].
  unfold newGitLabClient in H1. cbv zeta in H1. injection H1 as <- <-.
  destruct (gitlab_NewClient env h (Token repoInfo) (GitLabURL repoInfo)) as [e' |].
  - injection H as <- <-.
    destruct Hin as [Hin | []]. injection Hin as _ _ ->. now split.
  - exfalso. destruct Hin as [Hin | Hin]; [discriminate Hin |].
    revert Hin. apply forallb_In_false with (p := noClientFailure); [| reflexivity].
    revert H. apply emits_run. run_steps; auto.
Qed.

(** X12. When the GitLab client can not be created, ResetRepo returns that
    failure as its error. By then the rewritten history has been pushed; the
    client was the first call of the provider's API, no release is listed or
    deleted, and the run ends with the deferred removal of the workspace. *)
Theorem gitlab_client_failure_is_fatal env repoInfo commitMessage r tr token url e :
  ResetRepo env repoInfo commitMessage [] = (r, tr) ->
  In (EvGitLabClient token url (Some e)) tr ->
  r = Val (Some ("failed to create GitLab client: " ++ e))
  /\ exists before output d,
       tr = (before ++ EvGit forcePush output None :: stdoutOf output
             ++ [EvGitLabClient (Token repoInfo) (GitLabURL repoInfo) (Some e);
                 EvRemoveAll (tmpPath env) d])%list
       /\ forallb noApi before = true.
Proof.
  intros Hrun Hin.
  exit_paths Hrun; split_in Hin; try discriminate Hin;
    try (exfalso; eapply not_in_ops; [exact Hops | | exact Hin]; reflexivity);
    try (not_in_piece noApi I Hin; fail).
  destruct (releaseCleanup_client_failure _ _ _ _ _ _ _ _ Hrel Hin) as [-> ->].
  split; [reflexivity |].
  exists (cloned env repoInfo o c ++ ops ++ EvGitOutput ["tag"] o' None
          :: local ++ remote)%list, po, d.
  split; [same_run |]. eapply noApi_up_to_the_push; eassumption.
Qed.

Lemma gitlab_client_failure_is_fatal_witness :
  fst (ResetRepo Faults.noGitLabClient (Scenario.gitlab false) "init" [])
  = Val (Some ("failed to create GitLab client: "
               ++ "parse https://gitlab example: invalid character in host name")).
Proof.
  refine (proj1 (gitlab_client_failure_is_fatal Faults.noGitLabClient (Scenario.gitlab false)
                   "init"
                   (fst (ResetRepo Faults.noGitLabClient (Scenario.gitlab false) "init" []))
                   (snd (ResetRepo Faults.noGitLabClient (Scenario.gitlab false) "init" []))
                   "token" "https://gitlab.example.com"
                   "parse https://gitlab example: invalid character in host name"
                   (surjective_pairing _) _)).
  vm_compute. do 27 right. left. reflexivity.
Defined.

(** ** Splitting and joining *)

Lemma append_nil_r (s : string) : s ++ "" = s.
Proof. induction s as [| c s IH]; [reflexivity |]. cbn. now rewrite IH. Qed.

Lemma append_assoc (a b c : string) : (a ++ b) ++ c = a ++ b ++ c.
Proof. induction a as [| x a IH]; [reflexivity |]. cbn. now rewrite IH. Qed.

Lemma prefix_char c d s : String.prefix (String c "") (String d s) = Ascii.eqb c d.
Proof.
  cbn. destruct (ascii_dec c d) as [-> | Hne].
  - rewrite Ascii.eqb_refl. now destruct s.
  - symmetry. now apply Ascii.eqb_neq.
Qed.

(** Splitting at a one-byte separator. *)
Lemma split_from_char c cur d s :
  Strings.split_from (String c "") 0 cur (String d s) =
  if Ascii.eqb c d
  then cur :: Strings.split_from (String c "") 0 "" s
  else Strings.split_from (String c "") 0 (cur ++ String d "") s.
Proof.
  cbn [Strings.split_from]. rewrite prefix_char. reflexivity.
Qed.

Lemma split_from_not_nil sep k cur s : Strings.split_from sep k cur s <> [].
Proof.
  revert k cur. induction s as [| d s IH]; intros k cur; cbn [Strings.split_from].
  - discriminate.
  - destruct k; [| apply IH]. destruct (String.prefix sep (String d s)); [discriminate | apply IH].
Qed.

(** Joining the pieces gives the string back. *)
Lemma concat_split_from c cur s :
  String.concat (String c "") (Strings.split_from (String c "") 0 cur s) = cur ++ s.
Proof.
  revert cur. induction s as [| d s IH]; intros cur.
  - cbn. now rewrite append_nil_r.
  - rewrite split_from_char. destruct (Ascii.eqb c d) eqn:Hcd.
    + apply Ascii.eqb_eq in Hcd. subst d.
      specialize (IH ""). pose proof (split_from_not_nil (String c "") 0 "" s) as Hne.
      cbn [String.concat].
      destruct (Strings.split_from (String c "") 0 "" s) as [| p ps]; [contradiction |].
      rewrite IH. reflexivity.
    + rewrite IH, append_assoc. reflexivity.
Qed.

Lemma Join_Split c s : Strings.Join (Strings.Split s (String c "")) (String c "") = s.
Proof. unfold Strings.Join, Strings.Split. apply concat_split_from. Qed.

(** The byte [c] does not occur in [s]. *)
Lemma Contains_char_cons c d s :
  Strings.Contains (String d s) (String c "") = (Ascii.eqb c d || Strings.Contains s (String c ""))%bool.
Proof. cbn [Strings.Contains]. now rewrite prefix_char. Qed.

Lemma Contains_char_app c a b :
  Strings.Contains (a ++ b) (String c "")
  = (Strings.Contains a (String c "") || Strings.Contains b (String c ""))%bool.
Proof.
  induction a as [| d a IH].
  - reflexivity.
  - cbn [String.append]. rewrite !Contains_char_cons, IH. now rewrite orb_assoc.
Qed.

(** No piece holds the separator. *)
Lemma split_from_pieces c cur s :
  Strings.Contains cur (String c "") = false ->
  Forall (fun p => Strings.Contains p (String c "") = false)
    (Strings.split_from (String c "") 0 cur s).
Proof.
  revert cur. induction s as [| d s IH]; intros cur Hcur.
  - now constructor.
  - rewrite split_from_char. destruct (Ascii.eqb c d) eqn:Hcd.
    + constructor; [exact Hcur | now apply IH].
    + apply IH. rewrite Contains_char_app, Hcur, Contains_char_cons, Hcd. reflexivity.
Qed.

Lemma Split_pieces c s :
  Forall (fun p => Strings.Contains p (String c "") = false) (Strings.Split s (String c "")).
Proof. now apply split_from_pieces. Qed.

Lemma concat_snoc sep (l : list string) x :
  l <> [] -> String.concat sep (l ++ [x]) = String.concat sep l ++ sep ++ x.
Proof.
  induction l as [| y l IH]; [contradiction |]. intros _.
  destruct l as [| z l].
  - reflexivity.
  - change (String.concat sep ((y :: z :: l) ++ [x]))
      with (y ++ sep ++ String.concat sep ((z :: l) ++ [x])).
    rewrite IH by discriminate.
    change (String.concat sep (y :: z :: l)) with (y ++ sep ++ String.concat sep (z :: l)).
    now rewrite !append_assoc.
Qed.

(** A list of at least two pieces: all but the last, and the last. *)
Lemma last_piece (l : list string) :
  (2 <= List.length l)%nat ->
  exists init x,
    l = (init ++ [x])%list /\ init <> []
    /\ firstn (List.length l - 1) l = init
    /\ nth (List.length l - 1) l "" = x.
Proof.
  intros Hlen.
  assert (Hne : l <> []) by (destruct l; [cbn in Hlen; lia | discriminate]).
  exists (removelast l), (last l "").
  pose proof (app_removelast_last "" Hne) as Hl.
  assert (Hlen' : List.length l = (List.length (removelast l) + 1)%nat).
  { rewrite Hl at 1. now rewrite length_app. }
  split; [exact Hl |]. split.
  - intros E. rewrite E in Hlen'. cbn in Hlen'. lia.
  - replace (List.length l - 1)%nat with (List.length (removelast l)) by lia.
    split.
    + rewrite Hl at 2. rewrite firstn_app, Nat.sub_diag, firstn_all. cbn. apply app_nil_r.
    + rewrite Hl at 2. apply nth_middle.
Qed.

(** ** From the flags to the target *)

(** Find an event in a run given by its pieces. *)
Ltac find_event :=
  match goal with
  | |- In _ (_ ++ _)%list => apply in_or_app; ((left; find_event) + (right; find_event))
  | |- In _ (_ :: _) => (left; reflexivity) + (right; find_event)
  end.

(** The target main hands to ResetRepo is the one it built before it chose
    the commit message; without [-n] the confirmation prompt has ended with
    the answer yes by then. *)
Lemma chooseCommitMessage_target env flags repoInfo tr repoInfo' commitMessage n :
  chooseCommitMessage env flags repoInfo tr = (Val (Invoke repoInfo' commitMessage), n) ->
  repoInfo' = repoInfo
  /\ (Flags.NoInteractive flags = false ->
      exists question, In (EvTea (ConfirmModel question) (TeaConfirm true)) n).
Proof.
  unfold chooseCommitMessage. intros H.
  destruct (String.eqb (Flags.CommitMsg flags) "") eqn:Hc;
    destruct (Flags.NoInteractive flags) eqn:Hn; cbn [negb] in H; run_inv;
    repeat match goal with
      | H : String.eqb "" "" = false |- _ => discriminate H
      | H : negb ?b = _ |- _ => is_var b; destruct b; try discriminate H
      | H : negb _ = _ |- _ => discriminate H
      end.
  all: try congruence.
  all: split; [reflexivity |]; intros Hi; try discriminate Hi.
  all: eexists; find_event.
Qed.

Lemma beforeReset_target env ToLower flags tr repoInfo commitMessage n :
  beforeReset env ToLower flags tr = (Val (Invoke repoInfo commitMessage), n) ->
  let parts := Strings.Split (Flags.RepoPath flags) "/" in
  Flags.RepoPath flags <> "" /\ Flags.Token flags <> ""
  /\ (2 <= List.length parts)%nat
  /\ FullPath repoInfo = Strings.Join (firstn (List.length parts - 1) parts) "/"
  /\ RepoName repoInfo = nth (List.length parts - 1) parts ""
  /\ Token repoInfo = Flags.Token flags
  /\ DryRun repoInfo = Flags.DryRun flags
  /\ ((ToLower (Flags.Provider flags) = "github"
       /\ Provider repoInfo = GitHub /\ GitLabURL repoInfo = "")
      \/ (ToLower (Flags.Provider flags) = "gitlab"
          /\ Provider repoInfo = GitLab /\ GitLabURL repoInfo = Flags.GitLabURL flags)).
Proof.
  intros H. cbv zeta. unfold beforeReset in H.
  set (parts := Strings.Split (Flags.RepoPath flags) "/") in *.
  apply bind_inv in H. destruct H as [(u & n1 & n2 & H1 & H & ->) | (m & _ & Hm)];
    [| discriminate Hm].
  destruct (String.eqb (Flags.RepoPath flags) "") eqn:Hpath; [cbn [orb] in H; run_inv |].
  destruct (String.eqb (Flags.Token flags) "") eqn:Htoken; [cbn [orb] in H; run_inv |].
  cbn [orb] in H. apply String.eqb_neq in Hpath. apply String.eqb_neq in Htoken.
  destruct (List.length parts <? 2)%nat eqn:Hlen; [run_inv |].
  apply Nat.ltb_ge in Hlen.
  destruct (String.eqb (ToLower (Flags.Provider flags)) "github") eqn:Hgh.
  { apply chooseCommitMessage_target in H. destruct H as [-> _]. apply String.eqb_eq in Hgh.
    repeat (split; [assumption || reflexivity |]). left. now repeat split. }
  destruct (String.eqb (ToLower (Flags.Provider flags)) "gitlab") eqn:Hgl.
  { apply chooseCommitMessage_target in H. destruct H as [-> _]. apply String.eqb_eq in Hgl.
    repeat (split; [assumption || reflexivity |]). right. now repeat split. }
  run_inv.
Qed.

(** X13. When main goes on to the reset, the path and the name of the target put
    the argument of [-r] together again, and the name holds no slash: it is the
    part after the last one. So the project path DeleteGitLabReleases builds is
    the argument itself, and the clone URL is the argument between the host and
    [.git]. *)
Theorem target_path_round_trip env ToLower flags repoInfo commitMessage n :
  beforeReset env ToLower flags [] = (Val (Invoke repoInfo commitMessage), n) ->
  FullPath repoInfo ++ "/" ++ RepoName repoInfo = Flags.RepoPath flags
  /\ Strings.Contains (RepoName repoInfo) "/" = false
  /\ gitLabPath repoInfo = Flags.RepoPath flags
  /\ cloneURL repoInfo =
     (if (Provider repoInfo =? GitHub)%Z then "https://github.com"
      else Flags.GitLabURL flags) ++ "/" ++ Flags.RepoPath flags ++ ".git".
Proof.
  intros H. apply beforeReset_target in H. cbv zeta in H.
  destruct H as (_ & _ & Hlen & Hfull & Hname & _ & _ & Hprov).
  destruct (last_piece _ Hlen) as (init & x & Hl & Hne & Hinit & Hx).
  rewrite Hinit in Hfull. rewrite Hx in Hname.
  assert (Hjoin : FullPath repoInfo ++ "/" ++ RepoName repoInfo = Flags.RepoPath flags).
  { rewrite Hfull, Hname. unfold Strings.Join. rewrite <- concat_snoc by exact Hne.
    rewrite <- Hl. apply (Join_Split "/"%char). }
  split; [exact Hjoin |]. split; [| split; [exact Hjoin |]].
  - pose proof (Split_pieces "/"%char (Flags.RepoPath flags)) as Hp.
    rewrite Hl in Hp. apply Forall_app in Hp. destruct Hp as [_ Hp].
    rewrite Hname. now inversion Hp.
  - unfold cloneURL.
    destruct Hprov as [(_ & -> & _) | (_ & -> & ->)]; cbn [Z.eqb GitHub GitLab];
      rewrite <- Hjoin, !append_assoc; reflexivity.
Qed.

Lemma target_path_round_trip_witness :
  FullPath (Scenario.gitlab true) ++ "/" ++ RepoName (Scenario.gitlab true) = "team/sub/proj"
  /\ Strings.Contains (RepoName (Scenario.gitlab true)) "/" = false
  /\ gitLabPath (Scenario.gitlab true) = "team/sub/proj"
  /\ cloneURL (Scenario.gitlab true) = "https://gitlab.example.com/team/sub/proj.git".
Proof.
  refine (target_path_round_trip Scenario.bare Scenario.asciiToLower Scenario.batch
            (Scenario.gitlab true) "Initial commit"
            (snd (beforeReset Scenario.bare Scenario.asciiToLower Scenario.batch [])) _).
  vm_compute. reflexivity.
Defined.

(** X14. main goes on to the reset only with a repository path and a token that
    are not empty, and with a provider that is "github" or "gitlab" once in
    lower case; the target then carries the token and the dry-run flag as given,
    the matching provider constant, and the GitLab URL only for GitLab. *)
Theorem the_target_comes_from_the_flags env ToLower flags repoInfo commitMessage n :
  beforeReset env ToLower flags [] = (Val (Invoke repoInfo commitMessage), n) ->
  Flags.RepoPath flags <> "" /\ Flags.Token flags <> ""
  /\ Token repoInfo = Flags.Token flags
  /\ DryRun repoInfo = Flags.DryRun flags
  /\ ((ToLower (Flags.Provider flags) = "github"
       /\ Provider repoInfo = GitHub /\ GitLabURL repoInfo = "")
      \/ (ToLower (Flags.Provider flags) = "gitlab"
          /\ Provider repoInfo = GitLab /\ GitLabURL repoInfo = Flags.GitLabURL flags)).
Proof.
  intros H. apply beforeReset_target in H. cbv zeta in H.
  destruct H as (Hpath & Htoken & _ & _ & _ & Ht & Hd & Hprov).
  repeat (split; [assumption |]). exact Hprov.
Qed.

Lemma the_target_comes_from_the_flags_witness :
  Flags.RepoPath Scenario.batch <> "" /\ Flags.Token Scenario.batch <> ""
  /\ Token (Scenario.gitlab true) = Flags.Token Scenario.batch
  /\ DryRun (Scenario.gitlab true) = Flags.DryRun Scenario.batch
  /\ ((Scenario.asciiToLower (Flags.Provider Scenario.batch) = "github"
       /\ Provider (Scenario.gitlab true) = GitHub /\ GitLabURL (Scenario.gitlab true) = "")
      \/ (Scenario.asciiToLower (Flags.Provider Scenario.batch) = "gitlab"
          /\ Provider (Scenario.gitlab true) = GitLab
          /\ GitLabURL (Scenario.gitlab true) = Flags.GitLabURL Scenario.batch)).
Proof.
  refine (the_target_comes_from_the_flags Scenario.bare Scenario.asciiToLower Scenario.batch
            (Scenario.gitlab true) "Initial commit"
            (snd (beforeReset Scenario.bare Scenario.asciiToLower Scenario.batch [])) _).
  vm_compute. reflexivity.
Defined.

(** ** Confirmation *)

Lemma noPrompt_batch env ToLower flags :
  Flags.NoInteractive flags = true -> emits noPrompt (beforeReset env ToLower flags).
Proof.
  intros Hn. unfold beforeReset, chooseCommitMessage, ShowLogo. rewrite Hn. cbn [negb].
  run_steps; reflexivity.
Qed.

(** X15. With [-n] main starts no prompt, and it never leaves with status 0
    before the reset. Without [-n] it goes on to the reset only after the
    confirmation prompt ended with the answer yes. *)
Theorem no_reset_without_confirmation env ToLower flags r n :
  beforeReset env ToLower flags [] = (r, n) ->
  if Flags.NoInteractive flags
  then forallb noPrompt n = true /\ r <> Val (Exit 0)
  else forall repoInfo commitMessage,
         r = Val (Invoke repoInfo commitMessage) ->
         exists question, In (EvTea (ConfirmModel question) (TeaConfirm true)) n.
Proof.
  intros H. destruct (Flags.NoInteractive flags) eqn:Hn.
  - split; [exact (@emits_run _ _ _ _ _ _ (noPrompt_batch env ToLower flags Hn) H) |].
    intros Hr. subst r. unfold beforeReset, chooseCommitMessage in H.
    rewrite Hn in H. cbn [negb] in H.
    destruct (String.eqb (Flags.CommitMsg flags) ""); cbn [negb] in H; run_inv.
  - intros repoInfo commitMessage ->.
    unfold beforeReset in H.
    apply bind_inv in H. destruct H as [(u & n1 & n2 & H1 & H & ->) | (m & _ & Hm)];
      [| discriminate Hm].
    destruct (_ || _)%bool; [run_inv |].
    destruct (_ <? 2)%nat; [run_inv |].
    destruct (String.eqb (ToLower (Flags.Provider flags)) "github").
    { apply chooseCommitMessage_target in H. destruct H as [_ H].
      destruct (H Hn) as (question & Hq). exists question.
      apply in_or_app. now right. }
    destruct (String.eqb (ToLower (Flags.Provider flags)) "gitlab"); [| run_inv].
    apply chooseCommitMessage_target in H. destruct H as [_ H].
    destruct (H Hn) as (question & Hq). exists question.
    apply in_or_app. now right.
Qed.

Lemma no_reset_without_confirmation_witness :
  exists question,
    In (EvTea (ConfirmModel question) (TeaConfirm true))
      (snd (beforeReset Scenario.twoTags Scenario.asciiToLower Scenario.interactive [])).
Proof.
  refine (no_reset_without_confirmation Scenario.twoTags Scenario.asciiToLower
            Scenario.interactive
            (fst (beforeReset Scenario.twoTags Scenario.asciiToLower Scenario.interactive []))
            (snd (beforeReset Scenario.twoTags Scenario.asciiToLower Scenario.interactive []))
            (surjective_pairing _) (Scenario.github false) "fresh start" _).
  vm_compute. reflexivity.
Defined.

(** ** The dry-run flag, from main to the remote *)

Lemma noRemoteCall_beforeReset env ToLower flags :
  emits noRemoteCall (beforeReset env ToLower flags).
Proof.
  unfold beforeReset, chooseCommitMessage, ShowLogo, PromptConfirmation, PromptCommitMessage.
  run_steps; reflexivity.
Qed.

(** X16. With [-d], a run of main makes no push and no call of a provider's API,
    whatever the environment answers and however the run ends: the flag reaches
    ResetRepo as the target's dry-run field, and neither main itself nor a dry
    run of ResetRepo reaches the remote beyond the clone. *)
Theorem dry_run_flag_keeps_the_remote_untouched env ToLower flags r n :
  Flags.DryRun flags = true ->
  main env ToLower flags [] = (r, n) ->
  forallb noRemoteCall n = true.
Proof.
  intros Hdry H. unfold main in H.
  apply bind_inv in H. destruct H as [(dec & n1 & n2 & H1 & H & ->) | (m & H1 & _)].
  - rewrite forallb_app.
    rewrite (@emits_run _ _ _ _ _ _ (noRemoteCall_beforeReset env ToLower flags) H1).
    destruct dec as [code | repoInfo commitMessage].
    + now injection H as <- <-.
    + apply beforeReset_target in H1. cbv zeta in H1.
      destruct H1 as (_ & _ & _ & _ & _ & _ & Hd & _). rewrite Hdry in Hd.
      assert (Hreset : forall h r' n', ResetRepo env repoInfo commitMessage h = (r', n') ->
                                       forallb noRemoteCall n' = true).
      { intros h r' n' Hrun.
        pose proof (allowed_ResetRepo env repoInfo commitMessage h) as Ha.
        rewrite Hrun in Ha. cbn [snd] in Ha.
        eapply forallb_impl; [| exact Ha]. intros e He. unfold noRemoteCall.
        now rewrite (@allowed_dry_run env repoInfo commitMessage e Hd He). }
      apply bind_inv in H. destruct H as [(err & n3 & n4 & H2 & H & ->) | (m & H2 & _)];
        [| exact (Hreset _ _ _ H2)].
      cbn [andb]. rewrite forallb_app, (Hreset _ _ _ H2). cbn [andb].
      destruct err as [e |]; [| rewrite Hdry in H]; run_inv; reflexivity.
  - exact (@emits_run _ _ _ _ _ _ (noRemoteCall_beforeReset env ToLower flags) H1).
Qed.

Lemma dry_run_flag_keeps_the_remote_untouched_witness :
  forallb noRemoteCall (snd (main Scenario.twoTags Scenario.asciiToLower Scenario.batch []))
  = true.
Proof.
  refine (dry_run_flag_keeps_the_remote_untouched Scenario.twoTags Scenario.asciiToLower
            Scenario.batch
            (fst (main Scenario.twoTags Scenario.asciiToLower Scenario.batch []))
            (snd (main Scenario.twoTags Scenario.asciiToLower Scenario.batch []))
            eq_refl (surjective_pairing _)).
Defined.

(** ** The tags GetGitTags returns *)

(** X17. When GetGitTags returns without an error, the tags are the lines of the
    trimmed output of [git tag]: joined by line feeds they give the trimmed
    output back, no tag holds a line feed, the result is empty exactly when the
    trimmed output is, and it is never the one empty tag that splitting the
    empty string gives. *)
Theorem tags_are_the_lines_of_the_listing env tr tags n :
  GetGitTags env tr = (Val (tags, None), n) ->
  exists output,
    n = [EvGitOutput ["tag"] output None]
    /\ Strings.Join tags Strings.LF = Strings.TrimSpace output
    /\ Forall (fun t => Strings.Contains t Strings.LF = false) tags
    /\ tags <> [""]
    /\ (tags = [] <-> Strings.TrimSpace output = "").
Proof.
  rewrite GetGitTags_run. destruct (git_Output env tr ["tag"]) as [o [e |]]; [discriminate |].
  intros H. injection H as <- <-. exists o. split; [reflexivity |].
  pose proof (Join_Split "010"%char (Strings.TrimSpace o)) as Hjoin.
  pose proof (Split_pieces "010"%char (Strings.TrimSpace o)) as Hpieces.
  pose proof (split_from_not_nil (String "010"%char "") 0 "" (Strings.TrimSpace o)) as Hne.
  unfold tagsOfOutput, Strings.LF, Strings.Split in *.
  destruct (Strings.split_from (String "010"%char "") 0 "" (Strings.TrimSpace o))
    as [| p [| q rest]]; [contradiction | |].
  - cbn [List.length Nat.eqb nth andb]. destruct (String.eqb p "") eqn:Hp.
    + apply String.eqb_eq in Hp. subst p. cbn in Hjoin.
      repeat split; try constructor; try discriminate; auto.
    + apply String.eqb_neq in Hp.
      split; [exact Hjoin |]. split; [exact Hpieces |].
      split; [intros E; injection E as E; contradiction |].
      split; [discriminate |]. intros E. cbn in Hjoin. congruence.
  - cbn [List.length Nat.eqb andb].
    split; [exact Hjoin |]. split; [exact Hpieces |].
    split; [discriminate |]. split; [discriminate |].
    intros E. rewrite E in Hjoin. unfold Strings.Join in Hjoin.
    cbn [String.concat] in Hjoin.
    destruct p; [| discriminate Hjoin]. cbn in Hjoin. discriminate Hjoin.
Qed.

Lemma tags_are_the_lines_of_the_listing_witness :
  exists output,
    [EvGitOutput ["tag"] (Scenario.tagLines ["v1.0.0"; "v1.1.0"]) None]
    = [EvGitOutput ["tag"] output None]
    /\ Strings.Join ["v1.0.0"; "v1.1.0"] Strings.LF = Strings.TrimSpace output
    /\ Forall (fun t => Strings.Contains t Strings.LF = false) ["v1.0.0"; "v1.1.0"]
    /\ ["v1.0.0"; "v1.1.0"] <> [""]
    /\ (["v1.0.0"; "v1.1.0"] = [] <-> Strings.TrimSpace output = "").
Proof.
  refine (tags_are_the_lines_of_the_listing Scenario.twoTags [] ["v1.0.0"; "v1.1.0"]
            [EvGitOutput ["tag"] (Scenario.tagLines ["v1.0.0"; "v1.1.0"]) None] _).
  vm_compute. reflexivity.
Defined.

(** ** From the output of [git tag] back to the tags *)

Lemma length_append (a b : string) :
  String.length (a ++ b) = (String.length a + String.length b)%nat.
Proof. induction a as [| c a IH]; [reflexivity |]. cbn. now rewrite IH. Qed.

Lemma drop_append (a b : string) : Strings.drop (String.length a) (a ++ b) = b.
Proof. induction a as [| c a IH]; [now destruct b |]. exact IH. Qed.

Lemma substring_append (a b : string) : String.substring 0 (String.length a) (a ++ b) = a.
Proof.
  induction a as [| c a IH]; [now destruct b |]. cbn. now rewrite IH.
Qed.

Lemma ascii7_append a b : ascii7 (a ++ b) = (ascii7 a && ascii7 b)%bool.
Proof.
  induction a as [| c a IH]; [reflexivity |].
  cbn [String.append ascii7]. now rewrite IH, andb_assoc.
Qed.

Lemma ascii7_drop k s : ascii7 s = true -> ascii7 (Strings.drop k s) = true.
Proof.
  revert s. induction k as [| k IH]; intros s H; [now destruct s |].
  destruct s as [| c s]; [reflexivity |]. cbn [ascii7 Strings.drop] in *.
  apply andb_true_iff in H. now apply IH.
Qed.

Lemma plainByte_asciiByte c : plainByte c = true -> asciiByte c = true.
Proof.
  unfold plainByte, asciiByte. intros H. apply andb_true_iff in H. destruct H as [_ H].
  apply Nat.leb_le in H. apply Nat.ltb_lt. lia.
Qed.

Lemma plain_ascii7 s : plain s = true -> ascii7 s = true.
Proof.
  induction s as [| c s IH]; [reflexivity |]. cbn [plain ascii7]. intros H.
  apply andb_true_iff in H. destruct H as [Hc Hs].
  now rewrite (plainByte_asciiByte _ Hc), IH.
Qed.

(** A string of ASCII starts with a white-space rune of one byte or with
    none; a plain byte is none. *)
Lemma leadingSpace_ascii7 s : ascii7 s = true -> (Strings.leadingSpace s <= 1)%nat.
Proof.
  destruct s as [| c s]; [cbn; lia |]. cbn [ascii7]. intros H.
  apply andb_true_iff in H. destruct H as [Hc _].
  destruct c as [[] [] [] [] [] [] [] []]; try discriminate Hc;
    vm_compute; repeat constructor.
Qed.

Lemma leadingSpace_plain c s : plainByte c = true -> Strings.leadingSpace (String c s) = 0%nat.
Proof.
  intros Hc.
  destruct c as [[] [] [] [] [] [] [] []]; try discriminate Hc;
    vm_compute; reflexivity.
Qed.

Lemma trimLeft_plain fuel c s :
  plainByte c = true -> Strings.trimLeft fuel (String c s) = String c s.
Proof.
  intros Hc. destruct fuel; [reflexivity |].
  cbn [Strings.trimLeft]. now rewrite (leadingSpace_plain c s Hc).
Qed.

(** Nothing is trimmed from the right of a string of ASCII that ends with a
    plain byte. *)
Lemma trailingSpace_plain s :
  ascii7 s = true -> endsPlain s -> Strings.trailingSpace s = 0%nat.
Proof.
  intros H7 (a & c & -> & Hc). unfold Strings.trailingSpace.
  assert (H1 : Strings.leadingSpace
                 (Strings.drop (String.length (a ++ String c "") - 1) (a ++ String c ""))
               = 0%nat).
  { rewrite length_append. cbn [String.length].
    replace (String.length a + 1 - 1)%nat with (String.length a) by lia.
    rewrite drop_append. now apply leadingSpace_plain. }
  rewrite H1.
  assert (Hle : forall k, (Strings.leadingSpace (Strings.drop k (a ++ String c "")) <= 1)%nat)
    by (intros k; now apply leadingSpace_ascii7, ascii7_drop).
  pose proof (Hle (String.length (a ++ String c "") - 2)%nat) as H2.
  pose proof (Hle (String.length (a ++ String c "") - 3)%nat) as H3.
  destruct (Strings.leadingSpace
              (Strings.drop (String.length (a ++ String c "") - 2) (a ++ String c "")))
    as [| [| ?]]; [| | lia];
    destruct (Strings.leadingSpace
                (Strings.drop (String.length (a ++ String c "") - 3) (a ++ String c "")))
      as [| [| ?]]; try lia;
    cbn [Nat.eqb]; rewrite ?andb_false_r; reflexivity.
Qed.

Lemma trimRight_plain fuel s :
  ascii7 s = true -> endsPlain s -> Strings.trimRight fuel s = s.
Proof.
  intros H7 He. destruct fuel; [reflexivity |].
  cbn [Strings.trimRight]. now rewrite trailingSpace_plain.
Qed.

(** One line feed is trimmed from the right of such a string. *)
Lemma trimRight_line fuel s :
  ascii7 s = true -> endsPlain s ->
  Strings.trimRight (S fuel) (s ++ Strings.LF) = s.
Proof.
  intros H7 He. cbn [Strings.trimRight].
  assert (Ht : Strings.trailingSpace (s ++ Strings.LF) = 1%nat).
  { unfold Strings.trailingSpace. rewrite length_append. cbn [String.length Strings.LF].
    replace (String.length s + 1 - 1)%nat with (String.length s) by lia.
    rewrite drop_append.
    replace (1 <=? String.length s + 1)%nat with true by (symmetry; apply Nat.leb_le; lia).
    reflexivity. }
  rewrite Ht, length_append. cbn [String.length Strings.LF].
  replace (String.length s + 1 - 1)%nat with (String.length s) by lia.
  rewrite substring_append. now apply trimRight_plain.
Qed.

Lemma TrimSpace_lines c s :
  plainByte c = true -> ascii7 (String c s) = true -> endsPlain (String c s) ->
  Strings.TrimSpace (String c s ++ Strings.LF) = String c s.
Proof.
  intros Hc H7 He. unfold Strings.TrimSpace.
  change (String c s ++ Strings.LF) with (String c (s ++ Strings.LF)).
  rewrite trimLeft_plain by exact Hc.
  change (String c (s ++ Strings.LF)) with (String c s ++ Strings.LF).
  rewrite length_append. cbn [String.length Strings.LF].
  replace (S (String.length s) + 1)%nat with (S (S (String.length s))) by lia.
  now apply trimRight_line.
Qed.

(** Splitting what was joined gives the pieces back, when no piece holds
    the separator. *)
Lemma split_from_piece c cur x :
  Strings.Contains x (String c "") = false ->
  Strings.split_from (String c "") 0 cur x = [cur ++ x].
Proof.
  revert cur. induction x as [| d x IH]; intros cur Hx.
  - cbn. now rewrite append_nil_r.
  - rewrite Contains_char_cons in Hx. apply orb_false_iff in Hx. destruct Hx as [Hcd Hx].
    rewrite split_from_char, Hcd, IH by exact Hx. now rewrite append_assoc.
Qed.

Lemma split_from_piece_sep c cur x rest :
  Strings.Contains x (String c "") = false ->
  Strings.split_from (String c "") 0 cur (x ++ String c rest)
  = (cur ++ x) :: Strings.split_from (String c "") 0 "" rest.
Proof.
  revert cur. induction x as [| d x IH]; intros cur Hx.
  - cbn [String.append]. rewrite split_from_char, Ascii.eqb_refl. now rewrite append_nil_r.
  - rewrite Contains_char_cons in Hx. apply orb_false_iff in Hx. destruct Hx as [Hcd Hx].
    cbn [String.append]. rewrite split_from_char, Hcd, IH by exact Hx.
    now rewrite append_assoc.
Qed.

Lemma Split_Join c (l : list string) :
  l <> [] ->
  Forall (fun p => Strings.Contains p (String c "") = false) l ->
  Strings.Split (Strings.Join l (String c "")) (String c "") = l.
Proof.
  unfold Strings.Split, Strings.Join.
  induction l as [| x l IH]; [contradiction |]. intros _ Hl.
  inversion Hl as [| ? ? Hx Hl']; subst.
  destruct l as [| y l].
  - cbn [String.concat]. now rewrite split_from_piece.
  - change (String.concat (String c "") (x :: y :: l))
      with (x ++ String c (String.concat (String c "") (y :: l))).
    rewrite split_from_piece_sep by exact Hx. cbn [String.append].
    now rewrite IH.
Qed.

Lemma plain_no_line_feed t : plain t = true -> Strings.Contains t Strings.LF = false.
Proof.
  unfold Strings.LF. induction t as [| c t IH]; [reflexivity |]. cbn [plain]. intros H.
  apply andb_true_iff in H. destruct H as [Hc Ht].
  rewrite Contains_char_cons, (IH Ht), orb_false_r.
  destruct c as [[] [] [] [] [] [] [] []]; try discriminate Hc; reflexivity.
Qed.

Lemma endsPlain_append a t : endsPlain t -> endsPlain (a ++ t).
Proof.
  intros (b & c & -> & Hc). exists (a ++ b), c. now rewrite append_assoc.
Qed.

Lemma plainTag_endsPlain t : plainTag t = true -> endsPlain t.
Proof.
  unfold plainTag. intros H. apply andb_true_iff in H. destruct H as [Hne Hp].
  destruct t as [| c t]; [discriminate Hne |]. clear Hne.
  revert c Hp. induction t as [| d t IH]; intros c Hp; cbn [plain] in Hp;
    apply andb_true_iff in Hp; destruct Hp as [Hc Hp].
  - now exists "", c.
  - apply (endsPlain_append (String c "")). now apply IH.
Qed.

(** The output of [git tag] for the given tags: one line for each. *)
Lemma tagLines_Join (tags : list string) :
  tags <> [] -> Scenario.tagLines tags = Strings.Join tags Strings.LF ++ Strings.LF.
Proof.
  unfold Scenario.tagLines, Strings.Join.
  induction tags as [| t tags IH]; [contradiction |]. intros _.
  destruct tags as [| u tags].
  - cbn. reflexivity.
  - change (String.concat "" (map (fun t0 => t0 ++ Strings.LF) (t :: u :: tags)))
      with ((t ++ Strings.LF) ++ ""
            ++ String.concat "" (map (fun t0 => t0 ++ Strings.LF) (u :: tags))).
    rewrite IH by discriminate.
    change (String.concat Strings.LF (t :: u :: tags))
      with (t ++ Strings.LF ++ String.concat Strings.LF (u :: tags)).
    cbn [String.append]. now rewrite !append_assoc.
Qed.

Lemma Join_plain (tags : list string) :
  tags <> [] -> Forall (fun t => plainTag t = true) tags ->
  ascii7 (Strings.Join tags Strings.LF) = true
  /\ endsPlain (Strings.Join tags Strings.LF)
  /\ exists c s, Strings.Join tags Strings.LF = String c s /\ plainByte c = true.
Proof.
  unfold Strings.Join.
  induction tags as [| t tags IH]; [contradiction |]. intros _ Hl.
  inversion Hl as [| ? ? Ht Hl']; subst.
  pose proof (plainTag_endsPlain _ Ht) as Hend.
  unfold plainTag in Ht. apply andb_true_iff in Ht. destruct Ht as [Hne Hp].
  destruct t as [| c t]; [discriminate Hne |].
  assert (Hc : plainByte c = true) by (cbn [plain] in Hp; now apply andb_true_iff in Hp).
  destruct tags as [| u tags].
  - cbn [String.concat]. split; [now apply plain_ascii7 |]. split; [exact Hend |].
    now exists c, t.
  - destruct (IH ltac:(discriminate) Hl') as (H7 & He & _).
    change (String.concat Strings.LF (String c t :: u :: tags))
      with (String c t ++ Strings.LF ++ String.concat Strings.LF (u :: tags)).
    split; [| split].
    + rewrite !ascii7_append, (plain_ascii7 _ Hp), H7. reflexivity.
    + rewrite <- append_assoc. now apply endsPlain_append.
    + eexists c, _. split; [reflexivity | exact Hc].
Qed.

(** X18. When [git tag] prints the tags one on a line, GetGitTags returns these
    tags, in the order of the lines: for tag names that are not empty and made
    of printable ASCII without spaces. *)
Theorem listed_tags_round_trip env tr tags :
  Forall (fun t => plainTag t = true) tags ->
  git_Output env tr ["tag"] = (Scenario.tagLines tags, None) ->
  GetGitTags env tr = (Val (tags, None), [EvGitOutput ["tag"] (Scenario.tagLines tags) None]).
Proof.
  intros Hl Hout. rewrite GetGitTags_run, Hout. f_equal. f_equal. f_equal.
  destruct tags as [| t tags]; [reflexivity |].
  assert (Hne : t :: tags <> []) by discriminate.
  destruct (Join_plain _ Hne Hl) as (H7 & He & c & s & Hjoin & Hc).
  unfold tagsOfOutput. rewrite (tagLines_Join _ Hne).
  rewrite Hjoin in H7, He |- *. rewrite (TrimSpace_lines c s Hc H7 He), <- Hjoin.
  unfold Strings.LF.
  rewrite Split_Join; [| exact Hne |].
  - destruct tags as [| u tags]; [| reflexivity].
    cbn [List.length Nat.eqb nth andb].
    inversion Hl as [| ? ? Ht _]; subst. unfold plainTag in Ht.
    apply andb_true_iff in Ht. destruct Ht as [Hn _].
    destruct (String.eqb t ""); [discriminate Hn | reflexivity].
  - eapply Forall_impl; [| exact Hl]. intros x Hx. cbv beta in Hx. unfold plainTag in Hx.
    apply andb_true_iff in Hx. destruct Hx as [_ Hx].
    exact (plain_no_line_feed _ Hx).
Qed.

Lemma listed_tags_round_trip_witness :
  GetGitTags Scenario.secondTagStays []
  = (Val (["v1"; "v2"; "v3"], None),
     [EvGitOutput ["tag"] (Scenario.tagLines ["v1"; "v2"; "v3"]) None]).
Proof.
  refine (listed_tags_round_trip Scenario.secondTagStays [] ["v1"; "v2"; "v3"] _ eq_refl).
  repeat constructor.
Defined.

(** ** The models of the prompts *)

Section CommitModelFacts.

Variable textinput_Model : Type.
Variable Value : textinput_Model -> string.
Variable InputCmd : Type.
Variable textinput_Update : textinput_Model -> UI.Msg -> textinput_Model * InputCmd.

Lemma Commit_Update_Done m msg :
  UI.Commit.Done (fst (UI.Commit.Update Value textinput_Update m msg)) = true ->
  UI.Commit.Done m = true
  \/ (exists k, msg = UI.Key k /\ UI.keyType k = UI.KeyEnter)
     /\ Value (UI.Commit.TextInput m) <> ""
     /\ UI.Commit.Update Value textinput_Update m msg
        = ({| UI.Commit.TextInput := UI.Commit.TextInput m; UI.Commit.Err := UI.Commit.Err m;
              UI.Commit.Done := true |}, UI.Quit).
Proof.
  unfold UI.Commit.Update, UI.Commit.forward.
  destruct msg as [k | e |].
  - destruct (UI.keyType k) eqn:Hk.
    + destruct (String.eqb (Value (UI.Commit.TextInput m)) "") eqn:Hv; cbn [negb].
      * destruct (textinput_Update (UI.Commit.TextInput m) (UI.Key k)). cbn. now left.
      * intros _. right. apply String.eqb_neq in Hv. split; [now exists k |]. now split.
    + cbn. now left.
    + cbn. now left.
    + destruct (textinput_Update (UI.Commit.TextInput m) (UI.Key k)). cbn. now left.
  - cbn. now left.
  - destruct (textinput_Update (UI.Commit.TextInput m) UI.Other). cbn. now left.
Qed.

(** X19. Whatever messages arrive, and in whatever order, and whatever the text
    input does with them, the commit prompt is done only if it was done at the
    start or Enter was pressed at a moment when the text input held a value that
    is not empty. *)
Theorem commit_prompt_is_done_by_enter_on_a_value m msgs :
  UI.Commit.Done (UI.after (UI.Commit.Update Value textinput_Update) m msgs) = true ->
  UI.Commit.Done m = true
  \/ exists before k rest,
       msgs = (before ++ UI.Key k :: rest)%list
       /\ UI.keyType k = UI.KeyEnter
       /\ Value (UI.Commit.TextInput
                   (UI.after (UI.Commit.Update Value textinput_Update) m before)) <> "".
Proof.
  unfold UI.after. revert m. induction msgs as [| msg msgs IH] using rev_ind; intros m.
  - cbn. now left.
  - rewrite fold_left_app. cbn [fold_left]. intros H.
    apply Commit_Update_Done in H. destruct H as [H | ((k & -> & Hk) & Hv & _)].
    + destruct (IH _ H) as [Hm | (before & k & rest & -> & Hk & Hv)]; [now left |].
      right. exists before, k, (rest ++ [msg])%list.
      split; [now rewrite <- app_assoc | now split].
    + right. exists msgs, k, []. now split.
Qed.

End CommitModelFacts.

Lemma commit_prompt_is_done_by_enter_on_a_value_witness :
  UI.Commit.Done UI.Typing.start = true
  \/ exists before k rest,
       UI.Typing.fixEnter = (before ++ UI.Key k :: rest)%list
       /\ UI.keyType k = UI.KeyEnter
       /\ UI.Typing.Value
            (UI.Commit.TextInput
               (UI.after (UI.Commit.Update UI.Typing.Value UI.Typing.Update)
                  UI.Typing.start before)) <> "".
Proof.
  refine (commit_prompt_is_done_by_enter_on_a_value string UI.Typing.Value unit
            UI.Typing.Update UI.Typing.start UI.Typing.fixEnter _).
  reflexivity.
Defined.

Lemma Confirm_Update_step m msg :
  let m' := fst (UI.Confirm.Update m msg) in
  UI.Confirm.Question m' = UI.Confirm.Question m
  /\ (UI.Confirm.Answer m' = true -> UI.Confirm.yes msg = true \/ UI.Confirm.Answer m = true)
  /\ ((UI.Confirm.Answer m = true -> UI.Confirm.Done m = true) ->
      UI.Confirm.Answer m' = true -> UI.Confirm.Done m' = true)
  /\ (UI.Confirm.yes msg = true -> UI.Confirm.Answer m' = true).
Proof.
  cbv zeta. unfold UI.Confirm.Update, UI.Confirm.yes.
  destruct msg as [k | e |]; cbn [fst]; try (repeat split; auto; discriminate).
  destruct (String.eqb (UI.keyString k) "y" || String.eqb (UI.keyString k) "Y")%bool;
    cbn [fst UI.Confirm.Question UI.Confirm.Answer UI.Confirm.Done];
    [repeat split; auto |].
  destruct (_ || _)%bool;
    cbn [fst UI.Confirm.Question UI.Confirm.Answer UI.Confirm.Done];
    repeat split; auto; discriminate.
Qed.

Lemma Confirm_after m msgs :
  let m' := UI.after UI.Confirm.Update m msgs in
  UI.Confirm.Question m' = UI.Confirm.Question m
  /\ (UI.Confirm.Answer m' = true ->
      existsb UI.Confirm.yes msgs = true \/ UI.Confirm.Answer m = true)
  /\ ((UI.Confirm.Answer m = true -> UI.Confirm.Done m = true) ->
      UI.Confirm.Answer m' = true -> UI.Confirm.Done m' = true).
Proof.
  cbv zeta. unfold UI.after. revert m. induction msgs as [| msg msgs IH]; intros m.
  - cbn. repeat split; auto.
  - cbn [fold_left existsb].
    destruct (Confirm_Update_step m msg) as (Hq & Ha & Hd & _). cbv zeta in *.
    destruct (IH (fst (UI.Confirm.Update m msg))) as (Hq' & Ha' & Hd').
    split; [congruence |]. split.
    + intros H. destruct (Ha' H) as [Hy | Hm]; [left; now rewrite Hy, orb_true_r |].
      destruct (Ha Hm) as [Hy | Hm']; [left; now rewrite Hy | now right].
    + intros Hinv. apply Hd'. now apply Hd.
Qed.

(** X20. Whatever messages arrive, and in whatever order, the confirmation
    prompt keeps its question; its answer is yes only if one of the messages was
    the key y or Y, and then the prompt is done; and the answer is yes whenever
    the last message was such a key. *)
Theorem confirmation_needs_a_yes question msgs :
  UI.Confirm.Question (UI.after UI.Confirm.Update (UI.Confirm.initial question) msgs)
  = question
  /\ (UI.Confirm.Answer (UI.after UI.Confirm.Update (UI.Confirm.initial question) msgs)
      = true ->
      existsb UI.Confirm.yes msgs = true
      /\ UI.Confirm.Done (UI.after UI.Confirm.Update (UI.Confirm.initial question) msgs)
         = true)
  /\ forall msg,
       UI.Confirm.yes msg = true ->
       UI.Confirm.Answer
         (UI.after UI.Confirm.Update (UI.Confirm.initial question) (msgs ++ [msg])%list)
       = true.
Proof.
  destruct (Confirm_after (UI.Confirm.initial question) msgs) as (Hq & Ha & Hd).
  cbv zeta in *. split; [exact Hq |]. split.
  - intros H. split.
    + destruct (Ha H) as [Hy | Hm]; [exact Hy | discriminate Hm].
    + apply Hd; [discriminate | exact H].
  - intros msg Hy. unfold UI.after. rewrite fold_left_app. cbn [fold_left].
    now apply Confirm_Update_step.
Qed.

(** ** The workspace *)

(** The first operation of the loop is always attempted. *)
Lemma runGitOperations_starts env commitMessage h r ops :
  runGitOperations env (gitOperations commitMessage) h = (r, ops) ->
  exists output res rest,
    ops = EvPrint info "Executing: git %s" [AStr "checkout --orphan temp_branch"]
          :: EvGit ["checkout"; "--orphan"; "temp_branch"] output res :: rest.
Proof.
  unfold gitOperations. cbn [runGitOperations]. intros H.
  apply bind_inv in H. destruct H as [(u & n1 & n2 & H1 & H & ->) | (m & H1 & _)];
    [| discriminate H1].
  injection H1 as <- <-.
  apply bind_inv in H. destruct H as [(err & n1 & n3 & H1 & H & ->) | (m & H1 & _)];
    rewrite RunGitCommandWithOutput_run in H1;
    destruct (git_CombinedOutput env _ _) as [o [e |]]; try discriminate H1;
    injection H1 as <- <-; now eexists _, _, _.
Qed.

(** X21. When the clone has succeeded, the run goes on with the first of the
    five operations whatever the change into the clone answered: the result of
    [os.Chdir(repoInfo.RepoName)] is not looked at, so after a failed change the
    operations run in the workspace itself. *)
Theorem the_change_into_the_clone_is_not_checked env repoInfo commitMessage r tr url output :
  ResetRepo env repoInfo commitMessage [] = (r, tr) ->
  In (EvGit ["clone"; url] output None) tr ->
  exists c output' res rest,
    tr = (cloning env repoInfo
          ++ EvGit ["clone"; cloneURL repoInfo] output None :: stdoutOf output
          ++ EvChdir (RepoName repoInfo) c
             :: EvPrint info "Executing: git %s" [AStr "checkout --orphan temp_branch"]
             :: EvGit ["checkout"; "--orphan"; "temp_branch"] output' res :: rest)%list.
Proof.
  intros Hrun Hin. apply ResetRepo_ExitPath in Hrun.
  assert (Hclone : forall o c, In (EvGit ["clone"; url] output None) (cloned env repoInfo o c)
                               -> o = output).
  { intros o c H. split_in H; try discriminate H. now injection H as _ ->. }
  destruct Hrun as [e0 | e0 | e0 d | o e0 d | o c e0 ops d Hops | o c ops o' e0 d Hops
                   | o c ops o' r after d Hops Hafter].
  1-4: split_in Hin; discriminate Hin.
  all: destruct (runGitOperations_starts _ _ _ _ _ Hops) as (o2 & res & rest & Hstart).
  all: assert (Ho : o = output);
    [ apply in_app_or in Hin; destruct Hin as [Hin | Hin]; [exact (Hclone _ _ Hin) |];
      exfalso; split_in Hin; try discriminate Hin;
      try (eapply not_in_ops_head; [exact Hops | | exact Hin]; reflexivity);
      try (eapply not_in_after_head with (commitMessage := commitMessage);
           [exact Hafter | | exact Hin]; reflexivity)
    | subst o; rewrite Hstart; exists c, o2, res ].
  - exists (rest ++ [EvRemoveAll (tmpPath env) d])%list. unfold cloned. same_run.
  - exists (rest ++ [EvGitOutput ["tag"] o' (Some e0); EvRemoveAll (tmpPath env) d])%list.
    unfold cloned. same_run.
  - exists (rest ++ EvGitOutput ["tag"] o' None :: after
            ++ [EvRemoveAll (tmpPath env) d])%list.
    unfold cloned. same_run.
Qed.

Lemma the_change_into_the_clone_is_not_checked_witness :
  exists c output' res rest,
    snd (ResetRepo Faults.noCloneDirectory (Scenario.github false) "init" [])
    = (cloning Faults.noCloneDirectory (Scenario.github false)
       ++ EvGit ["clone"; cloneURL (Scenario.github false)] "Cloning into 'repo'..." None
          :: stdoutOf "Cloning into 'repo'..."
       ++ EvChdir (RepoName (Scenario.github false)) c
          :: EvPrint info "Executing: git %s" [AStr "checkout --orphan temp_branch"]
          :: EvGit ["checkout"; "--orphan"; "temp_branch"] output' res :: rest)%list.
Proof.
  refine (the_change_into_the_clone_is_not_checked Faults.noCloneDirectory
            (Scenario.github false) "init"
            (fst (ResetRepo Faults.noCloneDirectory (Scenario.github false) "init" []))
            (snd (ResetRepo Faults.noCloneDirectory (Scenario.github false) "init" []))
            "https://github.com/owner/repo.git" "Cloning into 'repo'..."
            (surjective_pairing _) _).
  vm_compute. do 4 right. left. reflexivity.
Defined.

(** X22. A failure while the workspace is prepared ends the run at once, with
    the failure as the error: when the old directory can not be removed nothing
    else happens; when the new one can not be created the run consists of these
    two calls, and the removal is not yet deferred; when the workspace can not
    be entered the deferred removal is all that follows. *)
Theorem workspace_failures_stop_the_run env repoInfo commitMessage r tr :
  ResetRepo env repoInfo commitMessage [] = (r, tr) ->
  (forall path e,
      hd_error tr = Some (EvRemoveAll path (Some e)) ->
      r = Val (Some ("failed to remove existing temporary directory: " ++ e))
      /\ tr = [EvRemoveAll (tmpPath env) (Some e)])
  /\ (forall path e,
        In (EvMkdirAll path (Some e)) tr ->
        r = Val (Some ("failed to create temporary directory: " ++ e))
        /\ tr = [EvRemoveAll (tmpPath env) None; EvMkdirAll (tmpPath env) (Some e)])
  /\ (forall path e,
        nth_error tr 2 = Some (EvChdir path (Some e)) ->
        r = Val (Some ("failed to change to temporary directory: " ++ e))
        /\ exists d,
             tr = [EvRemoveAll (tmpPath env) None; EvMkdirAll (tmpPath env) None;
                   EvChdir (tmpPath env) (Some e); EvRemoveAll (tmpPath env) d]).
Proof.
  intros Hrun. apply ResetRepo_ExitPath in Hrun.
  split; [| split]; intros path e H;
    destruct Hrun as [e0 | e0 | e0 d | o e0 d | o c e0 ops d Hops | o c ops o' e0 d Hops
                     | o c ops o' r after d Hops Hafter];
    try (unfold cloned, cloning, created in H; cbn in H; discriminate H);
    try (cbn in H; injection H as _ <-; split; [reflexivity |]; try exists d; reflexivity);
    split_in H; try discriminate H;
    try (injection H as _ <-; split; reflexivity);
    try (exfalso; eapply not_in_ops; [exact Hops | | exact H]; reflexivity);
    try (exfalso; eapply not_in_after with (commitMessage := commitMessage);
         [exact Hafter | | exact H]; reflexivity).
Qed.

Lemma workspace_failures_stop_the_run_witness :
  fst (ResetRepo Faults.noWorkspace (Scenario.github false) "init" [])
  = Val (Some "failed to change to temporary directory: no such file or directory").
Proof.
  refine (proj1 (proj2 (proj2
            (workspace_failures_stop_the_run Faults.noWorkspace (Scenario.github false)
               "init"
               (fst (ResetRepo Faults.noWorkspace (Scenario.github false) "init" []))
               (snd (ResetRepo Faults.noWorkspace (Scenario.github false) "init" []))
               (surjective_pairing _))) "/tmp/git-tmp" "no such file or directory" _)).
  vm_compute. reflexivity.
Defined.

(** ** C5: the failure policy of the release cleanup *)

(** One round of the delete loop of DeleteGitHubReleases, lines 211-218: it
    ends or panics on a nil pointer; it warns exactly when the deletion
    failed; it attempts the deletion unless the identifier is nil. *)
Lemma gitHub_delete_round env repoInfo release h r n :
  (id <- deref (ID release) ;;
   err <- Repositories_DeleteRelease env (FullPath repoInfo) (RepoName repoInfo) id ;;
   match err with
   | Some e => println warning "Warning: Failed to delete release %d: %v" [AInt id; AStr e]
   | None =>
       name <- deref (Name release) ;;
       println success "Deleted release %d: %s" [AInt id; AStr name]
   end) h = (r, n) ->
  (r = Val tt \/ exists msg, r = Panic msg)
  /\ deleteWarnings n = failedDeletes n
  /\ (deleteAttempts n = [] \/ deleteAttempts n = [gitHubKey release])
  /\ (r = Val tt -> deleteAttempts n = [gitHubKey release]).
Proof.
  destruct release as [[id |] [name |] tag];
    unfold bind, deref, ret, panic, Repositories_DeleteRelease, println, emit, gitHubKey;
    cbn [ID Name fst snd app];
    try destruct (github_DeleteRelease env _ (FullPath repoInfo) (RepoName repoInfo) id);
    intros H; injection H as <- <-; cbn; repeat split; eauto; discriminate.
Qed.

(** The delete loop of DeleteGitHubReleases over any releases: the deletions
    are attempted in the order of the listing, up to the end or to the panic,
    and the warnings are those of the failed ones. *)
Lemma gitHub_delete_loop_any env repoInfo releases h r n :
  forEach releases (fun release =>
    id <- deref (ID release) ;;
    err <- Repositories_DeleteRelease env (FullPath repoInfo) (RepoName repoInfo) id ;;
    match err with
    | Some e => println warning "Warning: Failed to delete release %d: %v" [AInt id; AStr e]
    | None =>
        name <- deref (Name release) ;;
        println success "Deleted release %d: %s" [AInt id; AStr name]
    end) h = (r, n) ->
  (r = Val tt \/ exists msg, r = Panic msg)
  /\ deleteWarnings n = failedDeletes n
  /\ exists rest,
       map gitHubKey releases = (deleteAttempts n ++ rest)%list /\ (r = Val tt -> rest = []).
Proof.
  revert h r n. induction releases as [| release releases IH]; intros h r n H.
  - injection H as <- <-. split; [now left |]. split; [reflexivity |]. now exists [].
  - cbn [forEach] in H. apply bind_inv in H.
    destruct H as [(u & n1 & n2 & H1 & H & ->) | (m & H1 & ->)];
      cbv beta in H1; apply gitHub_delete_round in H1;
      destruct H1 as (Hr & Hw & Ha & Hall).
    + destruct u. destruct (IH _ _ _ H) as (Hr' & Hw' & rest & Hrest & Hend).
      split; [exact Hr' |].
      rewrite deleteWarnings_app, failedDeletes_app, deleteAttempts_app, Hw, Hw',
        (Hall eq_refl).
      split; [reflexivity |]. exists rest. cbn [map app]. now rewrite Hrest.
    + split; [exact Hr |]. split; [exact Hw |].
      destruct Ha as [-> | ->].
      * exists (map gitHubKey (release :: releases)). split; [reflexivity | discriminate].
      * exists (map gitHubKey releases). split; [reflexivity | discriminate].
Qed.

(** The calls and lines before the delete loop are no delete calls and no
    warnings. *)
Ltac past_the_listing :=
  unfold deleteWarnings, failedDeletes, deleteAttempts in *;
  rewrite ?flat_map_app; cbn [flat_map app]; rewrite ?app_nil_r.

(** C5. In the release cleanup of either provider: when the listing fails the
    cleanup returns an error and its run holds no delete call.  When the
    listing succeeds (outside a dry run) the cleanup never returns an error:
    its delete calls go through the listing in order, the releases warned
    about are exactly those whose deletion failed, and when it returns it has
    made a delete call for every listed release.  DeleteGitLabReleases always
    returns, and so does DeleteGitHubReleases when no listed release has a
    nil identifier or name.  Otherwise DeleteGitHubReleases, which
    dereferences both without a test, can panic after the delete calls for a
    first part of the listing: then it returns nothing. *)
Theorem release_cleanup_failure_policy v env repoInfo tr r n :
  deleteReleases v env repoInfo tr = (r, n) ->
  (listingFails v env repoInfo tr ->
     (exists m, r = Val (Some m) /\ String.prefix "failed to list releases" m = true)
     /\ deleteAttempts n = [])
  /\ (forall keys,
        DryRun repoInfo = false -> listingGives v env repoInfo tr keys ->
        deleteWarnings n = failedDeletes n
        /\ (exists rest, keys = (deleteAttempts n ++ rest)%list /\ (r = Val None -> rest = []))
        /\ (r = Val None \/ (v = ViaGitHub /\ exists msg, r = Panic msg))
        /\ (nilFree v env repoInfo tr -> r = Val None /\ deleteAttempts n = keys)).
Proof.
  intros Hrun. destruct v; cbn [deleteReleases listingFails listingGives nilFree] in *.
  - unfold DeleteGitHubReleases in Hrun.
    apply bind_inv in Hrun.
    destruct Hrun as [(a & l1 & l2 & H1 & Hrun & ->) | (m & H1 & _)]; [| discriminate H1].
    injection H1 as <- <-. split.
    + intros (e & He). rewrite He in Hrun.
      injection Hrun as <- <-. split; [| reflexivity].
      eexists. split; reflexivity.
    + intros keys Hdry (releases & Hlist & ->). rewrite Hlist in Hrun.
      destruct releases as [| release releases].
      { injection Hrun as <- <-. split; [reflexivity |]. split; [now exists [] |].
        split; [now left |]. intros _. now split. }
      rewrite Hdry in Hrun. cbn [List.length Nat.eqb] in Hrun.
      apply bind_inv in Hrun.
      destruct Hrun as [(u0 & l3 & l4 & H1 & Hrun & ->) | (m & H1 & _)]; [| discriminate H1].
      injection H1 as <- <-.
      apply bind_inv in Hrun.
      destruct Hrun as [(u & n1 & l5 & H1 & Hrun & ->) | (m & H1 & ->)].
      * injection Hrun as <- <-.
        destruct (gitHub_delete_loop_any _ _ _ _ _ _ H1) as (_ & Hw & rest & Hrest & Hend).
        destruct u. rewrite (Hend eq_refl), app_nil_r in Hrest.
        past_the_listing.
        split; [exact Hw |]. split; [exists []; now rewrite app_nil_r |].
        split; [now left |]. intros _. now split.
      * destruct (gitHub_delete_loop_any _ _ _ _ _ _ H1) as (Hr & Hw & rest & Hrest & _).
        past_the_listing.
        split; [exact Hw |]. split; [exists rest; split; [exact Hrest | discriminate] |].
        split; [right; split; [reflexivity | now exists m] |].
        intros Hwf. exfalso.
        match type of H1 with
        | forEach _ _ ?h = _ =>
            destruct (@gitHub_delete_loop env repoInfo _ h (Hwf _ Hlist)) as (k & Hk & _)
        end.
        rewrite Hk in H1. discriminate H1.
  - unfold DeleteGitLabReleases, gitLabClientReady, withClient, gitLabPath in *.
    apply bind_inv in Hrun.
    destruct Hrun as [(a & l1 & l2 & H1 & Hrun & ->) | (m & H1 & _)]; [| discriminate H1].
    injection H1 as <- <-. split.
    + intros (Hclient & [status e] & He). rewrite Hclient in Hrun.
      apply bind_inv in Hrun.
      destruct Hrun as [(a0 & l3 & l4 & H1 & Hrun & ->) | (m & H1 & _)]; [| discriminate H1].
      injection H1 as <- <-.
      simpl in He. rewrite He in Hrun.
      destruct status; injection Hrun as <- <-; (split; [| reflexivity]);
        eexists; split; reflexivity.
    + intros keys Hdry (Hclient & releases & Hlist & ->). rewrite Hclient in Hrun.
      apply bind_inv in Hrun.
      destruct Hrun as [(a0 & l3 & l4 & H1 & Hrun & ->) | (m & H1 & _)]; [| discriminate H1].
      injection H1 as <- <-.
      simpl in Hlist. rewrite Hlist in Hrun.
      destruct releases as [| release releases].
      { injection Hrun as <- <-. split; [reflexivity |]. split; [now exists [] |].
        split; [now left |]. intros _. now split. }
      rewrite Hdry in Hrun. cbn [List.length Nat.eqb] in Hrun.
      apply bind_inv in Hrun.
      destruct Hrun as [(u0 & l5 & l6 & H1 & Hrun & ->) | (m & H1 & _)]; [| discriminate H1].
      injection H1 as <- <-.
      apply bind_inv in Hrun.
      destruct Hrun as [(u & n1 & l7 & H1 & Hrun & ->) | (m & H1 & _)];
        match type of H1 with
        | forEach ?l _ ?h = _ =>
            destruct (gitLab_delete_loop env (FullPath repoInfo ++ "/" ++ RepoName repoInfo)
                        l h) as (k & Hk & Ha & Hw)
        end;
        rewrite Hk in H1; [| discriminate H1].
      injection H1 as <- <-. injection Hrun as <- <-.
      past_the_listing.
      split; [exact Hw |]. split; [exists []; now rewrite app_nil_r |].
      split; [now left |]. intros _. now split.
Qed.

(** The repository of the failing run: the first of three releases can not be
    deleted, the second has no title. *)
Lemma release_cleanup_failure_policy_witness :
  deleteWarnings
    (snd (deleteReleases ViaGitHub Faults.untitledSecond (Scenario.github false) []))
  = failedDeletes
      (snd (deleteReleases ViaGitHub Faults.untitledSecond (Scenario.github false) []))
  /\ (fst (deleteReleases ViaGitHub Faults.untitledSecond (Scenario.github false) [])
      = Val None
      \/ ViaGitHub = ViaGitHub
         /\ exists msg,
              fst (deleteReleases ViaGitHub Faults.untitledSecond (Scenario.github false) [])
              = Panic msg).
Proof.
  pose proof (proj2 (release_cleanup_failure_policy ViaGitHub Faults.untitledSecond
                       (Scenario.github false) []
                       (fst (deleteReleases ViaGitHub Faults.untitledSecond
                               (Scenario.github false) []))
                       (snd (deleteReleases ViaGitHub Faults.untitledSecond
                               (Scenario.github false) []))
                       (surjective_pairing _))
                [inl 1%Z; inl 2%Z; inl 3%Z] eq_refl
                (ex_intro _ [Scenario.release 1 "v1";
                             {| ID := Some 2%Z; Name := None; TagName := Some "v2" |};
                             Scenario.release 3 "v3"] (conj eq_refl eq_refl))) as P.
  exact (conj (proj1 P) (proj1 (proj2 (proj2 P)))).
Defined.

(** That run: the refused deletion of the first release is warned about and
    the loop goes on; the second release is deleted, and printing its name
    panics; the third release gets no delete call, and neither the cleanup nor
    ResetRepo returns. *)
Example untitled_release_stops_the_cleanup :
  (exists msg,
      deleteReleases ViaGitHub Faults.untitledSecond (Scenario.github false) [] =
        (Panic msg,
         [EvGitHubList "owner" "repo"
            (inl [Scenario.release 1 "v1";
                  {| ID := Some 2%Z; Name := None; TagName := Some "v2" |};
                  Scenario.release 3 "v3"]);
          EvPrint info "Found %d releases" [AInt 3];
          EvGitHubDelete "owner" "repo" 1 (Some "403 Forbidden");
          EvPrint warning "Warning: Failed to delete release %d: %v"
            [AInt 1; AStr "403 Forbidden"];
          EvGitHubDelete "owner" "repo" 2 None]))
  /\ deleteAttempts
       (snd (deleteReleases ViaGitHub Faults.untitledSecond (Scenario.github false) []))
     = [inl 1%Z; inl 2%Z]
  /\ exists msg,
       fst (ResetRepo Faults.untitledSecond (Scenario.github false) "init" []) = Panic msg.
Proof.
  split; [eexists; vm_compute; reflexivity |].
  split; [vm_compute; reflexivity |].
  eexists. vm_compute. reflexivity.
Qed.

(** ** C8: the working directory *)

(** C8 as stated fails: after the successful run of a plain reset started in
    /home/user, the working directory is /tmp/git-tmp/repo, inside the
    workspace /tmp/git-tmp that the deferred call has just removed. *)
Lemma cwd_left_in_removed_workspace :
  fst (ResetRepo Scenario.bare (Scenario.github false) "init" []) = Val None
  /\ workspace Scenario.bare ["home"; "user"] = ["tmp"; "git-tmp"]
  /\ cwdAfter ["home"; "user"]
       (snd (ResetRepo Scenario.bare (Scenario.github false) "init" []))
     = ["tmp"; "git-tmp"; "repo"]
  /\ last (snd (ResetRepo Scenario.bare (Scenario.github false) "init" [])) EvUsage
     = EvRemoveAll "/tmp/git-tmp" None
  /\ danglingAtExit Scenario.bare ["home"; "user"]
       (snd (ResetRepo Scenario.bare (Scenario.github false) "init" [])) = true.
Proof.
  split; [vm_compute; reflexivity |].
  split; [vm_compute; reflexivity |].
  split; [vm_compute; reflexivity |].
  split; vm_compute; reflexivity.
Qed.

Lemma cwdAfter_app cwd0 a b :
  cwdAfter cwd0 (a ++ b)%list = cwdAfter (cwdAfter cwd0 a) b.
Proof. apply fold_left_app. Qed.

Lemma cwdAfter_quiet (p : Event -> bool) l cwd0 :
  (forall path r, p (EvChdir path r) = false) ->
  forallb p l = true -> cwdAfter cwd0 l = cwd0.
Proof.
  intros Hp. revert cwd0. induction l as [| e l IH]; intros cwd0 H; [reflexivity |].
  cbn [forallb] in H. apply andb_true_iff in H. destruct H as [He Hl].
  destruct e; try (now apply IH). now rewrite Hp in He.
Qed.

Lemma cwdAfter_stdoutOf cwd0 o : cwdAfter cwd0 (stdoutOf o) = cwd0.
Proof. unfold stdoutOf. now destruct (0 <? String.length o)%nat. Qed.

Lemma cwdAfter_cloned env repoInfo cwd0 o c :
  cwdAfter cwd0 (cloned env repoInfo o c) = workspace env cwd0
  \/ cwdAfter cwd0 (cloned env repoInfo o c)
     = chdirTo (workspace env cwd0) (RepoName repoInfo).
Proof.
  unfold cloned, cloning, created, workspace.
  rewrite !cwdAfter_app.
  change (cwdAfter cwd0 [EvRemoveAll (tmpPath env) None; EvMkdirAll (tmpPath env) None])
    with cwd0.
  change (cwdAfter cwd0
            [EvChdir (tmpPath env) None;
             EvPrint info "Cloning repository: git clone %s" [AStr (cloneURL repoInfo)]])
    with (chdirTo cwd0 (tmpPath env)).
  change (EvGit ["clone"; cloneURL repoInfo] o None
          :: stdoutOf o ++ [EvChdir (RepoName repoInfo) c])%list
    with ([EvGit ["clone"; cloneURL repoInfo] o None]
          ++ stdoutOf o ++ [EvChdir (RepoName repoInfo) c])%list.
  rewrite !cwdAfter_app, cwdAfter_stdoutOf.
  destruct c; [left | right]; reflexivity.
Qed.

(** C8, amended. On every exit path of ResetRepo on which a change of
    directory to the workspace path succeeded, the working directory at the
    exit is the workspace or the directory RepoName names from the workspace,
    and the last action of the run is the deferred removal of the workspace
    path; on every other exit path the working directory at the exit is the
    one the run started in. *)
Theorem cwd_stays_in_the_workspace env repoInfo commitMessage r tr cwd0 :
  ResetRepo env repoInfo commitMessage [] = (r, tr) ->
  (In (EvChdir (tmpPath env) None) tr ->
     (cwdAfter cwd0 tr = workspace env cwd0
      \/ cwdAfter cwd0 tr = chdirTo (workspace env cwd0) (RepoName repoInfo))
     /\ exists d, last tr EvUsage = EvRemoveAll (tmpPath env) d)
  /\ (~ In (EvChdir (tmpPath env) None) tr -> cwdAfter cwd0 tr = cwd0).
Proof.
  intros Hrun. apply ResetRepo_ExitPath in Hrun.
  assert (Hops : forall h res ops c0,
             runGitOperations env (gitOperations commitMessage) h = (res, ops) ->
             cwdAfter c0 ops = c0).
  { intros h res ops c0 H.
    eapply cwdAfter_quiet; [| eapply ops_events, H]. reflexivity. }
  assert (Hafter : forall tags h res after c0,
             afterTags env repoInfo tags h = (res, after) -> cwdAfter c0 after = c0).
  { intros tags h res after c0 H.
    eapply cwdAfter_quiet; [| eapply after_events with (commitMessage := commitMessage), H].
    reflexivity. }
  assert (Hin : forall o c l, In (EvChdir (tmpPath env) None) (cloned env repoInfo o c ++ l)).
  { intros o c l. apply in_or_app. left. unfold cloned. apply in_or_app. left.
    unfold cloning. apply in_or_app. right. left. reflexivity. }
  destruct Hrun as [e0 | e0 | e0 d | o e0 d | o c e0 ops d H1 | o c ops o' e0 d H1
                   | o c ops o' r after d H1 H2].
  - split; [intros H; split_in H; discriminate | reflexivity].
  - split; [intros H; split_in H; discriminate | reflexivity].
  - split; [intros H; split_in H; discriminate | reflexivity].
  - split.
    + intros _. split; [left; reflexivity | exists d; reflexivity].
    + intros H. exfalso. apply H. unfold cloning. apply in_or_app. left.
      apply in_or_app. right. left. reflexivity.
  - split; [intros _ | intros H; exfalso; apply H, Hin].
    split.
    + rewrite !cwdAfter_app, (Hops _ _ _ _ H1).
      change (cwdAfter ?x [EvRemoveAll (tmpPath env) d]) with x.
      apply cwdAfter_cloned.
    + exists d. rewrite !app_assoc. apply last_last.
  - split; [intros _ | intros H; exfalso; apply H, Hin].
    split.
    + rewrite !cwdAfter_app, (Hops _ _ _ _ H1).
      change (cwdAfter ?x [EvGitOutput ["tag"] o' (Some e0); EvRemoveAll (tmpPath env) d])
        with x.
      apply cwdAfter_cloned.
    + exists d.
      change [EvGitOutput ["tag"] o' (Some e0); EvRemoveAll (tmpPath env) d]
        with ([EvGitOutput ["tag"] o' (Some e0)] ++ [EvRemoveAll (tmpPath env) d])%list.
      rewrite !app_assoc. apply last_last.
  - split; [intros _ | intros H; exfalso; apply H, Hin].
    split.
    + change (EvGitOutput ["tag"] o' None :: after ++ [EvRemoveAll (tmpPath env) d])%list
        with ([EvGitOutput ["tag"] o' None] ++ after ++ [EvRemoveAll (tmpPath env) d])%list.
      rewrite !cwdAfter_app, (Hops _ _ _ _ H1), (Hafter _ _ _ _ _ H2).
      change (cwdAfter ?x [EvRemoveAll (tmpPath env) d]) with x.
      change (cwdAfter ?x [EvGitOutput ["tag"] o' None]) with x.
      apply cwdAfter_cloned.
    + exists d.
      change (EvGitOutput ["tag"] o' None :: after ++ [EvRemoveAll (tmpPath env) d])%list
        with ([EvGitOutput ["tag"] o' None] ++ after ++ [EvRemoveAll (tmpPath env) d])%list.
      rewrite !app_assoc. apply last_last.
Qed.

Lemma cwd_stays_in_the_workspace_witness :
  (cwdAfter ["home"; "user"]
     (snd (ResetRepo Scenario.twoTags (Scenario.github false) "init" []))
   = workspace Scenario.twoTags ["home"; "user"]
   \/ cwdAfter ["home"; "user"]
        (snd (ResetRepo Scenario.twoTags (Scenario.github false) "init" []))
      = chdirTo (workspace Scenario.twoTags ["home"; "user"]) "repo")
  /\ exists d,
       last (snd (ResetRepo Scenario.twoTags (Scenario.github false) "init" [])) EvUsage
       = EvRemoveAll "/tmp/git-tmp" d.
Proof.
  refine (proj1 (cwd_stays_in_the_workspace Scenario.twoTags (Scenario.github false) "init"
                   (fst (ResetRepo Scenario.twoTags (Scenario.github false) "init" []))
                   (snd (ResetRepo Scenario.twoTags (Scenario.github false) "init" []))
                   ["home"; "user"] (surjective_pairing _)) _).
  vm_compute. do 2 right. left. reflexivity.
Defined.
